(** * multilspy [language_server.py]: buffer manager and symbol-graph engine

    A shallow embedding of [src/multilspy/language_server.py] (classes
    [LSPFileBuffer] and [LanguageServer]) together with the properties
    its specification states about it.

    Python values are modelled as follows.
    - [str] is [string]; a character is a code point below 256.
    - [int] is [Z]; list indices and slice bounds follow Python's rules
      for negative and out-of-range values.
    - [dict] used as a table ([open_file_buffers],
      [_document_symbols_cache], the file system) is [gmap string _].
    - JSON objects received from the server are records whose optional
      keys are [option] fields; reading a missing key raises [KeyError].
    - the methods of [LanguageServer] run in a state-and-exception monad
      over the record [World]. *)

From Stdlib Require Import ZArith Ascii String List Lia Bool.
From stdpp Require Import base option gmap strings list fin_maps.

Local Open Scope Z_scope.
Set Warnings "-register-all".

(* ===================================================================== *)
(** ** Python strings, lists and slices *)
(* ===================================================================== *)

Module Py.

(** The newline character and the one-character strings the code uses. *)
Definition NL : ascii := "010"%char.
Definition DOT : ascii := "."%char.
Definition nl : string := String NL "".

(** [len(s)] *)
Definition len (s : string) : Z := Z.of_nat (String.length s).

Fixpoint take (n : nat) (s : string) : string :=
  match n, s with
  | O, _ => ""
  | S _, EmptyString => ""
  | S n', String c s' => String c (take n' s')
  end.

Fixpoint drop (n : nat) (s : string) : string :=
  match n, s with
  | O, _ => s
  | S _, EmptyString => ""
  | S n', String _ s' => drop n' s'
  end.

(** How a slice bound is resolved against a sequence of length [n]:
    a negative bound counts from the end, and every bound is clamped to
    [0..n]. *)
Definition clamp (n i : Z) : Z :=
  if i <? 0 then Z.max (i + n) 0 else Z.min i n.

(** [s[lo:hi]]; [None] is an omitted bound. *)
Definition slice (s : string) (lo hi : option Z) : string :=
  let n := len s in
  let a := match lo with Some i => clamp n i | None => 0 end in
  let b := match hi with Some i => clamp n i | None => n end in
  take (Z.to_nat (b - a)) (drop (Z.to_nat a) s).

(** [l[i]] on a list: [None] stands for [IndexError]. *)
Definition index {A} (l : list A) (i : Z) : option A :=
  let n := Z.of_nat (length l) in
  if i <? 0 then (if 0 <=? i + n then l !! Z.to_nat (i + n) else None)
  else l !! Z.to_nat i.

(** [s.split(sep)] for a one-character separator. *)
Fixpoint split (sep : ascii) (s : string) : list string :=
  match s with
  | EmptyString => [""]
  | String c s' =>
      if decide (c = sep) then "" :: split sep s'
      else match split sep s' with
           | h :: t => String c h :: t
           | [] => [String c ""]
           end
  end.

(** [c in s] for a one-character [c]. *)
Fixpoint contains (c : ascii) (s : string) : bool :=
  match s with
  | EmptyString => false
  | String d s' => if decide (d = c) then true else contains c s'
  end.

(** [str.isspace] on one character, for code points below 256. *)
Definition is_space (c : ascii) : bool :=
  let n := nat_of_ascii c in
  ((9 <=? n)%nat && (n <=? 13)%nat) || ((28 <=? n)%nat && (n <=? 32)%nat)
  || (n =? 133)%nat || (n =? 160)%nat.

Fixpoint lstrip (s : string) : string :=
  match s with
  | EmptyString => ""
  | String c s' => if is_space c then lstrip s' else s
  end.

(** [s.strip()] *)
Definition strip (s : string) : string :=
  String.rev (lstrip (String.rev (lstrip s))).

Fixpoint all_space (s : string) : bool :=
  match s with
  | EmptyString => true
  | String c s' => is_space c && all_space s'
  end.

End Py.

(* ===================================================================== *)
(** ** [hashlib.md5(contents.encode('utf-8')).hexdigest()] *)
(* ===================================================================== *)

Module MD5.

Definition mask32 : Z := 0xFFFFFFFF.
Definition add32 (a b : Z) : Z := Z.land (a + b) mask32.
Definition not32 (a : Z) : Z := Z.lxor a mask32.
Definition rotl32 (x c : Z) : Z :=
  Z.lor (Z.land (Z.shiftl x c) mask32) (Z.shiftr x (32 - c)).

Definition K : list Z :=
  [ 0xd76aa478; 0xe8c7b756; 0x242070db; 0xc1bdceee;
    0xf57c0faf; 0x4787c62a; 0xa8304613; 0xfd469501;
    0x698098d8; 0x8b44f7af; 0xffff5bb1; 0x895cd7be;
    0x6b901122; 0xfd987193; 0xa679438e; 0x49b40821;
    0xf61e2562; 0xc040b340; 0x265e5a51; 0xe9b6c7aa;
    0xd62f105d; 0x02441453; 0xd8a1e681; 0xe7d3fbc8;
    0x21e1cde6; 0xc33707d6; 0xf4d50d87; 0x455a14ed;
    0xa9e3e905; 0xfcefa3f8; 0x676f02d9; 0x8d2a4c8a;
    0xfffa3942; 0x8771f681; 0x6d9d6122; 0xfde5380c;
    0xa4beea44; 0x4bdecfa9; 0xf6bb4b60; 0xbebfbc70;
    0x289b7ec6; 0xeaa127fa; 0xd4ef3085; 0x04881d05;
    0xd9d4d039; 0xe6db99e5; 0x1fa27cf8; 0xc4ac5665;
    0xf4292244; 0x432aff97; 0xab9423a7; 0xfc93a039;
    0x655b59c3; 0x8f0ccc92; 0xffeff47d; 0x85845dd1;
    0x6fa87e4f; 0xfe2ce6e0; 0xa3014314; 0x4e0811a1;
    0xf7537e82; 0xbd3af235; 0x2ad7d2bb; 0xeb86d391 ].

Definition R : list Z :=
  [ 7; 12; 17; 22; 7; 12; 17; 22; 7; 12; 17; 22; 7; 12; 17; 22;
    5; 9; 14; 20; 5; 9; 14; 20; 5; 9; 14; 20; 5; 9; 14; 20;
    4; 11; 16; 23; 4; 11; 16; 23; 4; 11; 16; 23; 4; 11; 16; 23;
    6; 10; 15; 21; 6; 10; 15; 21; 6; 10; 15; 21; 6; 10; 15; 21 ].

(** UTF-8 of a code point below 256. *)
Definition utf8_char (c : ascii) : list Z :=
  let n := Z.of_nat (nat_of_ascii c) in
  if n <? 128 then [n] else [Z.lor 0xC0 (Z.shiftr n 6); Z.lor 0x80 (Z.land n 0x3F)].

Fixpoint utf8 (s : string) : list Z :=
  match s with
  | EmptyString => []
  | String c s' => utf8_char c ++ utf8 s'
  end.

(** [n] bytes of [x], least significant first. *)
Fixpoint le_bytes (n : nat) (x : Z) : list Z :=
  match n with
  | O => []
  | S n' => Z.land x 0xFF :: le_bytes n' (Z.shiftr x 8)
  end.

Fixpoint le_word (bs : list Z) : Z :=
  match bs with
  | [] => 0
  | b :: bs' => Z.lor b (Z.shiftl (le_word bs') 8)
  end.

Definition pad (msg : list Z) : list Z :=
  let n := Z.of_nat (length msg) in
  let zeros := Z.to_nat ((55 - n) mod 64) in
  msg ++ [0x80] ++ replicate zeros 0 ++ le_bytes 8 (8 * n).

Fixpoint chunks (k : nat) (fuel : nat) (bs : list Z) : list (list Z) :=
  match fuel, bs with
  | O, _ => []
  | _, [] => []
  | S fuel', _ => firstn k bs :: chunks k fuel' (skipn k bs)
  end.

Definition words (block : list Z) : list Z :=
  le_word <$> chunks 4 16 block.

Definition round (M : list Z) (st : Z * Z * Z * Z) (i : nat) : Z * Z * Z * Z :=
  let '(A, B, C, D) := st in
  let iz := Z.of_nat i in
  let '(F, g) :=
    if iz <? 16 then (Z.lor (Z.land B C) (Z.land (not32 B) D), iz)
    else if iz <? 32 then (Z.lor (Z.land D B) (Z.land (not32 D) C), (5 * iz + 1) mod 16)
    else if iz <? 48 then (Z.lxor (Z.lxor B C) D, (3 * iz + 5) mod 16)
    else (Z.lxor C (Z.lor B (not32 D)), (7 * iz) mod 16) in
  let F' := add32 (add32 (add32 F A) (nth i K 0)) (nth (Z.to_nat g) M 0) in
  (D, add32 B (rotl32 F' (nth i R 0)), B, C).

Definition block_step (st : Z * Z * Z * Z) (block : list Z) : Z * Z * Z * Z :=
  let '(a0, b0, c0, d0) := st in
  let '(A, B, C, D) := fold_left (round (words block)) (seq 0 64) st in
  (add32 a0 A, add32 b0 B, add32 c0 C, add32 d0 D).

Definition digest (msg : list Z) : list Z :=
  let p := pad msg in
  let '(a, b, c, d) :=
    fold_left block_step (chunks 64 (length p) p)
      (0x67452301, 0xefcdab89, 0x98badcfe, 0x10325476) in
  le_bytes 4 a ++ le_bytes 4 b ++ le_bytes 4 c ++ le_bytes 4 d.

Definition hex_digit (n : Z) : ascii :=
  ascii_of_nat (Z.to_nat (if n <? 10 then 48 + n else 87 + n)).

Fixpoint hex (bs : list Z) : string :=
  match bs with
  | [] => ""
  | b :: bs' => String (hex_digit (Z.shiftr b 4)) (String (hex_digit (Z.land b 0xF)) (hex bs'))
  end.

(** [hashlib.md5(s.encode('utf-8')).hexdigest()] *)
Definition hexdigest (s : string) : string := hex (digest (utf8 s)).

End MD5.


(* ===================================================================== *)
(** ** Data model *)
(* ===================================================================== *)

(** [multilspy_types.Position], [Range] and [Location]. *)
Record Position := mkPosition { line : Z; character : Z }.

#[global] Instance Position_eq_dec : EqDecision Position.
Proof. solve_decision. Defined.

Record Range := mkRange { r_start : Position; r_end : Position }.

(** A location dict as it travels through the code: the server sends
    [uri] and [range]; [absolutePath] and [relativePath] are keys the
    client adds. *)
Record Location := mkLocation {
  l_uri : string;
  l_range : Range;
  l_absolutePath : option string;
  l_relativePath : option string }.

(** A document symbol dict.  The same shape serves the server's
    [DocumentSymbol] (hierarchical: [range], [selectionRange],
    [children]), its [SymbolInformation] (flat: [location]) and the
    [UnifiedSymbolInformation] the client hands out.  An absent key is
    [None]. *)
Inductive Symbol := mkSymbol {
  s_name : option string;
  s_kind : option Z;
  s_range : option Range;
  s_selectionRange : option Range;
  s_location : option Location;
  s_children : option (list Symbol) }.

(** Modelled from the spec: the members of [SymbolKind] and
    [CompletionItemKind] the code names.  Both are integer enumerations
    declared in [lsp_types], which is not among the sources; section
    4.6 lists the container kinds Class, Function, Method and Variable,
    and the numbers are those of the protocol (the docstring of
    [request_containing_symbol] quotes Function (12), Method (6),
    Class (5)). *)
Module SymbolKind.
Definition Class_ : Z := 5.
Definition Method_ : Z := 6.
Definition Function_ : Z := 12.
Definition Variable_ : Z := 13.
End SymbolKind.

Module CompletionItemKind.
Definition Keyword : Z := 14.
End CompletionItemKind.

(** [LSPFileBuffer]: a dataclass whose [__post_init__] sets
    [content_hash] from the contents it is constructed with. *)
Record LSPFileBuffer := mkBuffer {
  uri : string;
  contents : string;
  version : Z;
  language_id : string;
  ref_count : Z;
  content_hash : string }.

Definition new_LSPFileBuffer (u c : string) (v : Z) (lang : string) (rc : Z)
  : LSPFileBuffer :=
  {| uri := u; contents := c; version := v; language_id := lang;
     ref_count := rc; content_hash := MD5.hexdigest c |}.

Definition set_ref_count (rc : Z) (b : LSPFileBuffer) : LSPFileBuffer :=
  {| uri := uri b; contents := contents b; version := version b;
     language_id := language_id b; ref_count := rc;
     content_hash := content_hash b |}.

Definition set_version (v : Z) (b : LSPFileBuffer) : LSPFileBuffer :=
  {| uri := uri b; contents := contents b; version := v;
     language_id := language_id b; ref_count := ref_count b;
     content_hash := content_hash b |}.

Definition set_contents (c : string) (b : LSPFileBuffer) : LSPFileBuffer :=
  {| uri := uri b; contents := c; version := version b;
     language_id := language_id b; ref_count := ref_count b;
     content_hash := content_hash b |}.

(** A completion item as the server sends it, and as the client returns
    it. *)
Record TextEdit := mkTextEdit {
  te_newText : option string;
  te_range : option Range;
  te_insert : option Range }.

Record LspCompletionItem := mkLspCompletionItem {
  ci_label : option string;
  ci_kind : option Z;
  ci_detail : option string;
  ci_insertText : option string;
  ci_textEdit : option TextEdit }.

Record CompletionItem := mkCompletionItem {
  completionText : string;
  c_kind : Z;
  c_detail : option string }.

(** What [server.send.completion] can come back with: [None], a bare
    list of items, or a [CompletionList]. *)
Inductive CompletionResponse :=
| CompletionNone
| CompletionItems (items : list LspCompletionItem)
| CompletionList (isIncomplete : bool) (items : list LspCompletionItem).

(** Messages the client writes to the server, in the order written. *)
Inductive Msg :=
| DidOpen (u lang : string) (v : Z) (text : string)
| DidChange (v : Z) (u : string) (r : Range) (text : string)
| DidClose (u : string)
| ReqDefinition (u : string) (p : Position)
| ReqReferences (u : string) (p : Position)
| ReqCompletion (u : string) (p : Position)
| ReqDocumentSymbol (u : string).

(** The language server is an external process.  What it answers to a
    request is a function of everything the client has written so far
    (the request included). *)
Record Server := mkServer {
  on_completion : list Msg → CompletionResponse;
  on_document_symbol : list Msg → option (list Symbol);
  on_references : list Msg → option (list Location);
  on_definition : list Msg → option (list Location) }.

(** The value of [_cache_has_changed]: the constructor stores the class
    [bool] there, [request_document_symbols] stores [True]. *)
Inductive PyFlag :=
| PyTypeBool
| PyBool (b : bool).

(** Python truthiness: a class object is truthy. *)
Definition truthy (f : PyFlag) : bool :=
  match f with
  | PyTypeBool => true
  | PyBool b => b
  end.

(** A cache entry: [(file_content_hash, (symbols, l_tree))]. *)
Definition CacheEntry : Type := string * (list Symbol * option (list Symbol)).

(** The state a [LanguageServer] instance lives in: its own attributes,
    the file system it reads and writes, and the wire to the server. *)
Record World := mkWorld {
  server_started : bool;
  repository_root_path : string;
  ls_language_id : string;
  open_file_buffers : gmap string LSPFileBuffer;
  document_symbols_cache : gmap string CacheEntry;
  cache_has_changed : PyFlag;
  files : gmap string string;
  cache_file : option (gmap string CacheEntry);
  sent : list Msg;
  server : Server }.

Definition with_started (b : bool) (w : World) : World :=
  mkWorld b (repository_root_path w) (ls_language_id w) (open_file_buffers w)
    (document_symbols_cache w) (cache_has_changed w) (files w) (cache_file w)
    (sent w) (server w).

Definition with_buffers (m : gmap string LSPFileBuffer) (w : World) : World :=
  mkWorld (server_started w) (repository_root_path w) (ls_language_id w) m
    (document_symbols_cache w) (cache_has_changed w) (files w) (cache_file w)
    (sent w) (server w).

Definition with_cache (c : gmap string CacheEntry) (w : World) : World :=
  mkWorld (server_started w) (repository_root_path w) (ls_language_id w)
    (open_file_buffers w) c (cache_has_changed w) (files w) (cache_file w)
    (sent w) (server w).

Definition with_flag (f : PyFlag) (w : World) : World :=
  mkWorld (server_started w) (repository_root_path w) (ls_language_id w)
    (open_file_buffers w) (document_symbols_cache w) f (files w) (cache_file w)
    (sent w) (server w).

Definition with_cache_file (c : option (gmap string CacheEntry)) (w : World) : World :=
  mkWorld (server_started w) (repository_root_path w) (ls_language_id w)
    (open_file_buffers w) (document_symbols_cache w) (cache_has_changed w)
    (files w) c (sent w) (server w).

Definition with_sent (l : list Msg) (w : World) : World :=
  mkWorld (server_started w) (repository_root_path w) (ls_language_id w)
    (open_file_buffers w) (document_symbols_cache w) (cache_has_changed w)
    (files w) (cache_file w) l (server w).

(* ===================================================================== *)
(** ** The monad of methods *)
(* ===================================================================== *)

Inductive Exn :=
| MultilspyException (msg : string)
| AssertionError
| IndexError
| KeyError
| FileReadError.

(** The outcome of a call: a value, a raised exception, or a loop cut
    off by the fuel of the model. *)
Inductive Res (A : Type) :=
| Ok (a : A)
| Raise (e : Exn)
| OutOfFuel.
Arguments Ok {A} a.
Arguments Raise {A} e.
Arguments OutOfFuel {A}.

(** A method maps a state to an outcome and the state it leaves behind;
    attribute updates made before an exception stay. *)
Definition M (A : Type) : Type := World → Res A * World.

Definition ret {A} (a : A) : M A := λ w, (Ok a, w).

Definition bind {A B} (c : M A) (f : A → M B) : M B :=
  λ w, match c w with
       | (Ok a, w') => f a w'
       | (Raise e, w') => (Raise e, w')
       | (OutOfFuel, w') => (OutOfFuel, w')
       end.

Definition raise {A} (e : Exn) : M A := λ w, (Raise e, w).
Definition gets {A} (f : World → A) : M A := λ w, (Ok (f w), w).
Definition modify (f : World → World) : M unit := λ w, (Ok tt, f w).

Notation "'let*' x ':=' c 'in' k" := (bind c (λ x, k))
  (at level 10, x name, c at level 200, k at level 200).
Notation "'let*' ( x , y ) ':=' c 'in' k" := (bind c (λ '(x, y), k))
  (at level 10, x name, y name, c at level 200, k at level 200).

(** [assert b] *)
Definition py_assert (b : bool) : M unit :=
  if b then ret tt else raise AssertionError.

(** [d[k]] on an optional key or a dict lookup. *)
Definition key {A} (o : option A) : M A :=
  match o with
  | Some a => ret a
  | None => raise KeyError
  end.

(** [self.server.notify.*] and the writing half of [self.server.send.*]. *)
Definition write (m : Msg) : M unit :=
  modify (λ w, with_sent (sent w ++ [m]) w).

(* ===================================================================== *)
(** ** Collaborators outside [language_server.py] *)
(* ===================================================================== *)

(** Path arithmetic is left to [pathlib] and [os.path]; the model takes
    it as an interface. *)
Class PathOps := {
  (** [str(PurePath(root, rel))], also [os.path.join(root, rel)] *)
  pure_path : string → string → string;
  (** [pathlib.Path(p).as_uri()] *)
  as_uri : string → string;
  (** [PathUtils.uri_to_path(uri)] *)
  uri_to_path : string → string;
  (** [str(PurePath(os.path.relpath(p, start)))] *)
  relpath : string → string → string }.

(** Paths as POSIX has them when no character needs quoting and [rel]
    is relative; the concrete scenarios below run on this instance. *)
Module Posix.
Definition join (root rel : string) : string := root +:+ "/" +:+ rel.
Definition to_uri (p : string) : string := "file://" +:+ p.
Definition from_uri (u : string) : string := Py.drop 7 u.
Definition relative_to (p start : string) : string :=
  Py.drop (S (String.length start)) p.
Definition ops : PathOps :=
  {| pure_path := join; as_uri := to_uri;
     uri_to_path := from_uri; relpath := relative_to |}.
End Posix.

Module TextUtils.

(** Modelled from the spec: the walk of [get_index_from_line_col] (see
    below) over the text: the offset reached after passing [n] line
    breaks of [text], counted from [idx]; there is none when [text] has
    fewer line breaks. *)
Fixpoint walk (text : string) (n : nat) (idx : Z) : option Z :=
  match n with
  | O => Some idx
  | S n' =>
      match text with
      | EmptyString => None
      | String c t => walk t (if decide (c = Py.NL) then n' else n) (idx + 1)
      end
  end.

(** Modelled from the spec: [TextUtils.get_index_from_line_col] of
    [multilspy_utils], which is not among the sources.  Section 4.4
    calls it the conversion of (line, col) to an offset in [contents]:
    the offset of the first character of line [line], plus [col].  A
    line the text does not have has no offset ([None], an
    assertion-class failure); a line number below zero is taken as
    zero. *)
Definition get_index_from_line_col (text : string) (l c : Z) : option Z :=
  (λ idx, idx + c) <$> walk text (Z.to_nat l) 0.

(** Modelled from the spec: [TextUtils.get_updated_position_from_line_and_column_and_edit]
    of [multilspy_utils], which is not among the sources.  Section 4.4:
    the new cursor position is computed by walking the inserted text
    and advancing line and character. *)
Fixpoint get_updated_position_from_line_and_column_and_edit
    (l c : Z) (text_to_be_inserted : string) : Z * Z :=
  match text_to_be_inserted with
  | EmptyString => (l, c)
  | String ch t =>
      if decide (ch = Py.NL)
      then get_updated_position_from_line_and_column_and_edit (l + 1) 0 t
      else get_updated_position_from_line_and_column_and_edit l (c + 1) t
  end.

End TextUtils.

Module FileUtils.

(** Modelled from the spec: [FileUtils.read_file] of [multilspy_utils],
    which is not among the sources.  Section 4.4: the file contents are
    read from disk; a file that cannot be read is an error. *)
Definition read_file (absolute_file_path : string) : M string :=
  let* fs := gets files in
  match fs !! absolute_file_path with
  | Some c => ret c
  | None => raise FileReadError
  end.

End FileUtils.

(* ===================================================================== *)
(** ** [LanguageServer]: construction and the buffer manager *)
(* ===================================================================== *)

Section LanguageServer.
Context `{PathOps}.

(** [load_cache]: the pickled cache replaces the table when the cache
    file exists. *)
Definition load_cache : M unit :=
  let* f := gets cache_file in
  match f with
  | None => ret tt
  | Some c => modify (with_cache c)
  end.

(** [save_cache] *)
Definition save_cache : M unit :=
  let* flag := gets cache_has_changed in
  if truthy flag then
    let* c := gets document_symbols_cache in
    modify (with_cache_file (Some c))
  else ret tt.

(** [LanguageServer.__init__], on the file system and server it finds. *)
Definition init (root lang : string) (fs : gmap string string)
    (cf : option (gmap string CacheEntry)) (srv : Server) : World :=
  let w0 := mkWorld false root lang ∅ ∅ (PyBool false) fs cf [] srv in
  let w1 := (load_cache w0).2 in
  with_flag PyTypeBool w1.

(** [start_server]: the context manager's two halves. *)
Definition start_server_enter : M unit := modify (with_started true).
Definition start_server_exit : M unit := modify (with_started false).

(** The guard every public method starts with. *)
Definition check_started : M unit :=
  let* st := gets server_started in
  if st then ret tt else raise (MultilspyException "Language Server not started").

Definition file_uri (relative_file_path : string) : M string :=
  let* root := gets repository_root_path in
  ret (as_uri (pure_path root relative_file_path)).

Definition get_buffer (u : string) : M LSPFileBuffer :=
  let* bufs := gets open_file_buffers in
  key (bufs !! u).

Definition put_buffer (u : string) (b : LSPFileBuffer) : M unit :=
  modify (λ w, with_buffers (<[u := b]> (open_file_buffers w)) w).

(** [open_file] up to its [yield]: the buffer is identified by its uri. *)
Definition open_file_enter (relative_file_path : string) : M string :=
  let* _ := check_started in
  let* root := gets repository_root_path in
  let absolute_file_path := pure_path root relative_file_path in
  let u := as_uri absolute_file_path in
  let* bufs := gets open_file_buffers in
  match bufs !! u with
  | Some b =>
      let* _ := py_assert (bool_decide (uri b = u)) in
      let* _ := py_assert (1 <=? ref_count b) in
      let* _ := put_buffer u (set_ref_count (ref_count b + 1) b) in
      ret u
  | None =>
      let* contents := FileUtils.read_file absolute_file_path in
      let* lang := gets ls_language_id in
      let* _ := put_buffer u (new_LSPFileBuffer u contents 0 lang 1) in
      let* _ := write (DidOpen u lang 0 contents) in
      ret u
  end.

(** [open_file] after its [yield]. *)
Definition open_file_exit (u : string) : M unit :=
  let* b := get_buffer u in
  let* _ := put_buffer u (set_ref_count (ref_count b - 1) b) in
  let* b' := get_buffer u in
  if ref_count b' =? 0 then
    let* _ := write (DidClose u) in
    modify (λ w, with_buffers (delete u (open_file_buffers w)) w)
  else ret tt.

(** [with self.open_file(path) as file_data: body].  The generator has
    no [try]/[finally]: when the body raises, the part after [yield]
    does not run; a [return] inside the body does run it. *)
Definition with_open_file {A} (relative_file_path : string)
    (body : string → M A) : M A :=
  let* u := open_file_enter relative_file_path in
  let* r := body u in
  let* _ := open_file_exit u in
  ret r.

(** [insert_text_at_position] *)
Definition insert_text_at_position (relative_file_path : string)
    (l c : Z) (text_to_be_inserted : string) : M Position :=
  let* _ := check_started in
  let* u := file_uri relative_file_path in
  let* bufs := gets open_file_buffers in
  let* _ := py_assert (bool_decide (is_Some (bufs !! u))) in
  let* file_buffer := get_buffer u in
  let file_buffer := set_version (version file_buffer + 1) file_buffer in
  let* _ := put_buffer u file_buffer in
  match TextUtils.get_index_from_line_col (contents file_buffer) l c with
  | None => raise AssertionError
  | Some change_index =>
      let file_buffer :=
        set_contents
          (Py.slice (contents file_buffer) None (Some change_index)
           +:+ text_to_be_inserted
           +:+ Py.slice (contents file_buffer) (Some change_index) None)
          file_buffer in
      let* _ := put_buffer u file_buffer in
      let* _ := write (DidChange (version file_buffer) (uri file_buffer)
                  (mkRange (mkPosition l c) (mkPosition l c)) text_to_be_inserted) in
      let '(new_l, new_c) :=
        TextUtils.get_updated_position_from_line_and_column_and_edit
          l c text_to_be_inserted in
      ret (mkPosition new_l new_c)
  end.

(** [delete_text_between_positions] *)
Definition delete_text_between_positions (relative_file_path : string)
    (start end_ : Position) : M string :=
  let* _ := check_started in
  let* u := file_uri relative_file_path in
  let* bufs := gets open_file_buffers in
  let* _ := py_assert (bool_decide (is_Some (bufs !! u))) in
  let* file_buffer := get_buffer u in
  let file_buffer := set_version (version file_buffer + 1) file_buffer in
  let* _ := put_buffer u file_buffer in
  match TextUtils.get_index_from_line_col (contents file_buffer)
          (line start) (character start) with
  | None => raise AssertionError
  | Some del_start_idx =>
      match TextUtils.get_index_from_line_col (contents file_buffer)
              (line end_) (character end_) with
      | None => raise AssertionError
      | Some del_end_idx =>
          let deleted_text :=
            Py.slice (contents file_buffer) (Some del_start_idx) (Some del_end_idx) in
          let file_buffer :=
            set_contents
              (Py.slice (contents file_buffer) None (Some del_start_idx)
               +:+ Py.slice (contents file_buffer) (Some del_end_idx) None)
              file_buffer in
          let* _ := put_buffer u file_buffer in
          let* _ := write (DidChange (version file_buffer) (uri file_buffer)
                      (mkRange start end_) "") in
          ret deleted_text
      end
  end.

(** [get_open_file_text] *)
Definition get_open_file_text (relative_file_path : string) : M string :=
  let* _ := check_started in
  let* u := file_uri relative_file_path in
  let* bufs := gets open_file_buffers in
  let* _ := py_assert (bool_decide (is_Some (bufs !! u))) in
  let* file_buffer := get_buffer u in
  ret (contents file_buffer).



(** An edit of an open buffer, and the edits applied in order through
    the two editing methods. *)
Inductive Edit :=
| InsertText (l c : Z) (text : string)
| DeleteText (start end_ : Position).

Definition run_edit (relative_file_path : string) (e : Edit) : M unit :=
  match e with
  | InsertText l c text =>
      let* _ := insert_text_at_position relative_file_path l c text in ret tt
  | DeleteText start end_ =>
      let* _ := delete_text_between_positions relative_file_path start end_ in ret tt
  end.

Fixpoint run_edits (relative_file_path : string) (es : list Edit) : M unit :=
  match es with
  | [] => ret tt
  | e :: es' =>
      let* _ := run_edit relative_file_path e in
      run_edits relative_file_path es'
  end.

End LanguageServer.

(** The same edits on a plain string, as the specification words them:
    an insert splices the text in at the offset of its position, a
    delete cuts out what lies between the offsets of its two positions. *)
Definition edit_string (e : Edit) (T : string) : option string :=
  match e with
  | InsertText l c text =>
      i ← TextUtils.get_index_from_line_col T l c;
      Some (Py.slice T None (Some i) +:+ text +:+ Py.slice T (Some i) None)
  | DeleteText start end_ =>
      i ← TextUtils.get_index_from_line_col T (line start) (character start);
      j ← TextUtils.get_index_from_line_col T (line end_) (character end_);
      Some (Py.slice T None (Some i) +:+ Py.slice T (Some j) None)
  end.

Fixpoint edit_strings (es : list Edit) (T : string) : option string :=
  match es with
  | [] => Some T
  | e :: es' => T' ← edit_string e T; edit_strings es' T'
  end.

(** The [didChange] an edit announces, given the version it produces. *)
Definition edit_message (u : string) (v : Z) (e : Edit) : Msg :=
  match e with
  | InsertText l c text => DidChange v u (mkRange (mkPosition l c) (mkPosition l c)) text
  | DeleteText start end_ => DidChange v u (mkRange start end_) ""
  end.

Fixpoint edit_messages (u : string) (v : Z) (es : list Edit) : list Msg :=
  match es with
  | [] => []
  | e :: es' => edit_message u (v + 1) e :: edit_messages u (v + 1) es'
  end.

(* ===================================================================== *)
(** ** [LanguageServer]: requests *)
(* ===================================================================== *)

(** Code that reads dicts and lists without touching [self] can raise
    but has no other effect: it runs in the exception half of the
    monad. *)
Module Pure.

Definition bind {A B} (r : Res A) (f : A → Res B) : Res B :=
  match r with
  | Ok a => f a
  | Raise e => Raise e
  | OutOfFuel => OutOfFuel
  end.

(** [d[k]] *)
Definition key {A} (o : option A) : Res A :=
  match o with
  | Some a => Ok a
  | None => Raise KeyError
  end.

(** [l[i]] *)
Definition item {A} (l : list A) (i : Z) : Res A :=
  match Py.index l i with
  | Some a => Ok a
  | None => Raise IndexError
  end.

(** [assert b] *)
Definition assert (b : bool) : Res unit :=
  if b then Ok tt else Raise AssertionError.

End Pure.

Notation "'let?' x ':=' c 'in' k" := (Pure.bind c (λ x, k))
  (at level 10, x name, c at level 200, k at level 200).

(** A list comprehension whose condition may raise. *)
Fixpoint filterE {A} (f : A → Res bool) (l : list A) : Res (list A) :=
  match l with
  | [] => Ok []
  | x :: l' =>
      let? keep := f x in
      let? rest := filterE f l' in
      Ok (if keep then x :: rest else rest)
  end.

(** A [for] loop that appends one value per element. *)
Fixpoint mapE {A B} (f : A → Res B) (l : list A) : Res (list B) :=
  match l with
  | [] => Ok []
  | x :: l' =>
      let? y := f x in
      let? rest := mapE f l' in
      Ok (y :: rest)
  end.

Definition lift {A} (r : Res A) : M A := λ w, (r, w).

(** The order in which a Python [set] of strings is iterated is not
    fixed by the language: [request_completions] returns its items in
    whatever order the set yields them. *)
Class SetOrder := {
  set_list : list CompletionItem → list CompletionItem;
  set_list_elem : ∀ l x, x ∈ set_list l ↔ x ∈ l;
  set_list_NoDup : ∀ l, NoDup (set_list l) }.

#[global] Instance CompletionItem_eq_dec : EqDecision CompletionItem.
Proof. solve_decision. Defined.

(** [self.server.send.*]: the request is written, the answer is what the
    server makes of the wire so far. *)
Definition send {A} (m : Msg) (answer : Server → list Msg → A) : M A :=
  let* _ := write m in
  let* srv := gets server in
  let* h := gets sent in
  ret (answer srv h).

(** [max(l, key=key)] on a non-empty list [x :: l]: the running maximum
    is replaced only by an element with a greater key. *)
Fixpoint py_max {A} (key : A → Z) (x : A) (l : list A) : A :=
  match l with
  | [] => x
  | y :: l' => py_max key (if key x <? key y then y else x) l'
  end.

(** *** [request_completions] *)

(** The response after [isinstance(response, list)] has been dealt with:
    [None], or a dict with [isIncomplete] and [items]. *)
Definition as_completion_list (r : CompletionResponse)
  : option (bool * list LspCompletionItem) :=
  match r with
  | CompletionNone => None
  | CompletionItems items => Some (false, items)
  | CompletionList inc items => Some (inc, items)
  end.

(** The condition of the [while] loop. *)
Definition keep_asking (response : option (bool * list LspCompletionItem))
    (num_retries : Z) : bool :=
  match response with
  | None => true
  | Some (isIncomplete, _) => isIncomplete && (num_retries <? 30)
  end.

(** The [while] loop; [fuel] bounds the iterations of the model.  The
    wait on [completions_available] at the head of each iteration is
    taken to return: the event is set by the language-specific
    subclasses. *)
Fixpoint completion_loop (fuel : nat) (u : string) (pos : Position)
    (response : option (bool * list LspCompletionItem)) (num_retries : Z)
  : M (option (bool * list LspCompletionItem)) :=
  if keep_asking response num_retries then
    match fuel with
    | O => λ w, (OutOfFuel, w)
    | S fuel' =>
        let* r := send (ReqCompletion u pos) on_completion in
        completion_loop fuel' u pos (as_completion_list r) (num_retries + 1)
    end
  else ret response.

(** [[item for item in response if item["kind"] != Keyword]] *)
Definition without_keywords (response : list LspCompletionItem)
  : Res (list LspCompletionItem) :=
  filterE (λ it, let? k := Pure.key (ci_kind it) in
                 Ok (negb (bool_decide (k = CompletionItemKind.Keyword))))
    response.

(** The body of the [for item in items] loop. *)
Definition completion_item_of (pos : Position) (it : LspCompletionItem)
  : Res CompletionItem :=
  let? _ := Pure.assert (bool_decide (is_Some (ci_insertText it))
                         || bool_decide (is_Some (ci_textEdit it))) in
  let? _ := Pure.assert (bool_decide (is_Some (ci_kind it))) in
  let? k := Pure.key (ci_kind it) in
  let detail := ci_detail it in
  match ci_label it, ci_insertText it, ci_textEdit it with
  | Some label, _, _ => Ok (mkCompletionItem label k detail)
  | None, Some insertText, _ => Ok (mkCompletionItem insertText k detail)
  | None, None, Some te =>
      match te_newText te, te_range te, te_insert te with
      | Some newText, _, _ => Ok (mkCompletionItem newText k detail)
      | None, Some r, _ =>
          let? _ := Pure.assert
            (bool_decide (line (r_start r) = line pos)
             && bool_decide (character (r_start r) = character pos)
             && bool_decide (line (r_start r) = line (r_end r))
             && bool_decide (character (r_start r) = character (r_end r))) in
          let? newText := Pure.key (te_newText te) in
          Ok (mkCompletionItem newText k detail)
      | None, None, _ => Raise AssertionError
      end
  | None, None, None => Raise AssertionError
  end.

(** *** [request_document_symbols] *)

(** [del tree['children']] and the copy [UnifiedSymbolInformation] makes
    of what is left. *)
Definition detach (tree : Symbol) : Symbol :=
  mkSymbol (s_name tree) (s_kind tree) (s_range tree) (s_selectionRange tree)
    (s_location tree) None.

(** The local function [visit_tree_nodes_and_build_tree_repr]; the inner
    [fix] is its [for child in children: l.extend(...)], which has
    nothing to run through when the node has no [children] key. *)
Fixpoint visit_tree_nodes_and_build_tree_repr (tree : Symbol) : list Symbol :=
  let l := [detach tree] in
  match s_children tree with
  | None => l
  | Some children =>
      (fix extend_all (cs : list Symbol) (l : list Symbol) : list Symbol :=
         match cs with
         | [] => l
         | child :: cs' =>
             extend_all cs' (l ++ visit_tree_nodes_and_build_tree_repr child)
         end) children l
  end.

(** The [for item in response] loop, with [ret] as accumulator. *)
Fixpoint collect_symbols (response : list Symbol) (ret_ : list Symbol)
  : Res (list Symbol) :=
  match response with
  | [] => Ok ret_
  | item :: rest =>
      let? _ := Pure.assert (bool_decide (is_Some (s_name item))) in
      let? _ := Pure.assert (bool_decide (is_Some (s_kind item))) in
      match s_children item with
      | Some _ =>
          collect_symbols rest (ret_ ++ visit_tree_nodes_and_build_tree_repr item)
      | None => collect_symbols rest (ret_ ++ [item])
      end
  end.

(** *** [request_containing_symbol] *)

(** One step of the loop that gives every symbol a [location]. *)
Definition add_location (absolute_file_path relative_file_path : string)
    (symbol : Symbol) : option Symbol :=
  match s_location symbol with
  | None =>
      range ← s_range symbol;
      Some (mkSymbol (s_name symbol) (s_kind symbol) (s_range symbol)
              (s_selectionRange symbol)
              (Some (mkLocation ("file:/" +:+ absolute_file_path) range
                       (Some absolute_file_path) (Some relative_file_path)))
              (s_children symbol))
  | Some location =>
      Some (mkSymbol (s_name symbol) (s_kind symbol) (s_range symbol)
              (s_selectionRange symbol)
              (Some (mkLocation ("file:/" +:+ absolute_file_path) (l_range location)
                       (Some absolute_file_path) (Some relative_file_path)))
              (s_children symbol))
  end.

(** The loop over [symbols]: the symbols as the loop leaves them, and
    whether it got through without a missing [range]. *)
Fixpoint add_locations (absolute_file_path relative_file_path : string)
    (symbols : list Symbol) : list Symbol * bool :=
  match symbols with
  | [] => ([], true)
  | s :: rest =>
      match add_location absolute_file_path relative_file_path s with
      | Some s' =>
          let '(rest', ok) := add_locations absolute_file_path relative_file_path rest in
          (s' :: rest', ok)
      | None => (s :: rest, false)
      end
  end.

(** The local function [is_position_in_range]. *)
Definition is_position_in_range (column : option Z) (strict : bool)
    (l : Z) (range_d : Range) : bool :=
  let start := r_start range_d in
  let end_ := r_end range_d in
  if strict then
    ((l <=? line end_) && (line start <? l))
    && match column with Some col => character start <? col | None => true end
  else
    ((l <=? line end_) && (line start <=? l))
    && match column with Some col => character start <=? col | None => true end.

(** [s["location"]["range"]] *)
Definition location_range (s : Symbol) : Res Range :=
  let? location := Pure.key (s_location s) in Ok (l_range location).

(** The key of the final [max]: [s["location"]["range"]["start"]["line"]];
    every symbol has a location by then. *)
Definition start_line (s : Symbol) : Z :=
  match s_location s with
  | Some location => line (r_start (l_range location))
  | None => 0
  end.

(** The part of [request_containing_symbol] after the symbols have
    their locations: candidates, containing symbols, the innermost. *)
Definition innermost_container (column : option Z) (strict : bool) (l : Z)
    (symbols : list Symbol) : Res (option Symbol) :=
  let? candidate_containers :=
    filterE (λ s,
      let? k := Pure.key (s_kind s) in
      if bool_decide (k = SymbolKind.Method_) || bool_decide (k = SymbolKind.Function_)
         || bool_decide (k = SymbolKind.Class_)
      then let? r := location_range s in
           Ok (negb (bool_decide (line (r_start r) = line (r_end r))))
      else Ok false) symbols in
  let? var_containers :=
    filterE (λ s, let? k := Pure.key (s_kind s) in
                  Ok (bool_decide (k = SymbolKind.Variable_))) symbols in
  let candidate_containers := candidate_containers ++ var_containers in
  match candidate_containers with
  | [] => Ok None
  | _ =>
      let? containing_symbols :=
        filterE (λ symbol,
          let? s_range := location_range symbol in
          Ok (is_position_in_range column strict l s_range)) candidate_containers in
      match containing_symbols with
      | [] => Ok None
      | s :: rest => Ok (Some (py_max start_line s rest))
      end
  end.

(** *** [request_referencing_symbols] *)

(** The search of the fallback: the first symbol with the given name
    whose kind is Variable, copied and relocated to the reference. *)
Fixpoint find_variable (containing_symbol_name : string) (ref : Location)
    (all_symbols : list Symbol) : Res (option Symbol) :=
  match all_symbols with
  | [] => Ok None
  | symbol :: rest =>
      let? name := Pure.key (s_name symbol) in
      if bool_decide (name = containing_symbol_name) then
        let? k := Pure.key (s_kind symbol) in
        if bool_decide (k = SymbolKind.Variable_) then
          Ok (Some (mkSymbol (s_name symbol) (s_kind symbol)
                      (Some (l_range ref)) (s_selectionRange symbol)
                      (Some ref) (s_children symbol)))
        else find_variable containing_symbol_name ref rest
      else find_variable containing_symbol_name ref rest
  end.

(** The test for a self-reference; [and] evaluates its right operand
    only when the left one holds. *)
Definition is_self_reference (relative_file_path : string) (ref : Location)
    (containing_symbol : Symbol) : Res bool :=
  let? location := Pure.key (s_location containing_symbol) in
  let? rel := Pure.key (l_relativePath location) in
  if bool_decide (rel = relative_file_path) then
    let? sel := Pure.key (s_selectionRange containing_symbol) in
    Ok (bool_decide (line (r_start sel) = line (r_start (l_range ref)))
        && bool_decide (character (r_start sel) = character (r_start (l_range ref))))
  else Ok false.

(** The test for an import of the incoming symbol. *)
Definition is_import (include_imports : bool) (incoming_symbol : option Symbol)
    (containing_symbol : Symbol) : Res bool :=
  if negb include_imports then
    match incoming_symbol with
    | Some inc =>
        let? n := Pure.key (s_name containing_symbol) in
        let? n' := Pure.key (s_name inc) in
        if bool_decide (n = n') then
          let? k := Pure.key (s_kind containing_symbol) in
          let? k' := Pure.key (s_kind inc) in
          Ok (bool_decide (k = k'))
        else Ok false
    | None => Ok false
    end
  else Ok false.

(** What the body of the loop does to [result] and [incoming_symbol]
    once the containing symbol of a reference is known. *)
Definition classify_reference (relative_file_path : string)
    (include_imports include_self : bool) (ref : Location)
    (containing_symbol : Symbol) (acc : list Symbol * option Symbol)
  : Res (list Symbol * option Symbol) :=
  let '(result, incoming_symbol) := acc in
  let? self := is_self_reference relative_file_path ref containing_symbol in
  if self then
    let incoming_symbol := Some containing_symbol in
    if include_self then Ok (result ++ [containing_symbol], incoming_symbol)
    else
      (* the log line formats [incoming_symbol['name']] *)
      let? _ := Pure.key (s_name containing_symbol) in
      Ok (result, incoming_symbol)
  else
    let? import := is_import include_imports incoming_symbol containing_symbol in
    if import then Ok (result, incoming_symbol)
    else Ok (result ++ [containing_symbol], incoming_symbol).

Section Requests.
Context `{PathOps} `{SetOrder}.

(** [request_completions] *)
Definition request_completions (fuel : nat) (relative_file_path : string)
    (l c : Z) (allow_incomplete : bool) : M (list CompletionItem) :=
  with_open_file relative_file_path (λ u,
    let* open_file_buffer := get_buffer u in
    let pos := mkPosition l c in
    let* response := completion_loop fuel (uri open_file_buffer) pos None 0 in
    match response with
    | None => ret []
    | Some (isIncomplete, response) =>
        if isIncomplete && negb allow_incomplete then ret [] else
        let* items := lift (without_keywords response) in
        let* completions_list := lift (mapE (completion_item_of pos) items) in
        ret (set_list completions_list)
    end).

(** [request_document_symbols].  The [with] block either returns the
    cached result ([inl]) or leaves with the server's response ([inr]);
    [file_data.content_hash] is read while the buffer is in the table,
    which is the value the later reads see, no code assigning that
    field after construction. *)
Definition request_document_symbols (relative_file_path : string)
  : M (list Symbol * option (list Symbol)) :=
  let* r := with_open_file relative_file_path (λ u,
    let* file_data := get_buffer u in
    let* cache := gets document_symbols_cache in
    let ask :=
      let* response := send (ReqDocumentSymbol u) on_document_symbol in
      ret (inr (content_hash file_data, response)) in
    match cache !! relative_file_path with
    | Some (file_hash, result) =>
        if bool_decide (file_hash = content_hash file_data)
        then ret (inl result) else ask
    | None => ask
    end) in
  match r with
  | inl result => ret result
  | inr (file_hash, response) =>
      match response with
      | None => raise AssertionError
      | Some response =>
          let* ret_ := lift (collect_symbols response []) in
          let result := (ret_, None) in
          let* _ := modify (λ w, with_cache
                      (<[relative_file_path := (file_hash, result)]>
                         (document_symbols_cache w)) w) in
          let* _ := modify (with_flag (PyBool true)) in
          ret result
      end
  end.

(** [request_references] *)
Definition request_references (relative_file_path : string) (l c : Z)
  : M (list Location) :=
  let* _ := check_started in
  let* response := with_open_file relative_file_path (λ u,
    send (ReqReferences u (mkPosition l c)) on_references) in
  let* root := gets repository_root_path in
  match response with
  | None => raise AssertionError
  | Some response =>
      ret ((λ item,
              let absolutePath := uri_to_path (l_uri item) in
              mkLocation (l_uri item) (l_range item) (Some absolutePath)
                (Some (relpath absolutePath root))) <$> response)
  end.

(** The check for an empty line at the head of
    [request_containing_symbol]: the file is opened, then read again
    from disk. *)
Definition line_is_blank (relative_file_path : string) (l : Z) : M bool :=
  let* root := gets repository_root_path in
  let absolute_file_path := pure_path root relative_file_path in
  with_open_file relative_file_path (λ _,
    let* content := FileUtils.read_file absolute_file_path in
    let* text := lift (Pure.item (Py.split Py.NL content) l) in
    ret (bool_decide (Py.strip text = ""))).

(** [request_containing_symbol].  The loop that adds locations works on
    the dicts of the list [request_document_symbols] returned, which is
    the list the cache holds: the cache entry changes with it. *)
Definition request_containing_symbol (relative_file_path : string) (l : Z)
    (column : option Z) (strict : bool) : M (option Symbol) :=
  let* root := gets repository_root_path in
  let absolute_file_path := pure_path root relative_file_path in
  let* blank := line_is_blank relative_file_path l in
  if blank then ret None else
  let* (symbols, tree) := request_document_symbols relative_file_path in
  let '(symbols, ok) := add_locations absolute_file_path relative_file_path symbols in
  let* _ := modify (λ w, with_cache
              (alter (λ e, (e.1, (symbols, e.2.2))) relative_file_path
                 (document_symbols_cache w)) w) in
  if negb ok then raise KeyError else
  lift (innermost_container column strict l symbols).

(** The fallback for a reference no container was found for: the text
    before the first dot of the reference's line names a variable. *)
Definition variable_fallback (ref_path : string) (ref : Location) (u : string)
  : M (option Symbol) :=
  let ref_line := line (r_start (l_range ref)) in
  let* file_data := get_buffer u in
  let* ref_text := lift (Pure.item (Py.split Py.NL (contents file_data)) ref_line) in
  if Py.contains Py.DOT ref_text then
    let* containing_symbol_name := lift (Pure.item (Py.split Py.DOT ref_text) 0) in
    let* (all_symbols, tree) := request_document_symbols ref_path in
    lift (find_variable containing_symbol_name ref all_symbols)
  else ret None.

(** The containing symbol of one reference, the fallback included. *)
Definition containing_symbol_of_reference (ref_path : string) (ref : Location)
    (u : string) : M (option Symbol) :=
  let ref_line := line (r_start (l_range ref)) in
  let ref_col := character (r_start (l_range ref)) in
  let* containing_symbol :=
    request_containing_symbol ref_path ref_line (Some ref_col) false in
  match containing_symbol with
  | Some cs => ret (Some cs)
  | None => variable_fallback ref_path ref u
  end.

(** The [for ref in references] loop; [acc] is the pair of [result] and
    [incoming_symbol]. *)
Fixpoint referencing_loop (relative_file_path : string)
    (include_imports include_self : bool) (references : list Location)
    (acc : list Symbol * option Symbol) : M (list Symbol) :=
  match references with
  | [] => ret acc.1
  | ref :: rest =>
      let* ref_path := lift (Pure.key (l_relativePath ref)) in
      let* acc := with_open_file ref_path (λ u,
        let* containing_symbol := containing_symbol_of_reference ref_path ref u in
        match containing_symbol with
        | None => ret acc
        | Some cs =>
            lift (classify_reference relative_file_path include_imports
                    include_self ref cs acc)
        end) in
      referencing_loop relative_file_path include_imports include_self rest acc
  end.

(** [request_referencing_symbols] *)
Definition request_referencing_symbols (relative_file_path : string) (l c : Z)
    (include_imports include_self : bool) : M (list Symbol) :=
  let* _ := check_started in
  let* references := request_references relative_file_path l c in
  match references with
  | [] => ret []
  | _ =>
      referencing_loop relative_file_path include_imports include_self
        references ([], None)
  end.

(** [SyncLanguageServer.stop]: the server context is left, then the
    cache is saved. *)
Definition stop : M unit :=
  let* _ := start_server_exit in
  save_cache.

End Requests.

(* ===================================================================== *)
(** ** [LanguageServer]: definitions and the symbols around them *)
(* ===================================================================== *)

(** An item of the answer to [textDocument/definition]: a [Location]
    dict ([uri], [range]) or a [LocationLink] dict
    ([originSelectionRange], [targetUri], [targetRange],
    [targetSelectionRange]).  An absent key is [None]. *)
Record DefinitionItem := mkDefinitionItem {
  d_uri : option string;
  d_range : option Range;
  d_originSelectionRange : option Range;
  d_targetUri : option string;
  d_targetRange : option Range;
  d_targetSelectionRange : option Range }.

(** The shapes [request_definition] tells apart: [None], a dict, a list
    (whose items are taken to be dicts, as the [assert] on each item
    wants them), anything else. *)
Inductive DefinitionResponse :=
| DefinitionNone
| DefinitionDict (response : DefinitionItem)
| DefinitionList (response : list DefinitionItem)
| DefinitionOther.

(** What the server answers to [textDocument/definition], in the shape
    it comes in.  The field [on_definition] of [Server] holds a list of
    locations only; the shapes [request_definition] tells apart come
    through this handler.  As with the handlers of [Server], the answer
    is a function of what the client has written. *)
Class DefinitionHandler := {
  on_definition_response : list Msg → DefinitionResponse }.

(** The location [request_definition] makes of a uri and a range.
    [relpath] of [PathOps] always returns, so the [except] branches of
    the list case, which fall back to the absolute path when
    [os.path.relpath] raises, have nothing to catch. *)
Definition definition_location `{PathOps} (root u : string) (r : Range) : Location :=
  let absolutePath := uri_to_path u in
  mkLocation u r (Some absolutePath) (Some (relpath absolutePath root)).

(** The body of the [for item in response] loop of [request_definition]. *)
Definition definition_item `{PathOps} (root : string) (item : DefinitionItem)
  : Res Location :=
  match d_uri item, d_range item with
  | Some u, Some r => Ok (definition_location root u r)
  | _, _ =>
      match d_originSelectionRange item, d_targetUri item,
            d_targetRange item, d_targetSelectionRange item with
      | Some _, Some targetUri, Some _, Some targetSelectionRange =>
          Ok (definition_location root targetUri targetSelectionRange)
      | _, _, _, _ => Raise AssertionError
      end
  end.

Section Definitions.
Context `{PathOps} `{DefinitionHandler}.

(** [request_definition] *)
Definition request_definition (relative_file_path : string) (l c : Z)
  : M (list Location) :=
  let* _ := check_started in
  let* response := with_open_file relative_file_path (λ u,
    send (ReqDefinition u (mkPosition l c)) (λ _ h, on_definition_response h)) in
  let* root := gets repository_root_path in
  match response with
  | DefinitionList response => lift (mapE (definition_item root) response)
  | DefinitionDict response =>
      let* _ := py_assert (bool_decide (is_Some (d_uri response))) in
      let* _ := py_assert (bool_decide (is_Some (d_range response))) in
      let* u := key (d_uri response) in
      let* r := key (d_range response) in
      ret [definition_location root u r]
  | DefinitionNone => ret []
  | DefinitionOther => raise AssertionError
  end.

(** [request_container_of_symbol] *)
Definition request_container_of_symbol (symbol : Symbol) : M (option Symbol) :=
  let* _ := py_assert (bool_decide (is_Some (s_location symbol))) in
  let* location := key (s_location symbol) in
  let* relativePath := key (l_relativePath location) in
  request_containing_symbol relativePath
    (line (r_start (l_range location)))
    (Some (character (r_start (l_range location)))) true.

(** [request_defining_symbol] *)
Definition request_defining_symbol (relative_file_path : string) (l c : Z)
  : M (option Symbol) :=
  let* _ := check_started in
  let* definitions := request_definition relative_file_path l c in
  match definitions with
  | [] => ret None
  | definition :: _ =>
      let* def_path := key (l_relativePath definition) in
      let def_line := line (r_start (l_range definition)) in
      let def_col := character (r_start (l_range definition)) in
      request_containing_symbol def_path def_line (Some def_col) false
  end.

End Definitions.


(* ===================================================================== *)
(** ** Vocabulary of the properties *)
(* ===================================================================== *)

(** A reference is a self-reference, as the code tests it: its
    containing symbol lies in the file of the query and has its
    [selectionRange] start where the reference itself starts. *)
Definition is_self (path : string) (x : Location * Symbol) : bool :=
  match s_location x.2 with
  | Some location =>
      bool_decide (l_relativePath location = Some path)
      && match s_selectionRange x.2 with
         | Some sel => bool_decide (r_start sel = r_start (l_range x.1))
         | None => false
         end
  | None => false
  end.

Definition same_name_kind (a b : Symbol) : bool :=
  bool_decide (s_name a = s_name b) && bool_decide (s_kind a = s_kind b).

(** The incoming symbol once the references [pre] have been gone
    through: the containing symbol of the latest self-reference. *)
Definition incoming_after (path : string) (pre : list (Location * Symbol))
  : option Symbol :=
  fold_left (λ inc x, if is_self path x then Some x.2 else inc) pre None.

(** Whether the containing symbol of a reference goes into the result,
    [pre] being the references before it. *)
Definition kept (path : string) (include_imports include_self : bool)
    (pre : list (Location * Symbol)) (x : Location * Symbol) : bool :=
  if is_self path x then include_self
  else include_imports
       || match incoming_after path pre with
          | Some inc => negb (same_name_kind x.2 inc)
          | None => true
          end.

Fixpoint select (path : string) (include_imports include_self : bool)
    (pre entries : list (Location * Symbol)) : list Symbol :=
  match entries with
  | [] => []
  | x :: rest =>
      (if kept path include_imports include_self pre x then [x.2] else [])
      ++ select path include_imports include_self (pre ++ [x]) rest
  end.

(** The rule of the specification: the incoming symbol is the
    containing symbol of the first reference whose containing symbol
    lies in the file of the query and has its [selectionRange] start at
    the position of the query; that reference is kept only with
    [include_self]; without [include_imports] every other containing
    symbol with the name and kind of the incoming symbol is dropped. *)
Definition spec_is_self (path : string) (l c : Z) (x : Location * Symbol) : bool :=
  match s_location x.2, s_selectionRange x.2 with
  | Some location, Some sel =>
      bool_decide (l_relativePath location = Some path)
      && bool_decide (r_start sel = mkPosition l c)
  | _, _ => false
  end.

Fixpoint spec_select_from (path : string) (l c : Z)
    (include_imports include_self : bool) (incoming : option Symbol)
    (seen : bool) (entries : list (Location * Symbol)) : list Symbol :=
  match entries with
  | [] => []
  | x :: rest =>
      if negb seen && spec_is_self path l c x then
        (if include_self then [x.2] else [])
        ++ spec_select_from path l c include_imports include_self incoming true rest
      else
        (if include_imports
            || match incoming with
               | Some inc => negb (same_name_kind x.2 inc)
               | None => true
               end
         then [x.2] else [])
        ++ spec_select_from path l c include_imports include_self incoming seen rest
  end.

Definition spec_select (path : string) (l c : Z)
    (include_imports include_self : bool) (entries : list (Location * Symbol))
  : list Symbol :=
  spec_select_from path l c include_imports include_self
    (snd <$> List.find (spec_is_self path l c) entries) false entries.

(** The nodes of a symbol tree in depth-first preorder, as the
    specification words the walk: a node, then the walks of its
    children in order. *)
Fixpoint preorder (t : Symbol) : list Symbol :=
  t :: match s_children t with
       | None => []
       | Some children =>
           (fix forest (cs : list Symbol) : list Symbol :=
              match cs with
              | [] => []
              | c :: cs' => preorder c ++ forest cs'
              end) children
       end.

Definition preorder_forest (ts : list Symbol) : list Symbol :=
  flat_map preorder ts.

Section Vocabulary.
Context `{PathOps} `{SetOrder}.

(** A buffer after [n] edits that left it with the contents [T]: only
    [contents] and [version] differ. *)
Definition edited (b : LSPFileBuffer) (T : string) (n : Z) : LSPFileBuffer :=
  set_contents T (set_version (version b + n) b).

(** The cursor position [insert_text_at_position] returns. *)
Definition updated_position (l c : Z) (text : string) : Position :=
  let '(new_l, new_c) :=
    TextUtils.get_updated_position_from_line_and_column_and_edit l c text in
  mkPosition new_l new_c.

(** The number of line breaks of a text. *)
Fixpoint newlines (s : string) : nat :=
  match s with
  | EmptyString => O
  | String c s' => if decide (c = Py.NL) then S (newlines s') else newlines s'
  end.

(** The text [T] has the position (l, c): line [l] exists, and the [c]
    characters after its start exist and hold no line break. *)
Definition position_in (T : string) (l c : Z) : Prop :=
  0 ≤ l ∧ 0 ≤ c ∧
  ∃ off, TextUtils.walk T (Z.to_nat l) 0 = Some off
         ∧ off + c ≤ Py.len T
         ∧ Py.contains Py.NL (Py.slice T (Some off) (Some (off + c))) = false.

(** The server never answers a completion request with [None]. *)
Definition never_none (srv : Server) : Prop :=
  ∀ h, on_completion srv h ≠ CompletionNone.

(** [response["isIncomplete"]] of a normalised response. *)
Definition incomplete (r : option (bool * list LspCompletionItem)) : bool :=
  match r with
  | Some (inc, _) => inc
  | None => false
  end.

(** The file can be opened: it is open already, or it can be read. *)
Definition openable (w : World) (relative_file_path : string) : Prop :=
  is_Some (open_file_buffers w
             !! as_uri (pure_path (repository_root_path w) relative_file_path))
  ∨ is_Some (files w !! pure_path (repository_root_path w) relative_file_path).

(** The number of completion requests on the wire. *)
Fixpoint completion_requests (l : list Msg) : nat :=
  match l with
  | [] => O
  | ReqCompletion _ _ :: l' => S (completion_requests l')
  | _ :: l' => completion_requests l'
  end.

(** C3 as the specification states it, in what it says of
    [allow_incomplete]: the request is repeated only while
    [allow_incomplete] is false, so a call that wrote the request more
    than once was made with [allow_incomplete = False]. *)
Definition retried_only_if_not_allowed : Prop :=
  ∀ fuel path l c allow w r w',
    request_completions fuel path l c allow w = (r, w') →
    (completion_requests (sent w) + 1 < completion_requests (sent w'))%nat →
    allow = false.

(** What the assertions of [open_file] expect of the table. *)
Definition buffers_ok (w : World) : Prop :=
  ∀ u b, open_file_buffers w !! u = Some b → uri b = u ∧ 1 ≤ ref_count b.

(** The uri under which a file of the repository is held in the table. *)
Definition path_uri (w : World) (relative_file_path : string) : string :=
  as_uri (pure_path (repository_root_path w) relative_file_path).

(** The content hash of the buffer a [with self.open_file(path)] works
    on: that of the buffer in the table, or of a buffer made from the
    file. *)
Definition current_hash (w : World) (relative_file_path : string) : option string :=
  match open_file_buffers w !! path_uri w relative_file_path with
  | Some b => Some (content_hash b)
  | None => MD5.hexdigest <$> files w !! pure_path (repository_root_path w) relative_file_path
  end.

(** The cache holds no entry for the path under the current hash. *)
Definition cache_miss (w : World) (relative_file_path : string) : Prop :=
  ∀ h r, document_symbols_cache w !! relative_file_path = Some (h, r) →
         current_hash w relative_file_path ≠ Some h.

(** What entering and leaving a scope write: a [didOpen] when the
    document was not open, and then a [didClose]. *)
Definition open_messages (w : World) (relative_file_path : string) : list Msg :=
  match open_file_buffers w !! path_uri w relative_file_path,
        files w !! pure_path (repository_root_path w) relative_file_path with
  | None, Some contents =>
      [DidOpen (path_uri w relative_file_path) (ls_language_id w) 0 contents]
  | _, _ => []
  end.

Definition close_messages (w : World) (relative_file_path : string) : list Msg :=
  match open_file_buffers w !! path_uri w relative_file_path with
  | None => [DidClose (path_uri w relative_file_path)]
  | Some _ => []
  end.

(** The buffer a scope works on, and the state after entering it. *)
Definition opened_buffer (w : World) (relative_file_path : string)
  : option LSPFileBuffer :=
  match open_file_buffers w !! path_uri w relative_file_path with
  | Some b => Some (set_ref_count (ref_count b + 1) b)
  | None =>
      (λ contents, new_LSPFileBuffer (path_uri w relative_file_path) contents 0
                     (ls_language_id w) 1)
      <$> files w !! pure_path (repository_root_path w) relative_file_path
  end.

Definition entered (w : World) (relative_file_path : string) : World :=
  match opened_buffer w relative_file_path with
  | Some b0 =>
      with_sent (sent w ++ open_messages w relative_file_path)
        (with_buffers
           (<[path_uri w relative_file_path := b0]> (open_file_buffers w)) w)
  | None => w
  end.

(** C6 as the specification states it, in what it says of locations:
    on a hierarchical response every returned entry carries a location
    whose range is the range of its node. *)
Definition hierarchical_entries_carry_location : Prop :=
  ∀ path w items symbols tree w',
    on_document_symbol (server w)
      (sent w ++ open_messages w path ++ [ReqDocumentSymbol (path_uri w path)])
      = Some items →
    Forall (λ it, is_Some (s_children it)) items →
    cache_miss w path →
    request_document_symbols path w = (Ok (symbols, tree), w') →
    Forall (λ e, ∃ loc, s_location e = Some loc ∧ s_range e = Some (l_range loc))
      symbols.

(** The references a container was found for, each with its containing
    symbol, in reference order: the loop of
    [request_referencing_symbols] without what it does to [result]. *)
Fixpoint containers_of (references : list Location)
  : M (list (Location * Symbol)) :=
  match references with
  | [] => ret []
  | ref :: rest =>
      let* ref_path := lift (Pure.key (l_relativePath ref)) in
      let* cs := with_open_file ref_path (containing_symbol_of_reference ref_path ref) in
      let* more := containers_of rest in
      ret (match cs with Some s => (ref, s) :: more | None => more end)
  end.

(** C8 as the specification states it: the result is what the
    specification's rule selects from the references and their
    containing symbols. *)
Definition referencing_symbols_as_specified : Prop :=
  ∀ path l c include_imports include_self w refs w1 entries result w',
    request_references path l c w = (Ok refs, w1) →
    containers_of refs w1 = (Ok entries, w') →
    request_referencing_symbols path l c include_imports include_self w
      = (Ok result, w') →
    result = spec_select path l c include_imports include_self entries.



End Vocabulary.

(* ===================================================================== *)
(** ** Vocabulary of the further properties *)
(* ===================================================================== *)

Section Frames.
Context `{PathOps}.

(** What the assertions of [open_file] expect of the buffer of one file. *)
Definition buffer_ok (w : World) (relative_file_path : string) : Prop :=
  ∀ b, open_file_buffers w !! path_uri w relative_file_path = Some b →
       uri b = path_uri w relative_file_path ∧ 1 ≤ ref_count b.

(** The outcome of a call made before the server is started. *)
Definition refused {A} (m : M A) (w : World) : Prop :=
  m w = (Raise (MultilspyException "Language Server not started"), w).

(** A call that, when it returns, has left the table of open files as
    it found it. *)
Definition restores_open_files {A} (m : M A) : Prop :=
  ∀ w r w', m w = (Ok r, w') → open_file_buffers w' = open_file_buffers w.

(** A relation between the state a call starts in and the state it
    ends in, holding however the call ends. *)
Definition always {A} (R : World → World → Prop) (m : M A) : Prop :=
  ∀ w r w', m w = (r, w') → R w w'.

Definition same_cache (w w' : World) : Prop :=
  document_symbols_cache w' = document_symbols_cache w
  ∧ cache_has_changed w' = cache_has_changed w.

Definition same_buffers (w w' : World) : Prop :=
  open_file_buffers w' = open_file_buffers w.

(** The state a session starts in after [stop]: a new instance made
    over the file system and cache file the old one leaves, started. *)
Definition restarted (w : World) (srv : Server) : World :=
  with_started true
    (init (repository_root_path w) (ls_language_id w) (files w) (cache_file w) srv).

(** The request for the document symbols of a file. *)
Definition asks_for_symbols (m : Msg) : Prop :=
  match m with
  | ReqDocumentSymbol _ => True
  | _ => False
  end.

(** The [with] block of [request_document_symbols]. *)
Definition symbols_block (relative_file_path : string) (u : string)
  : M (list Symbol * option (list Symbol)
       + string * option (list Symbol)) :=
  let* file_data := get_buffer u in
  let* cache := gets document_symbols_cache in
  let ask :=
    let* response := send (ReqDocumentSymbol u) on_document_symbol in
    ret (inr (content_hash file_data, response)) in
  match cache !! relative_file_path with
  | Some (file_hash, result) =>
      if bool_decide (file_hash = content_hash file_data)
      then ret (inl result) else ask
  | None => ask
  end.

(** A symbol as [request_containing_symbol] leaves it: with a location
    that names the file by its paths. *)
Definition located_at (absolute_file_path relative_file_path : string)
    (s : Symbol) : Prop :=
  ∃ location,
    s_location s = Some location
    ∧ l_uri location = "file:/" +:+ absolute_file_path
    ∧ l_absolutePath location = Some absolute_file_path
    ∧ l_relativePath location = Some relative_file_path.

(** The candidates of [request_containing_symbol]: a class, function or
    method whose location spans more than one line, or a variable. *)
Definition candidate_container (s : Symbol) : bool :=
  match s_kind s with
  | Some k =>
      bool_decide (k = SymbolKind.Variable_)
      || ((bool_decide (k = SymbolKind.Method_)
           || bool_decide (k = SymbolKind.Function_)
           || bool_decide (k = SymbolKind.Class_))
          && match s_location s with
             | Some location =>
                 negb (bool_decide (line (r_start (l_range location))
                                    = line (r_end (l_range location))))
             | None => false
             end)
  | None => false
  end.

(** The range of the symbol's location holds the position. *)
Definition contains_position (column : option Z) (strict : bool) (l : Z)
    (s : Symbol) : bool :=
  match s_location s with
  | Some location => is_position_in_range column strict l (l_range location)
  | None => false
  end.


(** What a request sent inside a scope of its own leaves on the wire:
    it stands between the [didOpen] and the [didClose] the scope
    writes. *)
Definition asked_in_scope (w : World) (relative_file_path : string) (m : Msg)
  : list Msg :=
  sent w ++ open_messages w relative_file_path ++ [m].

Definition after_scope (w : World) (relative_file_path : string) (m : Msg)
  : World :=
  with_sent (asked_in_scope w relative_file_path m
             ++ close_messages w relative_file_path) w.

(** The symbol [s] is where the reference [ref] was found: it lies in
    the file of the reference and either holds the start of the
    reference, or is the variable the fallback moved to the
    reference. *)
Definition holds_reference (ref : Location) (s : Symbol) : Prop :=
  ∃ location,
    s_location s = Some location
    ∧ l_relativePath location = l_relativePath ref
    ∧ (contains_position (Some (character (r_start (l_range ref)))) false
         (line (r_start (l_range ref))) s = true
       ∨ location = ref ∧ s_kind s = Some SymbolKind.Variable_).

End Frames.


(* ===================================================================== *)
(** ** Scenarios *)
(* ===================================================================== *)

Module Scenario.

(** A set iterated in the order of first occurrence. *)
Definition first_occurrence : SetOrder :=
  {| set_list := remove_dups;
     set_list_elem := λ l x, elem_of_remove_dups l x;
     set_list_NoDup := NoDup_remove_dups |}.

(** A server that has nothing to say. *)
Definition silent : Server :=
  mkServer (λ _, CompletionNone) (λ _, None) (λ _, None) (λ _, None).

(** A started session on a repository [/r] holding the file [a.py] of
    the edit round-trip scenario, with no cache file. *)
Definition hello : string := "hello" +:+ Py.nl +:+ "world".

Definition session (fs : gmap string string) (srv : Server) : World :=
  with_started true (@init "/r" "python" fs None srv).

Definition w_hello : World := session {[ "/r/a.py" := hello ]} silent.

Definition a_py : string := "file:///r/a.py".

(** [a.py] opened: the state inside [with lsp.open_file("a.py"):]. *)
Definition w_open : World := (@open_file_enter Posix.ops "a.py" w_hello).2.

Definition b_hello : LSPFileBuffer := new_LSPFileBuffer a_py hello 0 "python" 1.

(** The edit round trip of the specification. *)
Definition round_trip : list Edit :=
  [InsertText 1 0 "X"; DeleteText (mkPosition 1 0) (mkPosition 1 1)].

(** [a.py] opened, then ["X"] inserted at (1, 0). *)
Definition after_insert : Res Position * World :=
  (let* _ := @open_file_enter Posix.ops "a.py" in
   @insert_text_at_position Posix.ops "a.py" 1 0 "X") w_hello.

(** The file of the containing-symbol scenario and the symbol tree a
    server reports for it. *)
Definition rng (a b c d : Z) : Range := mkRange (mkPosition a b) (mkPosition c d).

Definition docsym (n : string) (k : Z) (r sel : Range) (ch : option (list Symbol))
  : Symbol :=
  mkSymbol (Some n) (Some k) (Some r) (Some sel) None ch.

Definition c_py : string :=
  "class C:" +:+ Py.nl +:+ "  def m(self):" +:+ Py.nl +:+ "    x = 1" +:+ Py.nl.

Definition c_syms : list Symbol :=
  [docsym "C" 5 (rng 0 0 2 9) (rng 0 6 0 7)
     (Some [docsym "m" 6 (rng 1 2 2 9) (rng 1 6 1 7)
              (Some [docsym "x" 13 (rng 2 4 2 5) (rng 2 4 2 5) None])])].

Definition srv_c : Server :=
  mkServer (λ _, CompletionNone) (λ _, Some c_syms) (λ _, None) (λ _, None).

Definition w_c : World := session {[ "/r/c.py" := c_py ]} srv_c.

(** Two variables that start on the same line, as in [a, b = 1, 2]. *)
Definition v_py : string := "a, b = 1, 2".

Definition sym_a : Symbol := docsym "a" 13 (rng 0 0 0 1) (rng 0 0 0 1) None.
Definition sym_b : Symbol := docsym "b" 13 (rng 0 3 0 4) (rng 0 3 0 4) None.

Definition srv_v : Server :=
  mkServer (λ _, CompletionNone) (λ _, Some [sym_a; sym_b]) (λ _, None) (λ _, None).

Definition w_v : World := session {[ "/r/v.py" := v_py ]} srv_v.

(** A function of three lines, the file not ending in a line break. *)
Definition f_py : string :=
  "def f():" +:+ Py.nl +:+ "  x = 1" +:+ Py.nl +:+ "  return 1".

Definition sym_f : Symbol := docsym "f" 12 (rng 0 0 2 10) (rng 0 4 0 5) None.

Definition srv_f : Server :=
  mkServer (λ _, CompletionNone) (λ _, Some [sym_f]) (λ _, None) (λ _, None).

Definition w_f : World := session {[ "/r/f.py" := f_py ]} srv_f.

(** [f.py] opened, line 1 emptied in the buffer, and the containing
    symbol of line 1 asked for: the deleted text, the buffer's text and
    the answer. *)
Definition emptied_then_asked : Res (string * string * option Symbol) * World :=
  (let* _ := @open_file_enter Posix.ops "f.py" in
   let* d := @delete_text_between_positions Posix.ops "f.py"
               (mkPosition 1 0) (mkPosition 1 7) in
   let* t := @get_open_file_text Posix.ops "f.py" in
   let* s := @request_containing_symbol Posix.ops "f.py" 1 None false in
   ret (d, t, s)) w_f.

(** A symbol as [request_containing_symbol] hands it out for a file of
    the repository. *)
Definition located (rel : string) (s : Symbol) : Symbol :=
  default s (add_location ("/r/" +:+ rel) rel s).

(** A function [foo], defined at (0, 4) and used at (2, 4) in the
    assignment to [x]; the server names both places as references. *)
Definition foo_py : string :=
  "def foo():" +:+ Py.nl +:+ "  return 1" +:+ Py.nl +:+ "x = foo()" +:+ Py.nl.

Definition sym_foo : Symbol := docsym "foo" 12 (rng 0 0 1 10) (rng 0 4 0 7) None.
Definition sym_x : Symbol := docsym "x" 13 (rng 2 0 2 1) (rng 2 0 2 1) None.

Definition srv_foo : Server :=
  mkServer (λ _, CompletionNone) (λ _, Some [sym_foo; sym_x])
    (λ _, Some [mkLocation a_py (rng 0 4 0 7) None None;
                mkLocation a_py (rng 2 4 2 7) None None])
    (λ _, None).

Definition w_foo : World := session {[ "/r/a.py" := foo_py ]} srv_foo.

(** The two references as [request_references] returns them, and each
    with its containing symbol. *)
Definition ref_decl : Location :=
  mkLocation a_py (rng 0 4 0 7) (Some "/r/a.py") (Some "a.py").
Definition ref_use : Location :=
  mkLocation a_py (rng 2 4 2 7) (Some "/r/a.py") (Some "a.py").

Definition foo_entries : list (Location * Symbol) :=
  [(ref_decl, located "a.py" sym_foo); (ref_use, located "a.py" sym_x)].

(** A server whose completion lists are never complete. *)
Definition keyword_item : LspCompletionItem :=
  mkLspCompletionItem (Some "for") (Some 14) None (Some "for") None.
Definition function_item : LspCompletionItem :=
  mkLspCompletionItem (Some "foo") (Some 3) None (Some "foo") None.

Definition never_complete : Server :=
  mkServer (λ _, CompletionList true [keyword_item; function_item])
    (λ _, None) (λ _, None) (λ _, None).

Definition w_never_complete : World := session {[ "/r/a.py" := hello ]} never_complete.

(** A server whose fifth completion list is complete. *)
Definition complete_at_fifth : Server :=
  mkServer (λ h, CompletionList (completion_requests h <? 5)%nat
                   [keyword_item; function_item])
    (λ _, None) (λ _, None) (λ _, None).

Definition w_fifth : World := session {[ "/r/a.py" := hello ]} complete_at_fifth.


(** The repository of the edit scenario before [start_server]. *)
Definition w_stopped : World :=
  @init "/r" "python" {[ "/r/a.py" := hello ]} None silent.

(** A server without definitions, and one that answers with a
    [LocationLink] to the definition of [foo]. *)
Definition no_definition : DefinitionHandler :=
  {| on_definition_response := λ _, DefinitionNone |}.

Definition foo_link : DefinitionItem :=
  mkDefinitionItem None None (Some (rng 2 4 2 7)) (Some a_py)
    (Some (rng 0 0 1 10)) (Some (rng 0 4 0 7)).

Definition foo_definition : DefinitionHandler :=
  {| on_definition_response := λ _, DefinitionList [foo_link] |}.

(** [c.py] opened and its symbols asked for once: the result is in the
    cache and the buffer is in the table. *)
Definition c_uri : string := "file:///r/c.py".

Definition w_c_cached : World :=
  ((let* _ := @open_file_enter Posix.ops "c.py" in
    @request_document_symbols Posix.ops "c.py") w_c).2.

Definition b_c : LSPFileBuffer := new_LSPFileBuffer c_uri c_py 0 "python" 1.

(** The symbols of [c.py] as [request_document_symbols] lists them. *)
Definition c_flat : list Symbol := detach <$> preorder_forest c_syms.

(** The variable [x] and the method [m] of [c.py]. *)
Definition sym_c_x : Symbol := docsym "x" 13 (rng 2 4 2 5) (rng 2 4 2 5) None.
Definition sym_c_m : Symbol := docsym "m" 6 (rng 1 2 2 9) (rng 1 6 1 7) None.

(** An attribute of an instance assigned to: the reference to [status]
    has no container on its line. *)
Definition i_py : string :=
  "inst = C()" +:+ Py.nl +:+ "inst.status = 1" +:+ Py.nl.

Definition i_uri : string := "file:///r/i.py".

Definition sym_inst : Symbol := docsym "inst" 13 (rng 0 0 0 4) (rng 0 0 0 4) None.

Definition srv_i : Server :=
  mkServer (λ _, CompletionNone) (λ _, Some [sym_inst]) (λ _, None) (λ _, None).

Definition w_i : World := session {[ "/r/i.py" := i_py ]} srv_i.

Definition w_i_open : World := (@open_file_enter Posix.ops "i.py" w_i).2.

Definition ref_status : Location :=
  mkLocation i_uri (rng 1 5 1 11) (Some "/r/i.py") (Some "i.py").

(** A server whose completion item has no [kind]. *)
Definition kindless_item : LspCompletionItem :=
  mkLspCompletionItem (Some "x") None None (Some "x") None.

Definition kindless : Server :=
  mkServer (λ _, CompletionItems [kindless_item]) (λ _, None) (λ _, None) (λ _, None).

Definition w_kindless : World := session {[ "/r/a.py" := hello ]} kindless.


End Scenario.

(* ===================================================================== *)
(** * Properties *)
(* ===================================================================== *)

(** The digest agrees with the published test vectors. *)
Example md5_empty : MD5.hexdigest "" = "d41d8cd98f00b204e9800998ecf8427e".
Proof. vm_compute. reflexivity. Qed.

Example md5_abc : MD5.hexdigest "abc" = "900150983cd24fb0d6963f7d28e17f72".
Proof. vm_compute. reflexivity. Qed.

(** ** The monad *)

Lemma bind_ok {A B} (c : M A) (f : A → M B) w a w' :
  c w = (Ok a, w') → bind c f w = f a w'.
Proof. intros E. unfold bind. rewrite E. reflexivity. Qed.

Lemma bind_raise {A B} (c : M A) (f : A → M B) w e w' :
  c w = (Raise e, w') → bind c f w = (Raise e, w').
Proof. intros E. unfold bind. rewrite E. reflexivity. Qed.

Lemma bind_inv_ok {A B} (c : M A) (f : A → M B) w b w2 :
  bind c f w = (Ok b, w2) → ∃ a w1, c w = (Ok a, w1) ∧ f a w1 = (Ok b, w2).
Proof.
  unfold bind. destruct (c w) as [[a | e |] w1]; intros E; try discriminate.
  exists a, w1. split; [reflexivity | exact E].
Qed.

(** ** The buffer table *)

Section BufferManager.
Context `{PathOps}.

Lemma open_file_enter_first w path contents :
  server_started w = true →
  open_file_buffers w !! path_uri w path = None →
  files w !! pure_path (repository_root_path w) path = Some contents →
  open_file_enter path w =
    (Ok (path_uri w path),
     with_sent (sent w ++ [DidOpen (path_uri w path) (ls_language_id w) 0 contents])
       (with_buffers
          (<[path_uri w path :=
               new_LSPFileBuffer (path_uri w path) contents 0 (ls_language_id w) 1]>
             (open_file_buffers w)) w)).
Proof.
  intros Hs Hb Hf. unfold open_file_enter, check_started, bind, gets, path_uri in *.
  rewrite Hs. simpl. rewrite Hb. unfold FileUtils.read_file, bind, gets.
  rewrite Hf. reflexivity.
Qed.

Lemma open_file_enter_nested w path b :
  server_started w = true →
  open_file_buffers w !! path_uri w path = Some b →
  uri b = path_uri w path → 1 ≤ ref_count b →
  open_file_enter path w =
    (Ok (path_uri w path),
     with_buffers
       (<[path_uri w path := set_ref_count (ref_count b + 1) b]>
          (open_file_buffers w)) w).
Proof.
  intros Hs Hb Hu Hr. unfold open_file_enter, check_started, bind, gets, path_uri in *.
  rewrite Hs. simpl. rewrite Hb. unfold py_assert.
  rewrite bool_decide_true by exact Hu.
  replace (1 <=? ref_count b) with true by (symmetry; apply Z.leb_le; exact Hr).
  reflexivity.
Qed.

Lemma open_file_exit_inner w u b :
  open_file_buffers w !! u = Some b → ref_count b ≠ 1 →
  open_file_exit u w =
    (Ok tt,
     with_buffers (<[u := set_ref_count (ref_count b - 1) b]> (open_file_buffers w)) w).
Proof.
  intros Hb Hr. unfold open_file_exit, get_buffer, bind, gets, key.
  rewrite Hb. simpl. rewrite lookup_insert_eq. simpl.
  replace (ref_count b - 1 =? 0) with false by (symmetry; apply Z.eqb_neq; lia).
  reflexivity.
Qed.

Lemma open_file_exit_last w u b :
  open_file_buffers w !! u = Some b → ref_count b = 1 →
  open_file_exit u w =
    (Ok tt,
     with_sent (sent w ++ [DidClose u])
       (with_buffers (delete u (open_file_buffers w)) w)).
Proof.
  intros Hb Hr. unfold open_file_exit, get_buffer, bind, gets, key.
  rewrite Hb. simpl. rewrite lookup_insert_eq. simpl.
  rewrite Hr. unfold modify, with_sent, with_buffers. simpl.
  rewrite delete_insert_eq. reflexivity.
Qed.




Lemma with_sent_id w : with_sent (sent w ++ []) w = w.
Proof. destruct w. unfold with_sent. simpl. rewrite app_nil_r. reflexivity. Qed.



(** A body that raises leaves the scope without the part after [yield]
    being run: the count is not taken back and nothing is closed. *)
Lemma with_open_file_raises {A} path (body : string → M A) w u w0 e wb :
  open_file_enter path w = (Ok u, w0) →
  body u w0 = (Raise e, wb) →
  with_open_file path body w = (Raise e, wb).
Proof.
  intros Henter Hbody. unfold with_open_file.
  rewrite (bind_ok _ _ _ _ _ Henter). apply bind_raise. exact Hbody.
Qed.


End BufferManager.


(** ** Python strings *)

Lemma str_app_cons c s t : String c s +:+ t = String c (s +:+ t).
Proof. reflexivity. Qed.

Lemma str_app_nil_l t : "" +:+ t = t.
Proof. reflexivity. Qed.

Lemma str_app_nil_r s : s +:+ "" = s.
Proof. induction s as [| c s IH]; [reflexivity |]. rewrite str_app_cons, IH. reflexivity. Qed.

Lemma str_app_assoc a b c : (a +:+ b) +:+ c = a +:+ (b +:+ c).
Proof.
  induction a as [| x a IH]; [reflexivity |].
  rewrite !str_app_cons, IH. reflexivity.
Qed.

Lemma str_length_app a b :
  String.length (a +:+ b) = (String.length a + String.length b)%nat.
Proof.
  induction a as [| x a IH]; [reflexivity |].
  rewrite str_app_cons. simpl. rewrite IH. reflexivity.
Qed.

Lemma take_drop n s : Py.take n s +:+ Py.drop n s = s.
Proof.
  revert s. induction n as [| n IH]; intros [| c s]; try reflexivity.
  simpl. rewrite str_app_cons, IH. reflexivity.
Qed.

Lemma take_app_length a b : Py.take (String.length a) (a +:+ b) = a.
Proof.
  induction a as [| x a IH]; [destruct b; reflexivity |].
  rewrite str_app_cons. simpl. rewrite IH. reflexivity.
Qed.

Lemma drop_app_length a b : Py.drop (String.length a) (a +:+ b) = b.
Proof.
  induction a as [| x a IH]; [reflexivity |].
  rewrite str_app_cons. simpl. exact IH.
Qed.

Lemma take_length n s :
  String.length (Py.take n s) = Nat.min n (String.length s).
Proof.
  revert s. induction n as [| n IH]; intros [| c s]; try reflexivity.
  simpl. rewrite IH. reflexivity.
Qed.

Lemma take_all n s : (String.length s ≤ n)%nat → Py.take n s = s.
Proof.
  revert s. induction n as [| n IH]; intros [| c s] Hl; simpl in *; try reflexivity; try lia.
  rewrite IH by lia. reflexivity.
Qed.

Lemma drop_all n s : (String.length s ≤ n)%nat → Py.drop n s = "".
Proof.
  revert s. induction n as [| n IH]; intros [| c s] Hl; simpl in *; try reflexivity; try lia.
  apply IH. lia.
Qed.

Lemma clamp_range n i : 0 ≤ n → 0 ≤ Py.clamp n i ≤ n.
Proof. intros Hn. unfold Py.clamp. destruct (Z.ltb_spec i 0); lia. Qed.

Lemma clamp_id n i : 0 ≤ i ≤ n → Py.clamp n i = i.
Proof. intros Hi. unfold Py.clamp. destruct (Z.ltb_spec i 0); lia. Qed.

Lemma len_nonneg s : 0 ≤ Py.len s.
Proof. unfold Py.len. lia. Qed.

(** [s[:i]] and [s[i:]] cut [s] at the clamped bound. *)
Lemma slice_to s i :
  Py.slice s None (Some i) = Py.take (Z.to_nat (Py.clamp (Py.len s) i)) s.
Proof. unfold Py.slice. simpl. rewrite Z.sub_0_r. reflexivity. Qed.

Lemma slice_from s i :
  Py.slice s (Some i) None = Py.drop (Z.to_nat (Py.clamp (Py.len s) i)) s.
Proof.
  unfold Py.slice. apply take_all.
  pose proof (take_drop (Z.to_nat (Py.clamp (Py.len s) i)) s) as E.
  apply (f_equal String.length) in E. rewrite str_length_app, take_length in E.
  pose proof (clamp_range (Py.len s) i (len_nonneg s)).
  unfold Py.len in *. lia.
Qed.

(** [s[:i] + s[i:] == s] for every [i]. *)
Lemma slice_cut s i : Py.slice s None (Some i) +:+ Py.slice s (Some i) None = s.
Proof. rewrite slice_to, slice_from. apply take_drop. Qed.

(** The three slices of [a + x + b] at the bounds of [x]. *)
Lemma slice_splice a x b :
  let k := Py.len a in
  let T := a +:+ x +:+ b in
  Py.slice T None (Some k) = a
  ∧ Py.slice T (Some k) (Some (k + Py.len x)) = x
  ∧ Py.slice T (Some (k + Py.len x)) None = b.
Proof.
  intros k T.
  assert (Py.len T = Py.len a + Py.len x + Py.len b) as HT.
  { unfold T, Py.len. rewrite !str_length_app. lia. }
  pose proof (len_nonneg a). pose proof (len_nonneg x). pose proof (len_nonneg b).
  split; [| split].
  - rewrite slice_to, clamp_id by (fold k; lia).
    unfold k, Py.len. rewrite Nat2Z.id. apply take_app_length.
  - unfold Py.slice. rewrite !clamp_id by (fold k; lia).
    replace (k + Py.len x - k) with (Py.len x) by lia.
    unfold k, Py.len. rewrite !Nat2Z.id. unfold T.
    rewrite drop_app_length. apply take_app_length.
  - rewrite slice_from, clamp_id by (fold k; lia).
    unfold k, Py.len. rewrite <- Nat2Z.inj_add, Nat2Z.id, <- str_length_app.
    unfold T. rewrite <- str_app_assoc. apply drop_app_length.
Qed.

Section Edits.
Context `{PathOps}.

Lemma insert_text_at_position_ok w path l c x b i :
  server_started w = true →
  open_file_buffers w !! path_uri w path = Some b →
  TextUtils.get_index_from_line_col (contents b) l c = Some i →
  insert_text_at_position path l c x w =
    (Ok (updated_position l c x),
     with_sent (sent w ++ [edit_message (uri b) (version b + 1) (InsertText l c x)])
       (with_buffers
          (<[path_uri w path :=
               edited b (Py.slice (contents b) None (Some i) +:+ x
                         +:+ Py.slice (contents b) (Some i) None) 1]>
             (open_file_buffers w)) w)).
Proof.
  intros Hs Hb Hi.
  unfold insert_text_at_position, check_started, file_uri, get_buffer, bind, gets,
    path_uri in *.
  rewrite Hs. simpl. rewrite Hb. simpl. rewrite Hb. simpl. rewrite Hi.
  unfold updated_position.
  destruct (TextUtils.get_updated_position_from_line_and_column_and_edit l c x)
    as [new_l new_c].
  unfold ret, with_sent, with_buffers, edited. simpl.
  rewrite insert_insert_eq. reflexivity.
Qed.

Lemma delete_text_between_positions_ok w path st en b i j :
  server_started w = true →
  open_file_buffers w !! path_uri w path = Some b →
  TextUtils.get_index_from_line_col (contents b) (line st) (character st) = Some i →
  TextUtils.get_index_from_line_col (contents b) (line en) (character en) = Some j →
  delete_text_between_positions path st en w =
    (Ok (Py.slice (contents b) (Some i) (Some j)),
     with_sent (sent w ++ [edit_message (uri b) (version b + 1) (DeleteText st en)])
       (with_buffers
          (<[path_uri w path :=
               edited b (Py.slice (contents b) None (Some i)
                         +:+ Py.slice (contents b) (Some j) None) 1]>
             (open_file_buffers w)) w)).
Proof.
  intros Hs Hb Hi Hj.
  unfold delete_text_between_positions, check_started, file_uri, get_buffer, bind,
    gets, path_uri in *.
  rewrite Hs. simpl. rewrite Hb. simpl. rewrite Hb. simpl. rewrite Hi, Hj.
  unfold ret, with_sent, with_buffers, edited. simpl.
  rewrite insert_insert_eq. reflexivity.
Qed.

Lemma edited_edited b T1 T2 n m :
  edited (edited b T1 n) T2 m = edited b T2 (n + m).
Proof. unfold edited, set_contents, set_version. simpl. f_equal. lia. Qed.

Lemma edited_id b : edited b (contents b) 0 = b.
Proof. destruct b. unfold edited, set_contents, set_version. simpl. f_equal. lia. Qed.

(** One edit through the buffer manager is the edit of the string. *)
Lemma run_edit_ok w path e b T' :
  server_started w = true →
  open_file_buffers w !! path_uri w path = Some b →
  edit_string e (contents b) = Some T' →
  run_edit path e w =
    (Ok tt,
     with_sent (sent w ++ [edit_message (uri b) (version b + 1) e])
       (with_buffers (<[path_uri w path := edited b T' 1]> (open_file_buffers w)) w)).
Proof.
  intros Hs Hb He. destruct e as [l c x | st en]; simpl in He.
  - destruct (TextUtils.get_index_from_line_col (contents b) l c) as [i |] eqn:Hi;
      [| discriminate].
    simpl in He. injection He as <-. simpl.
    erewrite bind_ok by (eapply insert_text_at_position_ok; eassumption).
    reflexivity.
  - destruct (TextUtils.get_index_from_line_col (contents b) (line st) (character st))
      as [i |] eqn:Hi; [| discriminate].
    simpl in He.
    destruct (TextUtils.get_index_from_line_col (contents b) (line en) (character en))
      as [j |] eqn:Hj; [| discriminate].
    simpl in He. injection He as <-. simpl.
    erewrite bind_ok by (eapply delete_text_between_positions_ok; eassumption).
    reflexivity.
Qed.

Lemma run_edits_ok path es :
  ∀ w b T',
  server_started w = true →
  open_file_buffers w !! path_uri w path = Some b →
  edit_strings es (contents b) = Some T' →
  run_edits path es w =
    (Ok tt,
     with_sent (sent w ++ edit_messages (uri b) (version b) es)
       (with_buffers
          (<[path_uri w path := edited b T' (Z.of_nat (length es))]>
             (open_file_buffers w)) w)).
Proof.
  induction es as [| e es IH]; intros w b T' Hs Hb He; simpl in He.
  - injection He as <-. simpl. unfold ret. rewrite edited_id.
    rewrite insert_id by exact Hb. destruct w. unfold with_sent, with_buffers. simpl.
    rewrite app_nil_r. reflexivity.
  - destruct (edit_string e (contents b)) as [T1 |] eqn:He1; [| discriminate].
    simpl in He. cbn [run_edits].
    erewrite bind_ok by (eapply run_edit_ok; eassumption).
    erewrite IH; cycle 1.
    { exact Hs. }
    { unfold path_uri. simpl. apply lookup_insert_eq. }
    { exact He. }
    unfold with_sent, with_buffers, path_uri. simpl.
    rewrite insert_insert_eq, <- app_assoc, edited_edited. simpl.
    replace (1 + Z.of_nat (length es)) with (Z.pos (Pos.of_succ_nat (length es))) by lia.
    reflexivity.
Qed.
End Edits.

(** ** Offsets of positions *)

Lemma walk_0 T idx : TextUtils.walk T 0 idx = Some idx.
Proof. destruct T; reflexivity. Qed.

Lemma walk_app T R : ∀ n idx off,
  TextUtils.walk T n idx = Some off → TextUtils.walk (T +:+ R) n idx = Some off.
Proof.
  induction T as [| ch t IH]; intros n idx off Hw.
  - destruct n; simpl in Hw; [| discriminate]. rewrite walk_0. exact Hw.
  - destruct n as [| n]; [rewrite walk_0 in *; exact Hw |].
    rewrite str_app_cons. simpl in *. apply IH. exact Hw.
Qed.

Lemma walk_bounds T : ∀ n idx off,
  TextUtils.walk T n idx = Some off → idx ≤ off ≤ idx + Py.len T.
Proof.
  induction T as [| ch t IH]; intros n idx off Hw.
  - destruct n; simpl in Hw; [| discriminate]. injection Hw as <-. unfold Py.len. simpl. lia.
  - destruct n as [| n].
    + rewrite walk_0 in Hw. injection Hw as <-. pose proof (len_nonneg (String ch t)). lia.
    + simpl in Hw. apply IH in Hw. unfold Py.len in *. simpl String.length. lia.
Qed.

Lemma walk_take T : ∀ n idx off,
  TextUtils.walk T n idx = Some off →
  TextUtils.walk (Py.take (Z.to_nat (off - idx)) T) n idx = Some off.
Proof.
  induction T as [| ch t IH]; intros n idx off Hw.
  - destruct n; simpl in Hw; [| discriminate]. rewrite walk_0. exact Hw.
  - destruct n as [| n]; [rewrite walk_0 in *; exact Hw |].
    simpl in Hw. pose proof (walk_bounds _ _ _ _ Hw) as Hb.
    replace (Z.to_nat (off - idx)) with (S (Z.to_nat (off - (idx + 1)))) by lia.
    simpl. apply IH. exact Hw.
Qed.

Lemma walk_add T : ∀ n m idx,
  TextUtils.walk T (n + m) idx =
  match TextUtils.walk T n idx with
  | Some off => TextUtils.walk (Py.drop (Z.to_nat (off - idx)) T) m off
  | None => None
  end.
Proof.
  induction T as [| ch t IH]; intros n m idx.
  - destruct n as [| n]; simpl.
    + rewrite Z.sub_diag. reflexivity.
    + reflexivity.
  - destruct n as [| n].
    + rewrite walk_0, Z.sub_diag. reflexivity.
    + cbn [Nat.add TextUtils.walk].
      destruct (decide (ch = Py.NL)).
      * rewrite IH. destruct (TextUtils.walk t n (idx + 1)) as [off |] eqn:Hw; [| reflexivity].
        pose proof (walk_bounds _ _ _ _ Hw) as Hb.
        replace (Z.to_nat (off - idx)) with (S (Z.to_nat (off - (idx + 1)))) by lia.
        reflexivity.
      * change (S (n + m)) with (S n + m)%nat. rewrite IH.
        destruct (TextUtils.walk t (S n) (idx + 1)) as [off |] eqn:Hw; [| reflexivity].
        pose proof (walk_bounds _ _ _ _ Hw) as Hb.
        replace (Z.to_nat (off - idx)) with (S (Z.to_nat (off - (idx + 1)))) by lia.
        reflexivity.
Qed.

Lemma walk_skip M Y m : ∀ idx,
  Py.contains Py.NL M = false →
  TextUtils.walk (M +:+ Y) (S m) idx = TextUtils.walk Y (S m) (idx + Py.len M).
Proof.
  induction M as [| ch t IH]; intros idx Hc.
  - rewrite str_app_nil_l. unfold Py.len. simpl. rewrite Z.add_0_r. reflexivity.
  - simpl in Hc. destruct (decide (ch = Py.NL)); [discriminate |].
    rewrite str_app_cons. cbn [TextUtils.walk].
    destruct (decide (ch = Py.NL)); [contradiction |].
    rewrite IH by exact Hc. f_equal. unfold Py.len. simpl String.length. lia.
Qed.

(** Walking an inserted text: where its last line starts, and the cursor
    position the insert reports. *)
Lemma walk_inserted X : ∀ l c idx,
  ∃ p, TextUtils.walk X (newlines X) idx = Some (idx + p)
       ∧ 0 ≤ p ≤ Py.len X
       ∧ (newlines X = O → p = 0)
       ∧ TextUtils.get_updated_position_from_line_and_column_and_edit l c X =
           (l + Z.of_nat (newlines X),
            if decide (newlines X = O) then c + Py.len X else Py.len X - p).
Proof.
  induction X as [| ch t IH]; intros l c idx.
  - exists 0. simpl. unfold Py.len. simpl. rewrite !Z.add_0_r.
    repeat split; try lia; reflexivity.
  - cbn [newlines TextUtils.get_updated_position_from_line_and_column_and_edit].
    assert (Py.len (String ch t) = 1 + Py.len t) as Hl
      by (unfold Py.len; simpl String.length; lia).
    destruct (decide (ch = Py.NL)) as [-> | Hne].
    + destruct (IH (l + 1) 0 (idx + 1)) as (p & Hw & Hp & Hz & Hu).
      exists (1 + p). cbn [TextUtils.walk]. rewrite decide_True by reflexivity.
      rewrite Hw, Hu.
      destruct (decide (S (newlines t) = O)) as [Hd | _]; [discriminate |].
      repeat split; try lia; try discriminate.
      * f_equal. lia.
      * f_equal; [lia |]. case_decide as Hd; [rewrite (Hz Hd) |]; lia.
    + destruct (IH l (c + 1) (idx + 1)) as (p & Hw & Hp & Hz & Hu).
      rewrite Hu. destruct (newlines t) as [| k] eqn:Hk.
      * exists 0. rewrite walk_0, Z.add_0_r.
        repeat split; try lia. simpl. f_equal. lia.
      * exists (1 + p). cbn [TextUtils.walk]. rewrite decide_False by exact Hne.
        rewrite Hw. repeat split; try lia; try discriminate.
        -- f_equal. lia.
        -- simpl. f_equal. lia.
Qed.

Lemma take_add n m s : Py.take (n + m) s = Py.take n s +:+ Py.take m (Py.drop n s).
Proof.
  revert s. induction n as [| n IH]; intros s; [reflexivity |].
  destruct s as [| ch s]; simpl.
  - destruct m; reflexivity.
  - rewrite str_app_cons, IH. reflexivity.
Qed.

Lemma drop_length n s :
  String.length (Py.drop n s) = (String.length s - n)%nat.
Proof.
  revert s. induction n as [| n IH]; intros [| ch s]; simpl; try lia. apply IH.
Qed.

(** In a text that has the position (l, c), an insert at (l, c) puts the
    inserted text between (l, c) and the position the insert returns. *)
Lemma insert_range_covers T l c X i :
  position_in T l c →
  TextUtils.get_index_from_line_col T l c = Some i →
  let T1 := Py.slice T None (Some i) +:+ X +:+ Py.slice T (Some i) None in
  let p := updated_position l c X in
  Py.clamp (Py.len T) i = i
  ∧ TextUtils.get_index_from_line_col T1 l c = Some i
  ∧ TextUtils.get_index_from_line_col T1 (line p) (character p) = Some (i + Py.len X).
Proof.
  intros (Hl & Hc & off & Hw & Hlen & Hnl) Hi T1 p.
  unfold TextUtils.get_index_from_line_col in Hi. rewrite Hw in Hi.
  simpl in Hi. injection Hi as <-.
  pose proof (walk_bounds _ _ _ _ Hw) as Hoff.
  assert (Py.clamp (Py.len T) (off + c) = off + c) as Hcl by (apply clamp_id; lia).
  split; [exact Hcl |].
  set (P := Py.take (Z.to_nat off) T).
  set (M := Py.take (Z.to_nat c) (Py.drop (Z.to_nat off) T)).
  set (B := Py.drop (Z.to_nat (off + c)) T).
  assert (Py.slice T (Some off) (Some (off + c)) = M) as HM.
  { unfold Py.slice. rewrite !clamp_id by lia.
    replace (off + c - off) with c by lia. reflexivity. }
  rewrite HM in Hnl.
  assert (T1 = P +:+ M +:+ X +:+ B) as HT1.
  { unfold T1. rewrite slice_to, slice_from, Hcl.
    replace (Z.to_nat (off + c)) with (Z.to_nat off + Z.to_nat c)%nat by lia.
    rewrite take_add, str_app_assoc.
    replace (Z.to_nat off + Z.to_nat c)%nat with (Z.to_nat (off + c)) by lia.
    reflexivity. }
  assert (String.length P = Z.to_nat off) as HlenP.
  { unfold P. rewrite take_length. unfold Py.len in *. lia. }
  assert (Py.len M = c) as HlenM.
  { unfold M, Py.len. rewrite take_length, drop_length. unfold Py.len in *. lia. }
  assert (TextUtils.walk T1 (Z.to_nat l) 0 = Some off) as Hw1.
  { rewrite HT1. apply walk_app. unfold P.
    replace (Z.to_nat off) with (Z.to_nat (off - 0)) by lia.
    apply walk_take. exact Hw. }
  split.
  { unfold TextUtils.get_index_from_line_col. rewrite Hw1. reflexivity. }
  destruct (walk_inserted X l c (off + c)) as (q & Hwx & Hq & Hz & Hu).
  unfold p, updated_position. rewrite Hu. simpl.
  unfold TextUtils.get_index_from_line_col.
  destruct (newlines X) as [| m] eqn:Hn.
  - simpl. rewrite Z.add_0_r, Hw1. simpl. f_equal. lia.
  - replace (Z.to_nat (l + Z.of_nat (S m))) with (Z.to_nat l + S m)%nat by lia.
    rewrite walk_add, Hw1. rewrite Z.sub_0_r, HT1, <- HlenP, drop_app_length.
    rewrite walk_skip by exact Hnl. rewrite HlenM.
    erewrite walk_app by exact Hwx. simpl. f_equal. lia.
Qed.

Section RoundTrip.
Context `{PathOps}.

Lemma insert_then_delete w path b l c X st en i :
  server_started w = true →
  open_file_buffers w !! path_uri w path = Some b →
  TextUtils.get_index_from_line_col (contents b) l c = Some i →
  let T := contents b in
  let T1 := Py.slice T None (Some i) +:+ X +:+ Py.slice T (Some i) None in
  let k := Py.clamp (Py.len T) i in
  TextUtils.get_index_from_line_col T1 (line st) (character st) = Some k →
  TextUtils.get_index_from_line_col T1 (line en) (character en) = Some (k + Py.len X) →
  (let* p := insert_text_at_position path l c X in
   let* d := delete_text_between_positions path st en in
   ret (p, d)) w =
    (Ok (updated_position l c X, X),
     with_sent
       (sent w ++ edit_messages (uri b) (version b) [InsertText l c X; DeleteText st en])
       (with_buffers (<[path_uri w path := edited b T 2]> (open_file_buffers w)) w)).
Proof.
  intros Hs Hb Hi T T1 k Hst Hen.
  erewrite bind_ok by (eapply insert_text_at_position_ok; eassumption).
  fold T T1.
  erewrite bind_ok; cycle 1.
  { eapply delete_text_between_positions_ok.
    - exact Hs.
    - unfold path_uri. simpl. apply lookup_insert_eq.
    - simpl. exact Hst.
    - simpl. exact Hen. }
  pose proof (clamp_range (Py.len T) i (len_nonneg T)) as Hk. fold k in Hk.
  set (A := Py.take (Z.to_nat k) T).
  set (B := Py.drop (Z.to_nat k) T).
  assert (Py.len A = k) as HlenA.
  { unfold A, Py.len. rewrite take_length. unfold Py.len in *. lia. }
  assert (T1 = A +:+ X +:+ B) as HT1.
  { unfold T1. rewrite slice_to, slice_from. reflexivity. }
  destruct (slice_splice A X B) as (E1 & E2 & E3).
  rewrite HlenA, <- HT1 in E1, E2, E3.
  unfold ret, with_sent, with_buffers, path_uri. simpl.
  rewrite E1, E2, E3. unfold A, B. rewrite take_drop.
  rewrite insert_insert_eq, <- app_assoc, edited_edited. reflexivity.
Qed.

End RoundTrip.

Section EditsAgree.
Context `{PathOps}.

Lemma run_edit_fail w path e b :
  server_started w = true →
  open_file_buffers w !! path_uri w path = Some b →
  edit_string e (contents b) = None →
  ∃ w', run_edit path e w = (Raise AssertionError, w').
Proof.
  intros Hs Hb He. destruct e as [l c x | st en]; simpl in He.
  - destruct (TextUtils.get_index_from_line_col (contents b) l c) as [i |] eqn:Hi;
      [discriminate |].
    eexists. simpl. eapply bind_raise.
    unfold insert_text_at_position, check_started, file_uri, get_buffer, bind, gets,
      path_uri in *.
    rewrite Hs. simpl. rewrite Hb. simpl. rewrite Hb. simpl. rewrite Hi. reflexivity.
  - eexists. simpl. eapply bind_raise.
    unfold delete_text_between_positions, check_started, file_uri, get_buffer, bind,
      gets, path_uri in *.
    rewrite Hs. simpl. rewrite Hb. simpl. rewrite Hb. simpl.
    destruct (TextUtils.get_index_from_line_col (contents b) (line st) (character st))
      as [i |] eqn:Hi; [| reflexivity].
    simpl in He.
    destruct (TextUtils.get_index_from_line_col (contents b) (line en) (character en))
      as [j |] eqn:Hj; [discriminate | reflexivity].
Qed.

Lemma run_edits_fail path es :
  ∀ w b,
  server_started w = true →
  open_file_buffers w !! path_uri w path = Some b →
  edit_strings es (contents b) = None →
  ∃ w', run_edits path es w = (Raise AssertionError, w').
Proof.
  induction es as [| e es IH]; intros w b Hs Hb He; simpl in He; [discriminate |].
  destruct (edit_string e (contents b)) as [T1 |] eqn:He1; simpl in He.
  - cbn [run_edits]. erewrite bind_ok by (eapply run_edit_ok; eassumption).
    eapply IH.
    + exact Hs.
    + unfold path_uri. simpl. apply lookup_insert_eq.
    + exact He.
  - destruct (run_edit_fail w path e b Hs Hb He1) as [w' Hr].
    exists w'. cbn [run_edits]. eapply bind_raise. exact Hr.
Qed.

(** C9.  Edits through the buffer manager agree with edits of a plain
    string.  For an open buffer with contents [T]: a sequence of edits
    run through [insert_text_at_position] and
    [delete_text_between_positions] succeeds exactly when the same
    edits succeed on the string [T], leaves the buffer with the
    contents the string edits produce, raises its version by one per
    edit and announces each edit with its version; inserting [X] and
    then deleting a range whose two ends are the offsets of the ends of
    [X] restores [T], returns [X] and raises the version by 2; and for
    an insert at a position the text has, the range from that position
    to the position the insert returns is such a range. *)
Theorem edits_agree_with_string_edits path w b :
  server_started w = true →
  open_file_buffers w !! path_uri w path = Some b →
  let u := path_uri w path in
  let T := contents b in
  (∀ es T', edit_strings es T = Some T' →
     run_edits path es w =
       (Ok tt,
        with_sent (sent w ++ edit_messages (uri b) (version b) es)
          (with_buffers
             (<[u := edited b T' (Z.of_nat (length es))]> (open_file_buffers w)) w)))
  ∧ (∀ es, edit_strings es T = None →
       ∃ w', run_edits path es w = (Raise AssertionError, w'))
  ∧ (∀ l c X st en i,
       TextUtils.get_index_from_line_col T l c = Some i →
       let T1 := Py.slice T None (Some i) +:+ X +:+ Py.slice T (Some i) None in
       let k := Py.clamp (Py.len T) i in
       TextUtils.get_index_from_line_col T1 (line st) (character st) = Some k →
       TextUtils.get_index_from_line_col T1 (line en) (character en)
         = Some (k + Py.len X) →
       (let* p := insert_text_at_position path l c X in
        let* d := delete_text_between_positions path st en in
        ret (p, d)) w =
         (Ok (updated_position l c X, X),
          with_sent
            (sent w
             ++ edit_messages (uri b) (version b) [InsertText l c X; DeleteText st en])
            (with_buffers (<[u := edited b T 2]> (open_file_buffers w)) w)))
  ∧ (∀ l c X,
       position_in T l c →
       (let* p := insert_text_at_position path l c X in
        let* d := delete_text_between_positions path (mkPosition l c) p in
        ret (p, d)) w =
         (Ok (updated_position l c X, X),
          with_sent
            (sent w
             ++ edit_messages (uri b) (version b)
                  [InsertText l c X;
                   DeleteText (mkPosition l c) (updated_position l c X)])
            (with_buffers (<[u := edited b T 2]> (open_file_buffers w)) w))).
Proof.
  intros Hs Hb u T. split; [| split; [| split]].
  - intros es T' He. apply run_edits_ok; assumption.
  - intros es He. eapply run_edits_fail; eassumption.
  - intros l c X st en i Hi T1 k Hst Hen.
    apply (insert_then_delete w path b l c X st en i); assumption.
  - intros l c X Hpos. subst u T.
    assert (∃ i, TextUtils.get_index_from_line_col (contents b) l c = Some i) as [i Hi].
    { destruct Hpos as (_ & _ & off & Hw & _).
      unfold TextUtils.get_index_from_line_col. rewrite Hw. eauto. }
    destruct (insert_range_covers (contents b) l c X i Hpos Hi) as (Hcl & Hst & Hen).
    pose proof (insert_then_delete w path b l c X (mkPosition l c)
                  (updated_position l c X) i Hs Hb Hi) as Hrt.
    cbv zeta in Hrt. rewrite Hcl in Hrt.
    etrans; [| exact (Hrt Hst Hen)].
    unfold bind.
    rewrite (insert_text_at_position_ok w path l c X b i Hs Hb Hi). reflexivity.
Qed.

End EditsAgree.

(** The edit round trip of the specification on ["hello\nworld"]:
    insert ["X"] at (1, 0), delete (1, 0)-(1, 1). *)
Lemma edits_agree_with_string_edits_witness :
  server_started Scenario.w_open = true
  ∧ open_file_buffers Scenario.w_open !! Scenario.a_py = Some Scenario.b_hello
  ∧ @run_edits Posix.ops "a.py" Scenario.round_trip Scenario.w_open =
      (Ok tt,
       with_sent
         (sent Scenario.w_open
          ++ [DidChange 1 Scenario.a_py
                (mkRange (mkPosition 1 0) (mkPosition 1 0)) "X";
              DidChange 2 Scenario.a_py
                (mkRange (mkPosition 1 0) (mkPosition 1 1)) ""])
         (with_buffers
            (<[Scenario.a_py := edited Scenario.b_hello Scenario.hello 2]>
               (open_file_buffers Scenario.w_open))
            Scenario.w_open))
  ∧ ((let* p := @insert_text_at_position Posix.ops "a.py" 1 0 "X" in
      let* d := @delete_text_between_positions Posix.ops "a.py" (mkPosition 1 0) p in
      ret (p, d)) Scenario.w_open).1 = Ok (mkPosition 1 1, "X").
Proof.
  assert (server_started Scenario.w_open = true) as Hs by reflexivity.
  assert (open_file_buffers Scenario.w_open
            !! @path_uri Posix.ops Scenario.w_open "a.py" = Some Scenario.b_hello)
    as Hb by (vm_compute; reflexivity).
  destruct (@edits_agree_with_string_edits Posix.ops "a.py" Scenario.w_open
              Scenario.b_hello Hs Hb) as (HA & _ & _ & HB).
  split; [exact Hs |]. split; [exact Hb |]. split.
  - apply (HA Scenario.round_trip Scenario.hello). vm_compute. reflexivity.
  - rewrite (HB 1 0 "X"); [reflexivity |].
    split; [lia |]. split; [lia |]. exists 6. vm_compute. repeat split; discriminate.
Defined.

(** ** The content hash *)

(** Neither editing method touches [content_hash]: after any sequence of
    edits the buffer still carries the digest it was constructed with. *)
Lemma edits_keep_content_hash b T' n :
  content_hash (edited b T' n) = content_hash b.
Proof. reflexivity. Qed.

Lemma new_buffer_hash u c v lang rc :
  content_hash (new_LSPFileBuffer u c v lang rc) = MD5.hexdigest c.
Proof. reflexivity. Qed.

(** C1.  The content hash after an edit.  With [a.py] holding
    ["hello\nworld"] opened and ["X"] inserted at (1, 0), the buffer
    holds ["hello\nXworld"] while [content_hash] is still the digest of
    ["hello\nworld"], which is not the digest of the buffer's contents:
    [insert_text_at_position] does not recompute it. *)
Theorem content_hash_stale_after_edit :
  Scenario.after_insert.1 = Ok (mkPosition 1 1)
  ∧ ∃ b, open_file_buffers Scenario.after_insert.2 !! Scenario.a_py = Some b
         ∧ contents b = "hello" +:+ Py.nl +:+ "Xworld"
         ∧ content_hash b = MD5.hexdigest Scenario.hello
         ∧ content_hash b ≠ MD5.hexdigest (contents b).
Proof.
  split; [vm_compute; reflexivity |].
  eexists. split; [vm_compute; reflexivity |].
  split; [vm_compute; reflexivity |].
  split; [vm_compute; reflexivity |].
  vm_compute. discriminate.
Qed.

(** ** The cache-dirty flag *)

Section CacheFlag.
Context `{PathOps}.

(** [request_document_symbols] is the one place that stores into the
    cache, and it sets the flag to [True] there. *)
Lemma save_cache_clean w :
  cache_has_changed w = PyBool false → save_cache w = (Ok tt, w).
Proof. intros Hf. unfold save_cache, bind, gets. rewrite Hf. reflexivity. Qed.

(** C2.  The cache-dirty flag at construction.  [__init__] leaves the
    class [bool] in [_cache_has_changed], not [False]; the class is
    truthy, so [save_cache], and with it [stop], writes the cache file
    for a session that never touched the cache; in a repository without
    a cache file this creates one holding the empty cache. *)
Theorem cache_flag_is_truthy_at_construction root lang fs cf srv :
  let w := init root lang fs cf srv in
  cache_has_changed w = PyTypeBool
  ∧ cache_has_changed w ≠ PyBool false
  ∧ document_symbols_cache w = default ∅ cf
  ∧ save_cache w = (Ok tt, with_cache_file (Some (document_symbols_cache w)) w)
  ∧ cache_file ((let* _ := start_server_enter in stop) w).2
      = Some (document_symbols_cache w)
  ∧ cache_file (save_cache (init root lang fs None srv)).2 = Some ∅.
Proof.
  intros w. unfold w, init, load_cache, bind, gets. simpl.
  destruct cf as [c |]; simpl; repeat split; discriminate.
Qed.

End CacheFlag.

(** ** Completions *)

Section Completions.
Context `{PathOps} `{SetOrder}.

Lemma with_sent_with_sent l l' w : with_sent l (with_sent l' w) = with_sent l w.
Proof. reflexivity. Qed.

Lemma with_sent_same w : with_sent (sent w) w = w.
Proof. destruct w. reflexivity. Qed.

(** Opening a file that can be opened succeeds and leaves its buffer in
    the table. *)
Lemma open_file_enter_ok w path :
  server_started w = true → buffers_ok w → openable w path →
  ∃ b0 pre,
    open_file_enter path w =
      (Ok (path_uri w path),
       with_sent (sent w ++ pre)
         (with_buffers (<[path_uri w path := b0]> (open_file_buffers w)) w))
    ∧ uri b0 = path_uri w path ∧ 1 ≤ ref_count b0.
Proof.
  intros Hs Hok Hop.
  destruct (open_file_buffers w !! path_uri w path) as [b |] eqn:Hb.
  - destruct (Hok _ _ Hb) as [Hu Hr].
    exists (set_ref_count (ref_count b + 1) b), [].
    rewrite (open_file_enter_nested w path b Hs Hb Hu Hr).
    split; [| split; [exact Hu | simpl; lia]].
    f_equal. destruct w. unfold with_sent, with_buffers. simpl.
    rewrite app_nil_r. reflexivity.
  - destruct Hop as [[b Hb'] | [contents Hf]].
    { unfold path_uri in Hb. rewrite Hb in Hb'. discriminate. }
    exists (new_LSPFileBuffer (path_uri w path) contents 0 (ls_language_id w) 1),
      [DidOpen (path_uri w path) (ls_language_id w) 0 contents].
    rewrite (open_file_enter_first w path contents Hs Hb Hf).
    split; [reflexivity | split; [reflexivity | simpl; lia]].
Qed.

Lemma replicate_snoc {A} (n : nat) (x : A) : replicate (S n) x = replicate n x ++ [x].
Proof. induction n as [| n IH]; [reflexivity |]. simpl in *. rewrite <- IH. reflexivity. Qed.

Lemma completion_loop_stop fuel u pos resp num w :
  keep_asking resp num = false →
  completion_loop fuel u pos resp num w = (Ok resp, w).
Proof. intros Hk. destruct fuel; cbn [completion_loop]; rewrite Hk; reflexivity. Qed.

Lemma completion_loop_step fuel u pos resp num w :
  keep_asking resp num = true →
  completion_loop (S fuel) u pos resp num w =
    completion_loop fuel u pos
      (as_completion_list
         (on_completion (server w) (sent w ++ [ReqCompletion u pos])))
      (num + 1) (with_sent (sent w ++ [ReqCompletion u pos]) w).
Proof. intros Hk. cbn [completion_loop]. rewrite Hk. reflexivity. Qed.

(** The retry loop from its [j]-th request on. *)
Lemma completion_loop_steps srv u pos base :
  never_none srv →
  let req := ReqCompletion u pos in
  let answer i := as_completion_list (on_completion srv (base ++ replicate i req)) in
  ∀ m j fuel w,
    (j + m = 30)%nat → (1 ≤ j)%nat → (m ≤ fuel)%nat →
    server w = srv → sent w = base ++ replicate j req →
    ∃ n, (j ≤ n ≤ 30)%nat
         ∧ completion_loop fuel u pos (answer j) (Z.of_nat j) w =
             (Ok (answer n), with_sent (base ++ replicate n req) w)
         ∧ (∀ i, (j ≤ i < n)%nat → incomplete (answer i) = true)
         ∧ (incomplete (answer n) = false ∨ n = 30%nat).
Proof.
  intros Hnn req answer.
  assert (∀ i, ∃ inc items, answer i = Some (inc, items)) as Hsome.
  { intros i. unfold answer.
    destruct (on_completion srv (base ++ replicate i req)) eqn:E; simpl; eauto.
    exfalso. exact (Hnn _ E). }
  induction m as [| m IH]; intros j fuel w Hj H1 Hfuel Hsrv Hsent.
  - exists j. split; [lia |]. split; [| split; [intros; lia | right; lia]].
    rewrite completion_loop_stop.
    + rewrite <- Hsent, with_sent_same. reflexivity.
    + destruct (Hsome j) as (inc & items & ->). simpl.
      replace (Z.of_nat j <? 30) with false by (symmetry; apply Z.ltb_ge; lia).
      apply andb_false_r.
  - destruct (Hsome j) as (inc & items & Ha). destruct inc.
    + destruct fuel as [| fuel]; [lia |].
      set (w1 := with_sent (sent w ++ [req]) w).
      assert (sent w ++ [req] = base ++ replicate (S j) req) as Hsent1
        by (rewrite Hsent, <- app_assoc, <- replicate_snoc; reflexivity).
      destruct (IH (S j) fuel w1) as (n & Hn & Hrun & Hinc & Hlast); try lia.
      { exact Hsrv. }
      { exact Hsent1. }
      exists n. split; [lia |]. split; [| split; [| exact Hlast]].
      * rewrite completion_loop_step; cycle 1.
        { rewrite Ha. simpl. apply Z.ltb_lt. lia. }
        fold req w1. rewrite Hsrv, Hsent1. fold (answer (S j)).
        replace (Z.of_nat j + 1) with (Z.of_nat (S j)) by lia.
        rewrite Hrun. reflexivity.
      * intros i Hi. destruct (decide (i = j)) as [-> | Hne].
        -- rewrite Ha. reflexivity.
        -- apply Hinc. lia.
    + exists j. split; [lia |].
      split; [| split; [intros; lia | left; rewrite Ha; reflexivity]].
      rewrite completion_loop_stop by (rewrite Ha; reflexivity).
      rewrite <- Hsent, with_sent_same. reflexivity.
Qed.

(** The retry loop from the start. *)
Lemma completion_loop_spec fuel u pos w :
  never_none (server w) → (30 ≤ fuel)%nat →
  let req := ReqCompletion u pos in
  let answer i :=
    as_completion_list (on_completion (server w) (sent w ++ replicate i req)) in
  ∃ n, (1 ≤ n ≤ 30)%nat
       ∧ completion_loop fuel u pos None 0 w =
           (Ok (answer n), with_sent (sent w ++ replicate n req) w)
       ∧ (∀ i, (1 ≤ i < n)%nat → incomplete (answer i) = true)
       ∧ (incomplete (answer n) = false ∨ n = 30%nat).
Proof.
  intros Hnn Hfuel req answer.
  destruct fuel as [| fuel]; [lia |].
  set (w1 := with_sent (sent w ++ [req]) w).
  destruct (completion_loop_steps (server w) u pos (sent w) Hnn 29 1 fuel w1)
    as (n & Hn & Hrun & Hinc & Hlast); try lia; try reflexivity.
  exists n. split; [lia |]. split; [| split; assumption].
  rewrite completion_loop_step by reflexivity.
  fold req w1. change (sent w ++ [req]) with (sent w ++ replicate 1 req).
  change (0 + 1) with (Z.of_nat 1). fold (answer 1%nat).
  exact Hrun.
Qed.

Lemma filterE_fuel {A} (f : A → Res bool) l :
  (∀ x, f x ≠ OutOfFuel) → filterE f l ≠ OutOfFuel.
Proof.
  intros Hf. induction l as [| x l IH]; simpl; [discriminate |].
  pose proof (Hf x). destruct (f x); simpl; try done.
  destruct (filterE f l); simpl; done.
Qed.

Lemma mapE_fuel {A B} (f : A → Res B) l :
  (∀ x, f x ≠ OutOfFuel) → mapE f l ≠ OutOfFuel.
Proof.
  intros Hf. induction l as [| x l IH]; simpl; [discriminate |].
  pose proof (Hf x). destruct (f x); simpl; try done.
  destruct (mapE f l); simpl; done.
Qed.

Lemma completion_item_of_fuel pos it : completion_item_of pos it ≠ OutOfFuel.
Proof.
  unfold completion_item_of, Pure.assert, Pure.key.
  destruct (bool_decide _ || bool_decide _); simpl; [| discriminate].
  destruct (bool_decide (is_Some (ci_kind it))); simpl; [| discriminate].
  destruct (ci_kind it); simpl; [| discriminate].
  destruct (ci_label it); [discriminate |].
  destruct (ci_insertText it); [discriminate |].
  destruct (ci_textEdit it) as [te |]; [| discriminate].
  destruct (te_newText te); [discriminate |].
  destruct (te_range te); [| discriminate].
  destruct (_ && _); simpl; discriminate.
Qed.

Lemma without_keywords_fuel items : without_keywords items ≠ OutOfFuel.
Proof.
  apply filterE_fuel. intros it. unfold Pure.key.
  destruct (ci_kind it); simpl; discriminate.
Qed.

(** What [request_completions] does with the response the loop ends on. *)
Lemma completions_finish pos allow inc items w :
  ∃ rb,
    (if inc && negb allow then ret [] else
       let* items := lift (without_keywords items) in
       let* completions_list := lift (mapE (completion_item_of pos) items) in
       ret (set_list completions_list)) w = (rb, w)
    ∧ rb ≠ OutOfFuel
    ∧ (inc = true → allow = false → rb = Ok []).
Proof.
  destruct (inc && negb allow) eqn:E.
  - exists (Ok []). repeat split; discriminate.
  - pose proof (without_keywords_fuel items) as Hw.
    unfold bind, lift, ret.
    destruct (without_keywords items) as [its | e |]; [| | done].
    + pose proof (mapE_fuel (completion_item_of pos) its (completion_item_of_fuel pos)) as Hm.
      destruct (mapE (completion_item_of pos) its) as [cl | e |]; [| | done].
      * eexists. split; [reflexivity |]. split; [discriminate |].
        intros -> ->. discriminate.
      * eexists. split; [reflexivity |]. split; [discriminate |].
        intros -> ->. discriminate.
    + eexists. split; [reflexivity |]. split; [discriminate |].
      intros -> ->. discriminate.
Qed.

(** Leaving a scope whose buffer is in the table succeeds and writes at
    most a [didClose]. *)
Lemma open_file_exit_ok w u b :
  open_file_buffers w !! u = Some b →
  ∃ w' tail, open_file_exit u w = (Ok tt, w')
             ∧ sent w' = sent w ++ tail ∧ (tail = [] ∨ tail = [DidClose u]).
Proof.
  intros Hb. destruct (decide (ref_count b = 1)) as [Hr | Hr].
  - rewrite (open_file_exit_last w u b Hb Hr). eexists _, [DidClose u].
    split; [reflexivity |]. split; [reflexivity | right; reflexivity].
  - rewrite (open_file_exit_inner w u b Hb Hr). eexists _, [].
    split; [reflexivity |]. split; [simpl; rewrite app_nil_r; reflexivity | left; reflexivity].
Qed.

(** C3 as the code has it.  When the server never answers [None] and
    the model is given fuel for 30 iterations, [request_completions]
    writes the completion request [n] times with [1 ≤ n ≤ 30]; each
    request but the last was answered with [isIncomplete = true], and
    the last answer is complete unless [n = 30], whatever
    [allow_incomplete] is; if the last answer is still incomplete and
    [allow_incomplete] is false, the result is the empty list. *)
Theorem completions_retry_bound fuel path l c allow w :
  (30 ≤ fuel)%nat → server_started w = true → buffers_ok w →
  openable w path → never_none (server w) →
  let u := path_uri w path in
  let req := ReqCompletion u (mkPosition l c) in
  ∃ w0 n,
    open_file_enter path w = (Ok u, w0)
    ∧ (1 ≤ n ≤ 30)%nat
    ∧ let answer i :=
        as_completion_list (on_completion (server w) (sent w0 ++ replicate i req)) in
      (∀ i, (1 ≤ i < n)%nat → incomplete (answer i) = true)
      ∧ (incomplete (answer n) = false ∨ n = 30%nat)
      ∧ ∃ r w' tail,
          request_completions fuel path l c allow w = (r, w')
          ∧ r ≠ OutOfFuel
          ∧ sent w' = sent w0 ++ replicate n req ++ tail
          ∧ (tail = [] ∨ tail = [DidClose u])
          ∧ (incomplete (answer n) = true → allow = false → r = Ok []).
Proof.
  intros Hfuel Hs Hok Hop Hnn u req.
  destruct (open_file_enter_ok w path Hs Hok Hop) as (b0 & pre & Henter & Hu & Hr).
  fold u in Henter, Hu.
  set (w0 := with_sent (sent w ++ pre)
               (with_buffers (<[u := b0]> (open_file_buffers w)) w)) in *.
  assert (open_file_buffers w0 !! u = Some b0) as Hb0 by apply lookup_insert_eq.
  destruct (completion_loop_spec fuel u (mkPosition l c) w0 Hnn Hfuel)
    as (n & Hn & Hloop & Hinc & Hlast).
  fold req in Hloop, Hinc, Hlast.
  exists w0, n. split; [exact Henter |]. split; [exact Hn |].
  change (server w0) with (server w) in *.
  split; [exact Hinc |]. split; [exact Hlast |].
  set (wl := with_sent (sent w0 ++ replicate n req) w0) in *.
  assert (∃ inc items,
            as_completion_list (on_completion (server w) (sent w0 ++ replicate n req))
            = Some (inc, items)) as (inc & items & Ha).
  { destruct (on_completion (server w) (sent w0 ++ replicate n req)) eqn:E;
      simpl; eauto.
    exfalso. exact (Hnn _ E). }
  destruct (completions_finish (mkPosition l c) allow inc items wl)
    as (rb & Hfin & Hrb & Hempty).
  unfold request_completions, with_open_file.
  rewrite (bind_ok _ _ _ _ _ Henter).
  assert (get_buffer u w0 = (Ok b0, w0)) as Hget.
  { unfold get_buffer, bind, gets, key. rewrite Hb0. reflexivity. }
  destruct rb as [items' | e |]; [| | done].
  - destruct (open_file_exit_ok wl u b0 Hb0) as (w' & tail & Hexit & Hsent & Htail).
    exists (Ok items'), w', tail.
    split; [| split; [discriminate | split; [| split; [exact Htail |]]]].
    + erewrite bind_ok; cycle 1.
      { rewrite (bind_ok _ _ _ _ _ Hget). rewrite Hu.
        rewrite (bind_ok _ _ _ _ _ Hloop). rewrite Ha. exact Hfin. }
      rewrite (bind_ok _ _ _ _ _ Hexit). reflexivity.
    + rewrite Hsent. unfold wl. simpl. rewrite <- app_assoc. reflexivity.
    + rewrite Ha. simpl. exact Hempty.
  - exists (Raise e), wl, [].
    split; [| split; [discriminate | split; [| split; [left; reflexivity |]]]].
    + erewrite bind_raise; [reflexivity |].
      rewrite (bind_ok _ _ _ _ _ Hget). rewrite Hu.
      rewrite (bind_ok _ _ _ _ _ Hloop). rewrite Ha. exact Hfin.
    + unfold wl. simpl. rewrite app_nil_r. reflexivity.
    + rewrite Ha. simpl. exact Hempty.
Qed.

Lemma filterE_elem {A} (f : A → Res bool) l l' x :
  filterE f l = Ok l' → x ∈ l' → x ∈ l ∧ f x = Ok true.
Proof.
  revert l'. induction l as [| y l IH]; intros l' Hf Hx; simpl in Hf.
  - injection Hf as <-. inversion Hx.
  - destruct (f y) as [keep | |] eqn:Hy; simpl in Hf; try discriminate.
    destruct (filterE f l) as [rest | |]; simpl in Hf; try discriminate.
    injection Hf as <-. destruct keep.
    + apply elem_of_cons in Hx as [-> | Hx].
      * split; [left | exact Hy].
      * destruct (IH rest eq_refl Hx). split; [right |]; assumption.
    + destruct (IH rest eq_refl Hx). split; [right |]; assumption.
Qed.

Lemma mapE_elem {A B} (f : A → Res B) l l' y :
  mapE f l = Ok l' → y ∈ l' → ∃ x, x ∈ l ∧ f x = Ok y.
Proof.
  revert l'. induction l as [| x l IH]; intros l' Hf Hy; simpl in Hf.
  - injection Hf as <-. inversion Hy.
  - destruct (f x) as [y0 | |] eqn:Hx; simpl in Hf; try discriminate.
    destruct (mapE f l) as [rest | |]; simpl in Hf; try discriminate.
    injection Hf as <-. apply elem_of_cons in Hy as [-> | Hy].
    + exists x. split; [left | exact Hx].
    + destruct (IH rest eq_refl Hy) as (x' & Hin & Hfx).
      exists x'. split; [right |]; assumption.
Qed.

Lemma completion_item_of_kind pos it ci :
  completion_item_of pos it = Ok ci → ci_kind it = Some (c_kind ci).
Proof.
  unfold completion_item_of, Pure.assert, Pure.key.
  destruct (bool_decide _ || bool_decide _); simpl; [| discriminate].
  destruct (bool_decide (is_Some (ci_kind it))); simpl; [| discriminate].
  destruct (ci_kind it) as [k |]; simpl; [| discriminate].
  destruct (ci_label it); [intros [= <-]; reflexivity |].
  destruct (ci_insertText it); [intros [= <-]; reflexivity |].
  destruct (ci_textEdit it) as [te |]; [| discriminate].
  destruct (te_newText te); [intros [= <-]; reflexivity |].
  destruct (te_range te); [| discriminate].
  destruct (_ && _); simpl; discriminate.
Qed.

Lemma lift_bind_inv {A B} (r : Res A) (f : A → M B) w b w' :
  bind (lift r) f w = (Ok b, w') → ∃ a, r = Ok a ∧ f a w = (Ok b, w').
Proof.
  unfold bind, lift. destruct r as [a | |]; intros E; try discriminate. eauto.
Qed.

(** C10.  No keyword among the completions.  Whatever
    [request_completions] returns holds no item whose kind is Keyword:
    the items of the response with that kind are dropped before the
    others are turned into [CompletionItem]s, which keep the kind of
    the item they come from. *)
Theorem completions_without_keywords fuel path l c allow w items w' :
  request_completions fuel path l c allow w = (Ok items, w') →
  ∀ it, it ∈ items → c_kind it ≠ CompletionItemKind.Keyword.
Proof.
  intros Hrun it Hit.
  unfold request_completions, with_open_file in Hrun.
  apply bind_inv_ok in Hrun as (u & w0 & _ & Hrun).
  apply bind_inv_ok in Hrun as (r & w1 & Hbody & Hrun).
  apply bind_inv_ok in Hrun as (? & w2 & _ & Hret).
  injection Hret as -> _.
  apply bind_inv_ok in Hbody as (b & w3 & _ & Hbody).
  apply bind_inv_ok in Hbody as (resp & w4 & _ & Hbody).
  destruct resp as [[inc response] |].
  - destruct (inc && negb allow).
    + injection Hbody as <- _. inversion Hit.
    + apply lift_bind_inv in Hbody as (its & Hfilter & Hbody).
      apply lift_bind_inv in Hbody as (cl & Hmap & Hbody).
      injection Hbody as <- _.
      apply (proj1 (set_list_elem _ _)) in Hit.
      destruct (mapE_elem _ _ _ _ Hmap Hit) as (lsp & Hx & Hci).
      destruct (filterE_elem _ _ _ _ Hfilter Hx) as (_ & Hkeep).
      apply completion_item_of_kind in Hci. rewrite Hci in Hkeep.
      simpl in Hkeep. injection Hkeep as Hkeep.
      apply negb_true_iff, bool_decide_eq_false in Hkeep. exact Hkeep.
  - injection Hbody as <- _. inversion Hit.
Qed.

End Completions.

(** The completion scenario of the specification: the server answers
    [isIncomplete = true] four times, then [false]. *)
Lemma completions_retry_bound_witness :
  server_started Scenario.w_fifth = true
  ∧ never_none (server Scenario.w_fifth)
  ∧ ∃ w0 n r w' tail,
      (1 ≤ n ≤ 30)%nat
      ∧ @request_completions Posix.ops Scenario.first_occurrence 30 "a.py" 0 0 false
          Scenario.w_fifth = (r, w')
      ∧ r ≠ OutOfFuel
      ∧ sent w' =
          sent w0
          ++ replicate n (ReqCompletion Scenario.a_py (mkPosition 0 0)) ++ tail.
Proof.
  assert (never_none (server Scenario.w_fifth)) as Hnn by (intros h; discriminate).
  split; [reflexivity |]. split; [exact Hnn |].
  destruct (@completions_retry_bound Posix.ops Scenario.first_occurrence 30 "a.py"
              0 0 false Scenario.w_fifth)
    as (w0 & n & _ & Hn & _ & _ & r & w' & tail & Hrun & Hr & Hsent & _).
  - lia.
  - reflexivity.
  - intros u b. unfold Scenario.w_fifth, Scenario.session, init. simpl.
    rewrite lookup_empty. discriminate.
  - right. eexists. vm_compute. reflexivity.
  - exact Hnn.
  - exists w0, n, r, w', tail. repeat split; try assumption; lia.
Defined.

(** With [allow_incomplete = True] and a server whose lists are never
    complete, the request is written 30 times: the loop does not look
    at [allow_incomplete]. *)
Lemma completions_retried_when_incomplete_allowed :
  ¬ @retried_only_if_not_allowed Posix.ops Scenario.first_occurrence.
Proof.
  intros Hclaim.
  pose proof (Hclaim 30%nat "a.py" 0 0 true Scenario.w_never_complete _ _
                (surjective_pairing _)) as Hc.
  assert (true = false) as Habs; [| discriminate Habs].
  apply Hc. apply Nat.ltb_lt. vm_compute. reflexivity.
Qed.

(** A call on the server whose fifth list is complete. *)
Lemma completions_without_keywords_witness :
  (@request_completions Posix.ops Scenario.first_occurrence 30 "a.py" 0 0 false
     Scenario.w_fifth).1 = Ok [mkCompletionItem "foo" 3 None]
  ∧ ∀ it, it ∈ [mkCompletionItem "foo" 3 None] →
          c_kind it ≠ CompletionItemKind.Keyword.
Proof.
  split; [vm_compute; reflexivity |].
  apply (@completions_without_keywords Posix.ops Scenario.first_occurrence 30
           "a.py" 0 0 false Scenario.w_fifth _
           (@request_completions Posix.ops Scenario.first_occurrence 30 "a.py" 0 0
              false Scenario.w_fifth).2).
  vm_compute. reflexivity.
Defined.
(** ** Document symbols *)

(** Induction over a symbol tree with the children at hand. *)
Lemma Symbol_tree_ind (P : Symbol → Prop) :
  (∀ n k r sr loc, P (mkSymbol n k r sr loc None)) →
  (∀ n k r sr loc cs, Forall P cs → P (mkSymbol n k r sr loc (Some cs))) →
  ∀ t, P t.
Proof.
  intros Hleaf Hnode. fix IH 1. intros [n k r sr loc [cs |]].
  - apply Hnode. induction cs as [| c cs IHcs]; constructor; [apply IH | exact IHcs].
  - apply Hleaf.
Qed.

Lemma extend_all_flat_map cs : ∀ acc,
  (fix extend_all (cs : list Symbol) (l : list Symbol) : list Symbol :=
     match cs with
     | [] => l
     | child :: cs' =>
         extend_all cs' (l ++ visit_tree_nodes_and_build_tree_repr child)
     end) cs acc
  = acc ++ flat_map visit_tree_nodes_and_build_tree_repr cs.
Proof.
  induction cs as [| c cs IH]; intros acc; simpl.
  - rewrite app_nil_r. reflexivity.
  - rewrite IH, <- app_assoc. reflexivity.
Qed.

Lemma visit_unfold t :
  visit_tree_nodes_and_build_tree_repr t =
  detach t :: match s_children t with
              | None => []
              | Some cs => flat_map visit_tree_nodes_and_build_tree_repr cs
              end.
Proof.
  destruct t as [n k r sr loc [cs |]]; [| reflexivity].
  cbn [visit_tree_nodes_and_build_tree_repr s_children].
  rewrite extend_all_flat_map. reflexivity.
Qed.

Lemma forest_flat_map cs :
  (fix forest (cs : list Symbol) : list Symbol :=
     match cs with
     | [] => []
     | c :: cs' => preorder c ++ forest cs'
     end) cs = flat_map preorder cs.
Proof. induction cs as [| c cs IH]; simpl; [| rewrite IH]; reflexivity. Qed.

Lemma preorder_unfold t :
  preorder t = t :: match s_children t with
                    | None => []
                    | Some cs => flat_map preorder cs
                    end.
Proof.
  destruct t as [n k r sr loc [cs |]]; [| reflexivity].
  cbn [preorder s_children]. rewrite forest_flat_map. reflexivity.
Qed.

Lemma fmap_flat_map {A B C} (f : B → C) (g : A → list B) (l : list A) :
  f <$> flat_map g l = flat_map (λ x, f <$> g x) l.
Proof.
  induction l as [| x l IH]; simpl; [reflexivity |].
  rewrite fmap_app, IH. reflexivity.
Qed.

(** The local function walks the tree in preorder and detaches each
    node. *)
Lemma visit_preorder t :
  visit_tree_nodes_and_build_tree_repr t = detach <$> preorder t.
Proof.
  induction t as [n k r sr loc | n k r sr loc cs IH] using Symbol_tree_ind.
  - reflexivity.
  - rewrite visit_unfold, preorder_unfold. cbn [s_children]. rewrite fmap_cons.
    f_equal. rewrite fmap_flat_map.
    induction IH as [| c cs Hc _ IHcs]; simpl; [reflexivity |].
    rewrite Hc, IHcs. reflexivity.
Qed.

Lemma detach_leaf t : s_children t = None → detach t = t.
Proof. destruct t as [n k r sr loc ch]. simpl. intros ->. reflexivity. Qed.

(** The loop over the response, on items that carry [name] and [kind]. *)
Lemma collect_symbols_preorder items : ∀ acc,
  Forall (λ it, is_Some (s_name it) ∧ is_Some (s_kind it)) items →
  collect_symbols items acc = Ok (acc ++ (detach <$> preorder_forest items)).
Proof.
  induction items as [| it items IH]; intros acc Hwf; simpl.
  - rewrite app_nil_r. reflexivity.
  - inversion Hwf as [| ? ? [Hn Hk] Hwf']; subst.
    rewrite !bool_decide_true by assumption. simpl.
    unfold preorder_forest in *. rewrite fmap_app, app_assoc.
    destruct (s_children it) as [cs |] eqn:Hch.
    + rewrite IH by assumption. rewrite visit_preorder. reflexivity.
    + rewrite IH by assumption. rewrite preorder_unfold, Hch. simpl.
      rewrite detach_leaf by exact Hch. reflexivity.
Qed.

Section Scopes.
Context `{PathOps} `{SetOrder}.

Lemma open_file_enter_entered w path :
  server_started w = true → buffers_ok w → openable w path →
  ∃ b0, opened_buffer w path = Some b0
        ∧ open_file_enter path w = (Ok (path_uri w path), entered w path)
        ∧ current_hash w path = Some (content_hash b0).
Proof.
  intros Hs Hok Hop. unfold entered, opened_buffer, open_messages, current_hash.
  destruct (open_file_buffers w !! path_uri w path) as [b |] eqn:Hb.
  - destruct (Hok _ _ Hb) as [Hu Hr]. eexists. split; [reflexivity |].
    split; [| reflexivity].
    rewrite (open_file_enter_nested w path b Hs Hb Hu Hr).
    destruct w. unfold with_sent, with_buffers. simpl. rewrite app_nil_r. reflexivity.
  - destruct Hop as [[b Hb'] | [contents Hf]].
    { unfold path_uri in Hb. rewrite Hb in Hb'. discriminate. }
    rewrite Hf. simpl. eexists. split; [reflexivity |]. split; [| reflexivity].
    apply (open_file_enter_first w path contents Hs Hb Hf).
Qed.

(** A [with self.open_file(path)] whose body succeeds and leaves the
    table alone: the table is restored and [didClose] is written when
    the document was not open before. *)
Lemma with_open_file_ok {A} path (body : string → M A) w r wb :
  server_started w = true → buffers_ok w → openable w path →
  body (path_uri w path) (entered w path) = (Ok r, wb) →
  open_file_buffers wb = open_file_buffers (entered w path) →
  with_open_file path body w =
    (Ok r,
     with_sent (sent wb ++ close_messages w path)
       (with_buffers (open_file_buffers w) wb)).
Proof.
  intros Hs Hok Hop Hbody Hbufs.
  destruct (open_file_enter_entered w path Hs Hok Hop) as (b0 & Hb0 & Henter & _).
  unfold with_open_file.
  rewrite (bind_ok _ _ _ _ _ Henter), (bind_ok _ _ _ _ _ Hbody).
  assert (open_file_buffers wb !! path_uri w path = Some b0) as Hlook.
  { rewrite Hbufs. unfold entered. rewrite Hb0. simpl. apply lookup_insert_eq. }
  unfold entered in Hbufs. rewrite Hb0 in Hbufs. simpl in Hbufs.
  unfold opened_buffer, close_messages in *.
  destruct (open_file_buffers w !! path_uri w path) as [b |] eqn:Hb.
  - injection Hb0 as <-.
    erewrite bind_ok; cycle 1.
    { apply (open_file_exit_inner wb _ _ Hlook).
      destruct (Hok _ _ Hb) as [_ Hr]. simpl. lia. }
    unfold ret. f_equal. rewrite Hbufs. simpl.
    rewrite insert_insert_eq.
    replace (set_ref_count (ref_count b + 1 - 1) (set_ref_count (ref_count b + 1) b))
      with b by (destruct b; unfold set_ref_count; simpl; f_equal; lia).
    rewrite insert_id by exact Hb.
    destruct wb. unfold with_sent, with_buffers. simpl. rewrite app_nil_r. reflexivity.
  - destruct (files w !! pure_path (repository_root_path w) path) as [contents |];
      [| discriminate].
    injection Hb0 as <-.
    erewrite bind_ok; cycle 1.
    { apply (open_file_exit_last wb _ _ Hlook). reflexivity. }
    unfold ret. f_equal. rewrite Hbufs. rewrite delete_insert_id by exact Hb.
    reflexivity.
Qed.

Lemma entered_fields w path :
  server (entered w path) = server w
  ∧ document_symbols_cache (entered w path) = document_symbols_cache w
  ∧ repository_root_path (entered w path) = repository_root_path w
  ∧ files (entered w path) = files w
  ∧ cache_has_changed (entered w path) = cache_has_changed w
  ∧ server_started (entered w path) = server_started w
  ∧ ls_language_id (entered w path) = ls_language_id w
  ∧ cache_file (entered w path) = cache_file w.
Proof. unfold entered. destruct (opened_buffer w path); repeat split. Qed.

Lemma entered_sent w path :
  openable w path → buffers_ok w →
  sent (entered w path) = sent w ++ open_messages w path.
Proof.
  intros Hop Hok. unfold entered, opened_buffer, open_messages.
  destruct (open_file_buffers w !! path_uri w path) as [b |] eqn:Hb; [reflexivity |].
  destruct Hop as [[b Hb'] | [contents Hf]].
  { unfold path_uri in Hb. rewrite Hb in Hb'. discriminate. }
  rewrite Hf. reflexivity.
Qed.

(** C6 as the code has it.  On a cache miss with a response whose
    top-level items carry [name] and [kind], [request_document_symbols]
    returns one entry per node of the response in depth-first preorder,
    each entry being its node without [children]: it has the node's
    [range], and a [location] only if the node had one, the node's own.
    The list is stored in the cache under the hash of the buffer and the
    flag is set.  It is [request_containing_symbol] that gives a symbol
    without [location] one, made of the file path and the symbol's
    [range]. *)
Theorem document_symbols_preorder path w items :
  server_started w = true → buffers_ok w → openable w path →
  cache_miss w path →
  on_document_symbol (server w)
    (sent w ++ open_messages w path ++ [ReqDocumentSymbol (path_uri w path)])
    = Some items →
  Forall (λ it, is_Some (s_name it) ∧ is_Some (s_kind it)) items →
  let symbols := detach <$> preorder_forest items in
  ∃ h,
    current_hash w path = Some h
    ∧ request_document_symbols path w =
        (Ok (symbols, None),
         with_flag (PyBool true)
           (with_cache
              (<[path := (h, (symbols, None))]> (document_symbols_cache w))
              (with_sent
                 (sent w ++ open_messages w path
                  ++ [ReqDocumentSymbol (path_uri w path)]
                  ++ close_messages w path) w)))
    ∧ length symbols = length (preorder_forest items)
    ∧ (∀ i node, preorder_forest items !! i = Some node →
         symbols !! i = Some (detach node)
         ∧ s_children (detach node) = None
         ∧ s_range (detach node) = s_range node
         ∧ s_location (detach node) = s_location node)
    ∧ (∀ abs rel node r,
         s_location node = None → s_range node = Some r →
         ∃ e, add_location abs rel (detach node) = Some e
              ∧ l_range <$> s_location e = Some r).
Proof.
  intros Hs Hok Hop Hmiss Hresp Hwf symbols.
  destruct (open_file_enter_entered w path Hs Hok Hop) as (b0 & Hb0 & _ & Hhash).
  destruct (entered_fields w path) as (Hsrv & Hcache & _).
  pose proof (entered_sent w path Hop Hok) as Hsent.
  exists (content_hash b0). split; [exact Hhash |].
  split; [| split; [| split]].
  - unfold request_document_symbols.
    set (u := path_uri w path) in *.
    set (w0 := entered w path) in *.
    set (wb := with_sent (sent w0 ++ [ReqDocumentSymbol u]) w0).
    erewrite bind_ok; cycle 1.
    { apply (with_open_file_ok path _ w (inr (content_hash b0, Some items)) wb Hs Hok Hop);
        [| reflexivity].
      fold u w0.
      assert (get_buffer u w0 = (Ok b0, w0)) as Hget.
      { unfold get_buffer, bind, gets, key, w0, entered. rewrite Hb0. simpl.
        fold u. rewrite lookup_insert_eq. reflexivity. }
      rewrite (bind_ok _ _ _ _ _ Hget).
      unfold bind at 1. unfold gets at 1. rewrite Hcache.
      assert (send (ReqDocumentSymbol u) on_document_symbol w0 = (Ok (Some items), wb))
        as Hsend.
      { unfold send, write, modify, bind, gets, ret. simpl. fold wb.
        rewrite Hsrv, Hsent, <- app_assoc, Hresp. reflexivity. }
      destruct (document_symbols_cache w !! path) as [[fh res] |] eqn:Hc.
      - rewrite bool_decide_false; cycle 1.
        { intros ->. apply (Hmiss _ _ Hc). exact Hhash. }
        rewrite (bind_ok _ _ _ _ _ Hsend). reflexivity.
      - rewrite (bind_ok _ _ _ _ _ Hsend). reflexivity. }
    cbv beta iota.
    unfold bind, lift, modify, ret.
    rewrite (collect_symbols_preorder items [] Hwf). simpl.
    fold symbols. f_equal.
    unfold wb, with_flag, with_cache, with_sent, with_buffers. simpl.
    rewrite Hsent, <- !app_assoc. subst w0.
    destruct (entered_fields w path) as (E1 & E2 & E3 & E4 & E5 & E6 & E7 & E8).
    rewrite ?E1, ?E2, ?E3, ?E4, ?E5, ?E6, ?E7, ?E8. reflexivity.
  - unfold symbols. apply length_fmap.
  - intros i node Hi. split; [| repeat split].
    unfold symbols. rewrite list_lookup_fmap, Hi. reflexivity.
  - intros abs rel node r Hloc Hr. unfold add_location. simpl.
    rewrite Hloc, Hr. simpl. eexists. split; reflexivity.
Qed.

End Scopes.

Lemma cache_miss_empty `{PathOps} w path :
  document_symbols_cache w = ∅ → cache_miss w path.
Proof. intros He h r Hc. rewrite He, lookup_empty in Hc. discriminate Hc. Qed.

Lemma buffers_ok_empty w : open_file_buffers w = ∅ → buffers_ok w.
Proof. intros He u b Hb. rewrite He, lookup_empty in Hb. discriminate Hb. Qed.

(** The class of the containing-symbol scenario: three nodes, one
    below the other. *)
Lemma document_symbols_preorder_witness :
  server_started Scenario.w_c = true
  ∧ @cache_miss Posix.ops Scenario.w_c "c.py"
  ∧ (@request_document_symbols Posix.ops "c.py" Scenario.w_c).1 =
      Ok (detach <$> preorder_forest Scenario.c_syms, None)
  ∧ length (detach <$> preorder_forest Scenario.c_syms) = 3%nat.
Proof.
  assert (@cache_miss Posix.ops Scenario.w_c "c.py") as Hmiss
    by (apply cache_miss_empty; reflexivity).
  split; [reflexivity |]. split; [exact Hmiss |].
  destruct (@document_symbols_preorder Posix.ops "c.py" Scenario.w_c Scenario.c_syms)
    as (h & _ & Hrun & Hlen & _).
  - reflexivity.
  - apply buffers_ok_empty. reflexivity.
  - right. eexists. vm_compute. reflexivity.
  - exact Hmiss.
  - reflexivity.
  - repeat constructor; eexists; reflexivity.
  - split; [rewrite Hrun; reflexivity | reflexivity].
Defined.

(** The entries [request_document_symbols] returns for the class of the
    scenario have no location. *)
Lemma document_symbols_without_location :
  ¬ @hierarchical_entries_carry_location Posix.ops.
Proof.
  intros Hclaim.
  assert (Forall (λ e, ∃ loc, s_location e = Some loc ∧ s_range e = Some (l_range loc))
            (detach <$> preorder_forest Scenario.c_syms)) as Hall.
  { apply (Hclaim "c.py" Scenario.w_c Scenario.c_syms _ None
             (@request_document_symbols Posix.ops "c.py" Scenario.w_c).2).
    - reflexivity.
    - repeat constructor. eexists. reflexivity.
    - apply cache_miss_empty. reflexivity.
    - vm_compute. reflexivity. }
  inversion Hall as [| e rest [loc [Hloc _]] _]. discriminate Hloc.
Qed.

(** ** Containing symbol *)

(** [max] with a key returns an element of the list with the greatest
    key, the first one that has it. *)
Lemma py_max_first {A} (key : A → Z) (l : list A) : ∀ x,
  ∃ pre post,
    x :: l = pre ++ py_max key x l :: post
    ∧ Forall (λ y, key y < key (py_max key x l)) pre
    ∧ Forall (λ y, key y ≤ key (py_max key x l)) post.
Proof.
  induction l as [| y l IH]; intros x.
  - exists [], []. repeat split; constructor.
  - cbn [py_max]. destruct (Z.ltb_spec (key x) (key y)) as [Hlt | Hge].
    + destruct (IH y) as (pre & post & Heq & Hpre & Hpost).
      exists (x :: pre), post. rewrite Heq. split; [reflexivity |].
      split; [| exact Hpost]. constructor; [| exact Hpre].
      destruct pre as [| p pre].
      * injection Heq as <- _. exact Hlt.
      * injection Heq as <- _. inversion Hpre; subst. lia.
    + destruct (IH x) as (pre & post & Heq & Hpre & Hpost).
      set (m := py_max key x l) in *.
      destruct pre as [| p pre].
      * injection Heq as Hm Hl. exists [], (y :: post).
        split; [simpl; rewrite <- Hm, Hl; reflexivity |]. split; [constructor |].
        constructor; [rewrite <- Hm; exact Hge | exact Hpost].
      * injection Heq as <- Hl. exists (x :: y :: pre), post.
        split; [simpl; rewrite Hl; reflexivity |]. split; [| exact Hpost].
        inversion_clear Hpre as [| ? ? Hx Hpre'].
        constructor; [exact Hx |]. constructor; [lia | exact Hpre'].
Qed.

(** The symbol [request_containing_symbol] picks has the greatest start
    line among the containing candidates, and is the first of them
    with that start line. *)
Lemma innermost_container_first column strict l symbols s :
  innermost_container column strict l symbols = Ok (Some s) →
  ∃ containing pre post,
    containing = pre ++ s :: post
    ∧ Forall (λ y, start_line y < start_line s) pre
    ∧ Forall (λ y, start_line y ≤ start_line s) post.
Proof.
  unfold innermost_container.
  destruct (filterE _ symbols) as [cands | |]; simpl; try discriminate.
  destruct (filterE _ symbols) as [vars | |]; simpl; try discriminate.
  destruct (cands ++ vars) as [| c0 cs]; [discriminate |].
  destruct (filterE _ (c0 :: cs)) as [[| x rest] | |]; simpl; try discriminate.
  intros [= <-]. destruct (py_max_first start_line rest x) as (pre & post & Heq & H1 & H2).
  exists (x :: rest), pre, post. auto.
Qed.

(** C7.  Ties on the start line.  In a file holding [a, b = 1, 2] with
    the variables [a] at (0, 0) and [b] at (0, 3), both symbols contain
    the position (0, 3) and start on line 0; [b] has the greater start
    character, and [request_containing_symbol] returns [a], the first
    of the two: the key of [max] is the start line alone. *)
Theorem containing_symbol_tie_on_start_line :
  (@request_containing_symbol Posix.ops "v.py" 0 (Some 3) false Scenario.w_v).1
    = Ok (Some (Scenario.located "v.py" Scenario.sym_a))
  ∧ is_position_in_range (Some 3) false 0 (Scenario.rng 0 0 0 1) = true
  ∧ is_position_in_range (Some 3) false 0 (Scenario.rng 0 3 0 4) = true
  ∧ innermost_container (Some 3) false 0
      [Scenario.located "v.py" Scenario.sym_a; Scenario.located "v.py" Scenario.sym_b]
    = Ok (Some (Scenario.located "v.py" Scenario.sym_a))
  ∧ start_line (Scenario.located "v.py" Scenario.sym_a)
    = start_line (Scenario.located "v.py" Scenario.sym_b)
  ∧ location_range (Scenario.located "v.py" Scenario.sym_a) = Ok (Scenario.rng 0 0 0 1)
  ∧ location_range (Scenario.located "v.py" Scenario.sym_b) = Ok (Scenario.rng 0 3 0 4).
Proof. repeat split; vm_compute; reflexivity. Qed.

(** ** Whitespace-only lines *)

Lemma lstrip_empty s : Py.lstrip s = "" ↔ Py.all_space s = true.
Proof.
  induction s as [| c s IH]; simpl; [tauto |].
  destruct (Py.is_space c); simpl; [exact IH |]. split; discriminate.
Qed.

Lemma lstrip_all_space s : Py.all_space (Py.lstrip s) = true → Py.lstrip s = "".
Proof.
  induction s as [| c s IH]; simpl; [reflexivity |].
  destruct (Py.is_space c) eqn:Hc; [exact IH |].
  simpl. rewrite Hc. discriminate.
Qed.

Lemma all_space_rev_app s : ∀ t,
  Py.all_space (String.rev_app s t) = Py.all_space s && Py.all_space t.
Proof.
  induction s as [| c s IH]; intros t; simpl; [reflexivity |].
  rewrite IH. simpl. destruct (Py.is_space c), (Py.all_space s); reflexivity.
Qed.

Lemma rev_app_empty s t : String.rev_app s t = "" → s = "" ∧ t = "".
Proof.
  revert t. induction s as [| c s IH]; intros t; simpl; [tauto |].
  intros E. apply IH in E as [_ E]. discriminate E.
Qed.

(** [s.strip() == ""] says that every character of [s] is whitespace. *)
Lemma strip_empty s : Py.strip s = "" ↔ Py.all_space s = true.
Proof.
  unfold Py.strip, String.rev. split.
  - intros E. apply rev_app_empty in E as [E _].
    apply lstrip_empty in E. rewrite all_space_rev_app, andb_true_r in E.
    apply lstrip_empty, lstrip_all_space. exact E.
  - intros E. apply lstrip_empty in E. rewrite E. reflexivity.
Qed.

Section Blank.
Context `{PathOps} `{SetOrder}.

(** The check at the head of [request_containing_symbol] is made on the
    file as it is on disk: when its line [l] is whitespace-only, the
    result is [None]. *)
Lemma containing_symbol_blank_on_disk path l column strict w content text :
  server_started w = true → buffers_ok w → openable w path →
  files w !! pure_path (repository_root_path w) path = Some content →
  Py.index (Py.split Py.NL content) l = Some text →
  Py.all_space text = true →
  ∃ w', request_containing_symbol path l column strict w = (Ok None, w').
Proof.
  intros Hs Hok Hop Hf Hl Hsp.
  unfold request_containing_symbol, line_is_blank.
  unfold bind at 1, gets at 1. unfold bind at 2, gets at 1.
  eexists. erewrite bind_ok; cycle 1.
  { apply (with_open_file_ok path _ w true (entered w path) Hs Hok Hop); [| reflexivity].
    destruct (entered_fields w path) as (_ & _ & _ & Hfiles & _).
    unfold FileUtils.read_file, bind, gets, lift, Pure.item, ret.
    rewrite Hfiles, Hf, Hl. rewrite bool_decide_true by (apply strip_empty; exact Hsp).
    reflexivity. }
  reflexivity.
Qed.

End Blank.

(** C4.  The line that is checked for being empty.  [f.py] holds a
    function [f] of three lines.  With the file open and line 1 emptied
    in the buffer, [request_containing_symbol] for line 1 returns [f]:
    the check reads the file from disk, where line 1 is not empty.  And
    for line 3, one past the last line of that file, which does not end
    in a line break, the check raises [IndexError]; it returns [None]
    there for the file of the specification's scenario, which does end
    in one. *)
Theorem containing_symbol_checks_the_file_on_disk :
  Scenario.emptied_then_asked.1
    = Ok ("  x = 1", "def f():" +:+ Py.nl +:+ Py.nl +:+ "  return 1",
          Some (Scenario.located "f.py" Scenario.sym_f))
  ∧ Py.index (Py.split Py.NL ("def f():" +:+ Py.nl +:+ Py.nl +:+ "  return 1")) 1
    = Some ""
  ∧ Py.strip "" = ""
  ∧ (@request_containing_symbol Posix.ops "f.py" 3 (Some 0) false Scenario.w_f).1
    = Raise IndexError
  ∧ (@request_containing_symbol Posix.ops "c.py" 3 (Some 0) false Scenario.w_c).1
    = Ok None.
Proof. repeat split; vm_compute; reflexivity. Qed.
(** ** Referencing symbols *)

Lemma position_eq (p q : Position) :
  bool_decide (line p = line q) && bool_decide (character p = character q)
  = bool_decide (p = q).
Proof.
  destruct p as [pl pc], q as [ql qc]. simpl.
  destruct (decide (pl = ql)) as [-> | Hl], (decide (pc = qc)) as [-> | Hc].
  - rewrite !bool_decide_true by reflexivity. reflexivity.
  - rewrite (bool_decide_false (pc = qc)) by exact Hc.
    rewrite andb_false_r. symmetry. apply bool_decide_false. congruence.
  - rewrite (bool_decide_false (pl = ql)) by exact Hl.
    symmetry. apply bool_decide_false. congruence.
  - rewrite (bool_decide_false (pl = ql)) by exact Hl.
    symmetry. apply bool_decide_false. congruence.
Qed.

Lemma is_self_reference_ok path ref cs b :
  is_self_reference path ref cs = Ok b → b = is_self path (ref, cs).
Proof.
  unfold is_self_reference, is_self, Pure.key. simpl.
  destruct (s_location cs) as [loc |]; simpl; [| discriminate].
  destruct (l_relativePath loc) as [rel |]; simpl; [| discriminate].
  destruct (decide (rel = path)) as [-> | Hne].
  - rewrite !bool_decide_true by reflexivity.
    destruct (s_selectionRange cs) as [sel |]; simpl; [| discriminate].
    intros [= <-]. apply position_eq.
  - rewrite !bool_decide_false by congruence. intros [= <-]. reflexivity.
Qed.

Lemma is_import_ok imports incoming cs b :
  is_import imports incoming cs = Ok b →
  negb b = imports || match incoming with
                      | Some inc => negb (same_name_kind cs inc)
                      | None => true
                      end.
Proof.
  unfold is_import, same_name_kind, Pure.key.
  destruct imports; simpl; [intros [= <-]; reflexivity |].
  destruct incoming as [inc |]; [| intros [= <-]; reflexivity].
  destruct (s_name cs) as [n |]; simpl; [| discriminate].
  destruct (s_name inc) as [n' |]; simpl; [| discriminate].
  destruct (decide (n = n')) as [-> | Hne].
  - rewrite !bool_decide_true by reflexivity.
    destruct (s_kind cs) as [k |]; simpl; [| discriminate].
    destruct (s_kind inc) as [k' |]; simpl; [| discriminate].
    intros [= <-]. f_equal. apply bool_decide_ext. split; congruence.
  - rewrite !bool_decide_false by congruence. intros [= <-]. reflexivity.
Qed.

Lemma incoming_after_snoc path pre x :
  incoming_after path (pre ++ [x]) =
  if is_self path x then Some x.2 else incoming_after path pre.
Proof. unfold incoming_after. rewrite fold_left_app. reflexivity. Qed.

(** One pass of the loop body over [result] and [incoming_symbol]. *)
Lemma classify_reference_ok path imports self ref cs pre res res' inc' :
  classify_reference path imports self ref cs (res, incoming_after path pre)
    = Ok (res', inc') →
  res' = res ++ (if kept path imports self pre (ref, cs) then [cs] else [])
  ∧ inc' = incoming_after path (pre ++ [(ref, cs)]).
Proof.
  unfold classify_reference, kept. rewrite incoming_after_snoc.
  destruct (is_self_reference path ref cs) as [b | |] eqn:Hself; simpl; try discriminate.
  apply is_self_reference_ok in Hself. rewrite <- Hself.
  destruct b.
  - destruct self.
    + intros [= <- <-]. split; reflexivity.
    + destruct (Pure.key (s_name cs)); simpl; try discriminate.
      intros [= <- <-]. rewrite app_nil_r. split; reflexivity.
  - destruct (is_import imports (incoming_after path pre) cs) as [imp | |] eqn:Himp;
      simpl; try discriminate.
    apply is_import_ok in Himp. simpl in Himp. rewrite <- Himp.
    destruct imp; simpl; intros [= <- <-]; rewrite ?app_nil_r; split; reflexivity.
Qed.

Section Referencing.
Context `{PathOps} `{SetOrder}.

Lemma referencing_loop_select path imports self refs :
  ∀ res pre w result w',
    referencing_loop path imports self refs (res, incoming_after path pre) w
      = (Ok result, w') →
    ∃ entries,
      containers_of refs w = (Ok entries, w')
      ∧ result = res ++ select path imports self pre entries.
Proof.
  induction refs as [| ref rest IH]; intros res pre w result w' Hrun.
  - injection Hrun as <- <-. exists []. split; [reflexivity |].
    simpl. rewrite app_nil_r. reflexivity.
  - cbn [referencing_loop] in Hrun.
    apply lift_bind_inv in Hrun as (ref_path & Hpath & Hrun).
    apply bind_inv_ok in Hrun as ([res1 inc1] & w1 & Hscope & Hrest).
    unfold with_open_file in Hscope.
    apply bind_inv_ok in Hscope as (u & w0 & Henter & Hscope).
    apply bind_inv_ok in Hscope as (acc1 & wb & Hbody & Hscope).
    apply bind_inv_ok in Hscope as ([] & wx & Hexit & Hret).
    injection Hret as -> ->.
    apply bind_inv_ok in Hbody as (ocs & wb' & Hfind & Hbody).
    assert (wb' = wb) as ->.
    { destruct ocs; [unfold lift in Hbody | unfold ret in Hbody]; congruence. }
    assert (with_open_file ref_path (containing_symbol_of_reference ref_path ref) w
            = (Ok ocs, w1)) as Hscope'.
    { unfold with_open_file.
      rewrite (bind_ok _ _ _ _ _ Henter), (bind_ok _ _ _ _ _ Hfind),
        (bind_ok _ _ _ _ _ Hexit). reflexivity. }
    cbn [containers_of]. unfold bind at 1, lift at 1. rewrite Hpath.
    rewrite (bind_ok _ _ _ _ _ Hscope').
    destruct ocs as [cs |].
    + unfold lift in Hbody. injection Hbody as Hcl.
      apply classify_reference_ok in Hcl as [-> ->].
      destruct (IH _ _ _ _ _ Hrest) as (entries & Hcont & ->).
      exists ((ref, cs) :: entries). rewrite (bind_ok _ _ _ _ _ Hcont).
      split; [reflexivity |]. simpl. rewrite <- app_assoc. reflexivity.
    + unfold ret in Hbody. injection Hbody as <- <-.
      destruct (IH _ _ _ _ _ Hrest) as (entries & Hcont & ->).
      exists entries. rewrite (bind_ok _ _ _ _ _ Hcont). split; reflexivity.
Qed.

Lemma select_sublist path imports self entries : ∀ pre,
  sublist (select path imports self pre entries) (snd <$> entries).
Proof.
  induction entries as [| x rest IH]; intros pre; simpl; [constructor |].
  destruct (kept path imports self pre x); simpl.
  - apply sublist_skip. apply IH.
  - apply sublist_cons. apply IH.
Qed.

End Referencing.

Section ReferencingSymbols.
Context `{PathOps} `{SetOrder}.

(** C8 as the code has it.  The result of
    [request_referencing_symbols] is made of the containing symbols the
    references have, in reference order.  A reference is a
    self-reference when its containing symbol lies in the file of the
    query and has its [selectionRange] start at the start of the
    reference, whatever position the query was made at; every
    self-reference, not the first alone, makes its containing symbol
    the incoming symbol and is kept only with [include_self].  Without
    [include_imports], the containing symbol of a later reference is
    dropped when it has the name and kind of the incoming symbol found
    so far; references before the first self-reference are kept. *)
Theorem referencing_symbols_selection path l c include_imports include_self
    w result w' :
  request_referencing_symbols path l c include_imports include_self w
    = (Ok result, w') →
  ∃ refs w1 entries,
    request_references path l c w = (Ok refs, w1)
    ∧ containers_of refs w1 = (Ok entries, w')
    ∧ result = select path include_imports include_self [] entries
    ∧ sublist result (snd <$> entries).
Proof.
  intros Hrun. unfold request_referencing_symbols in Hrun.
  apply bind_inv_ok in Hrun as ([] & wa & Hcheck & Hrun).
  assert (wa = w) as ->.
  { unfold check_started, bind, gets in Hcheck.
    destruct (server_started w); unfold ret, raise in Hcheck; congruence. }
  apply bind_inv_ok in Hrun as (refs & w1 & Hrefs & Hrun).
  exists refs, w1.
  destruct refs as [| ref rest].
  - injection Hrun as <- <-. exists []. repeat split; try assumption. constructor.
  - apply (referencing_loop_select path include_imports include_self (ref :: rest)
             [] [] w1 result w') in Hrun as (entries & Hcont & ->).
    exists entries. split; [exact Hrefs |]. split; [exact Hcont |].
    split; [reflexivity |]. apply select_sublist.
Qed.

End ReferencingSymbols.

(** The query made at the use of [foo] in [x = foo()], without
    [include_self]: the reference at the definition of [foo] counts as
    the self-reference and [x] alone is returned. *)
Lemma referencing_symbols_selection_witness :
  (@request_referencing_symbols Posix.ops "a.py" 2 4 true false Scenario.w_foo).1
    = Ok [Scenario.located "a.py" Scenario.sym_x]
  ∧ ∃ refs w1 entries,
      @request_references Posix.ops "a.py" 2 4 Scenario.w_foo = (Ok refs, w1)
      ∧ [Scenario.located "a.py" Scenario.sym_x] = select "a.py" true false [] entries
      ∧ sublist [Scenario.located "a.py" Scenario.sym_x] (snd <$> entries).
Proof.
  split; [vm_compute; reflexivity |].
  destruct (@referencing_symbols_selection Posix.ops "a.py" 2 4 true false
              Scenario.w_foo [Scenario.located "a.py" Scenario.sym_x]
              (@request_referencing_symbols Posix.ops "a.py" 2 4 true false
                 Scenario.w_foo).2)
    as (refs & w1 & entries & Hrefs & _ & Hsel & Hsub).
  - vm_compute. reflexivity.
  - exists refs, w1, entries. repeat split; assumption.
Defined.

(** For the query at (2, 4) the containing symbol of no reference has
    its [selectionRange] start at the position of the query, so the
    specification's rule keeps both [foo] and [x]; the code returns
    [x] alone. *)
Lemma referencing_symbols_self_is_not_the_query :
  ¬ @referencing_symbols_as_specified Posix.ops.
Proof.
  intros Hclaim.
  pose proof (Hclaim "a.py" 2 4 true false Scenario.w_foo
                [Scenario.ref_decl; Scenario.ref_use]
                (@request_references Posix.ops "a.py" 2 4 Scenario.w_foo).2
                Scenario.foo_entries
                [Scenario.located "a.py" Scenario.sym_x]
                (@request_referencing_symbols Posix.ops "a.py" 2 4 true false
                   Scenario.w_foo).2) as Hc.
  assert ([Scenario.located "a.py" Scenario.sym_x]
          = spec_select "a.py" 2 4 true false Scenario.foo_entries) as Habs.
  { apply Hc; vm_compute; reflexivity. }
  vm_compute in Habs. discriminate Habs.
Qed.

(* ===================================================================== *)
(** * Further properties *)
(* ===================================================================== *)

Section Inv.
Context `{PathOps}.

Lemma bind_inv {A B} (c : M A) (f : A → M B) w r w2 :
  bind c f w = (r, w2) →
  (∃ a w1, c w = (Ok a, w1) ∧ f a w1 = (r, w2))
  ∨ (∃ e, c w = (Raise e, w2) ∧ r = Raise e)
  ∨ (c w = (OutOfFuel, w2) ∧ r = OutOfFuel).
Proof.
  unfold bind. destruct (c w) as [[a | e |] w1]; intros E.
  - left. eauto.
  - right. left. injection E as <- <-. eauto.
  - right. right. injection E as <- <-. eauto.
Qed.

Lemma check_started_inv w r w' :
  check_started w = (r, w') →
  w' = w ∧ (r = Ok tt ∧ server_started w = true
            ∨ r = Raise (MultilspyException "Language Server not started")
              ∧ server_started w = false).
Proof.
  unfold check_started, bind, gets. destruct (server_started w); simpl.
  - intros [= <- <-]. auto.
  - intros [= <- <-]. auto.
Qed.

Lemma buffers_ok_buffer_ok w path : buffers_ok w → buffer_ok w path.
Proof. intros Hok b Hb. exact (Hok _ _ Hb). Qed.

Lemma open_file_enter_local w path :
  server_started w = true → buffer_ok w path → openable w path →
  open_file_enter path w = (Ok (path_uri w path), entered w path).
Proof.
  intros Hs Hok Hop. unfold entered, opened_buffer, open_messages.
  destruct (open_file_buffers w !! path_uri w path) as [b |] eqn:Hb.
  - destruct (Hok _ Hb) as [Hu Hr].
    rewrite (open_file_enter_nested w path b Hs Hb Hu Hr).
    destruct w. unfold with_sent, with_buffers. simpl. rewrite app_nil_r. reflexivity.
  - destruct Hop as [[b Hb'] | [contents Hf]].
    { unfold path_uri in Hb. rewrite Hb in Hb'. discriminate. }
    rewrite Hf. simpl. apply (open_file_enter_first w path contents Hs Hb Hf).
Qed.

Lemma open_file_enter_inv w path u w0 :
  open_file_enter path w = (Ok u, w0) →
  server_started w = true ∧ buffer_ok w path ∧ openable w path
  ∧ u = path_uri w path ∧ w0 = entered w path.
Proof.
  intros Hrun.
  assert (server_started w = true ∧ buffer_ok w path ∧ openable w path)
    as (Hs & Hok & Hop).
  { unfold open_file_enter, check_started, bind, gets in Hrun.
    destruct (server_started w) eqn:Hs; simpl in Hrun; [| discriminate].
    split; [reflexivity |]. unfold buffer_ok, openable, path_uri.
    destruct (open_file_buffers w !! as_uri (pure_path (repository_root_path w) path))
      as [b |] eqn:Hb.
    - unfold py_assert in Hrun.
      destruct (bool_decide (uri b = _)) eqn:Hu; simpl in Hrun; [| discriminate].
      destruct (1 <=? ref_count b) eqn:Hr; simpl in Hrun; [| discriminate].
      apply bool_decide_eq_true in Hu. apply Z.leb_le in Hr.
      split; [| left; eauto]. intros b' [= <-]. auto.
    - split; [intros b' [=] |]. right.
      unfold FileUtils.read_file, bind, gets in Hrun.
      destruct (files w !! pure_path (repository_root_path w) path); [eauto |].
      discriminate. }
  rewrite (open_file_enter_local w path Hs Hok Hop) in Hrun.
  injection Hrun as <- <-. auto.
Qed.

(** The buffer a scope works on is in the table once the scope is
    entered. *)
Lemma entered_lookup w path :
  buffer_ok w path → openable w path →
  ∃ b0, opened_buffer w path = Some b0
        ∧ open_file_buffers (entered w path) !! path_uri w path = Some b0
        ∧ current_hash w path = Some (content_hash b0)
        ∧ uri b0 = path_uri w path ∧ 1 ≤ ref_count b0.
Proof.
  intros Hok Hop. unfold entered, opened_buffer, current_hash.
  destruct (open_file_buffers w !! path_uri w path) as [b |] eqn:Hb.
  - destruct (Hok _ Hb) as [Hu Hr].
    exists (set_ref_count (ref_count b + 1) b). split; [reflexivity |].
    split; [simpl; apply lookup_insert_eq |]. split; [reflexivity |].
    split; [exact Hu | simpl; lia].
  - destruct Hop as [[b Hb'] | [contents Hf]].
    { unfold path_uri in Hb. rewrite Hb in Hb'. discriminate. }
    rewrite Hf. simpl. eexists. split; [reflexivity |].
    split; [apply lookup_insert_eq |]. split; [reflexivity |].
    split; [reflexivity | simpl; lia].
Qed.

(** Leaving a scope whose body left the table alone. *)
Lemma open_file_exit_entered w path wb :
  buffer_ok w path → openable w path →
  open_file_buffers wb = open_file_buffers (entered w path) →
  open_file_exit (path_uri w path) wb =
    (Ok tt,
     with_sent (sent wb ++ close_messages w path)
       (with_buffers (open_file_buffers w) wb)).
Proof.
  intros Hok Hop Hbufs.
  destruct (entered_lookup w path Hok Hop) as (b0 & Hb0 & Hlook & _).
  rewrite <- Hbufs in Hlook.
  unfold entered in Hbufs. rewrite Hb0 in Hbufs. simpl in Hbufs.
  unfold opened_buffer, close_messages in *.
  destruct (open_file_buffers w !! path_uri w path) as [b |] eqn:Hb.
  - injection Hb0 as <-.
    rewrite (open_file_exit_inner wb _ _ Hlook)
      by (destruct (Hok _ Hb) as [_ Hr]; simpl; lia).
    f_equal. rewrite Hbufs. simpl. rewrite insert_insert_eq.
    replace (set_ref_count (ref_count b + 1 - 1) (set_ref_count (ref_count b + 1) b))
      with b by (destruct b; unfold set_ref_count; simpl; f_equal; lia).
    rewrite insert_id by exact Hb.
    destruct wb. unfold with_sent, with_buffers. simpl. rewrite app_nil_r. reflexivity.
  - destruct (files w !! pure_path (repository_root_path w) path) as [contents |];
      [| discriminate].
    injection Hb0 as <-.
    rewrite (open_file_exit_last wb _ _ Hlook) by reflexivity.
    f_equal. rewrite Hbufs. rewrite delete_insert_id by exact Hb. reflexivity.
Qed.

(** Leaving a scope never fails while its buffer is in the table. *)
Lemma open_file_exit_total w u b :
  open_file_buffers w !! u = Some b → ∃ w', open_file_exit u w = (Ok tt, w').
Proof.
  intros Hb. destruct (open_file_exit_ok w u b Hb) as (w' & _ & Hx & _). eauto.
Qed.

(** A scope that returned: it was entered, its body returned, and it
    was left. *)
Lemma with_open_file_inv {A} path (body : string → M A) w r w' :
  with_open_file path body w = (Ok r, w') →
  ∃ wb, server_started w = true ∧ buffer_ok w path ∧ openable w path
        ∧ body (path_uri w path) (entered w path) = (Ok r, wb)
        ∧ open_file_exit (path_uri w path) wb = (Ok tt, w').
Proof.
  unfold with_open_file. intros Hrun.
  apply bind_inv_ok in Hrun as (u & w0 & Henter & Hrun).
  apply open_file_enter_inv in Henter as (Hs & Hok & Hop & -> & ->).
  apply bind_inv_ok in Hrun as (r' & wb & Hbody & Hrun).
  apply bind_inv_ok in Hrun as ([] & wx & Hexit & Hret).
  injection Hret as -> ->. eauto 10.
Qed.

(** The same with the state it ends in, for a body that leaves the
    table alone. *)
Lemma with_open_file_inv_state {A} path (body : string → M A) w r w' :
  with_open_file path body w = (Ok r, w') →
  (∀ u w0 a wb, body u w0 = (Ok a, wb) → open_file_buffers wb = open_file_buffers w0) →
  ∃ wb, server_started w = true ∧ buffer_ok w path ∧ openable w path
        ∧ body (path_uri w path) (entered w path) = (Ok r, wb)
        ∧ w' = with_sent (sent wb ++ close_messages w path)
                 (with_buffers (open_file_buffers w) wb).
Proof.
  intros Hrun Hkeep.
  apply with_open_file_inv in Hrun as (wb & Hs & Hok & Hop & Hbody & Hexit).
  exists wb. split; [exact Hs |]. split; [exact Hok |]. split; [exact Hop |].
  split; [exact Hbody |].
  rewrite (open_file_exit_entered w path wb Hok Hop (Hkeep _ _ _ _ Hbody)) in Hexit.
  injection Hexit as <-. reflexivity.
Qed.

(** A scope whose body returns and leaves the table alone returns. *)
Lemma with_open_file_local {A} path (body : string → M A) w r wb :
  server_started w = true → buffer_ok w path → openable w path →
  body (path_uri w path) (entered w path) = (Ok r, wb) →
  open_file_buffers wb = open_file_buffers (entered w path) →
  with_open_file path body w =
    (Ok r,
     with_sent (sent wb ++ close_messages w path)
       (with_buffers (open_file_buffers w) wb)).
Proof.
  intros Hs Hok Hop Hbody Hbufs. unfold with_open_file.
  rewrite (bind_ok _ _ _ _ _ (open_file_enter_local w path Hs Hok Hop)).
  rewrite (bind_ok _ _ _ _ _ Hbody).
  rewrite (bind_ok _ _ _ _ _ (open_file_exit_entered w path wb Hok Hop Hbufs)).
  reflexivity.
Qed.

(** A scope restores the table when its body does. *)
Lemma with_open_file_restores {A} path (body : string → M A) :
  (∀ u, restores_open_files (body u)) →
  restores_open_files (with_open_file path body).
Proof.
  intros Hkeep w r w' Hrun.
  apply with_open_file_inv_state in Hrun as (wb & _ & _ & _ & _ & ->).
  - reflexivity.
  - intros u w0 a wb. apply Hkeep.
Qed.

Lemma bind_restores {A B} (c : M A) (f : A → M B) :
  restores_open_files c → (∀ a, restores_open_files (f a)) →
  restores_open_files (bind c f).
Proof.
  intros Hc Hf w r w' Hrun.
  apply bind_inv_ok in Hrun as (a & w1 & Ha & Hb).
  rewrite (Hf _ _ _ _ Hb). exact (Hc _ _ _ Ha).
Qed.

Lemma ret_restores {A} (a : A) : restores_open_files (ret a).
Proof. intros w r w' [= _ <-]. reflexivity. Qed.

Lemma lift_restores {A} (r : Res A) : restores_open_files (lift r).
Proof. intros w a w' [= _ <-]. reflexivity. Qed.

Lemma gets_restores {A} (f : World → A) : restores_open_files (gets f).
Proof. intros w a w' [= _ <-]. reflexivity. Qed.

Lemma raise_restores {A} e : restores_open_files (@raise A e).
Proof. intros w a w' [=]. Qed.

Lemma check_started_restores : restores_open_files check_started.
Proof.
  intros w r w' Hrun. apply check_started_inv in Hrun as [-> _]. reflexivity.
Qed.

Lemma send_restores {A} m (answer : Server → list Msg → A) :
  restores_open_files (send m answer).
Proof. intros w a w' [= _ <-]. reflexivity. Qed.

Lemma get_buffer_restores u : restores_open_files (get_buffer u).
Proof.
  intros w b w'. unfold get_buffer, bind, gets, key.
  destruct (open_file_buffers w !! u); intros [= _ <-]. reflexivity.
Qed.

Lemma py_assert_restores b : restores_open_files (py_assert b).
Proof. intros w a w'. destruct b; intros [= _ <-]. reflexivity. Qed.

Lemma key_restores {A} (o : option A) : restores_open_files (key o).
Proof. intros w a w'. destruct o; intros [= _ <-]. reflexivity. Qed.

End Inv.

Lemma modify_restores (f : World → World) :
  (∀ w, open_file_buffers (f w) = open_file_buffers w) →
  restores_open_files (modify f).
Proof. intros Hf w r w' [= _ <-]. apply Hf. Qed.

Lemma write_restores m : restores_open_files (write m).
Proof. apply modify_restores. reflexivity. Qed.

Lemma read_file_restores p : restores_open_files (FileUtils.read_file p).
Proof.
  intros w r w'. unfold FileUtils.read_file, bind, gets.
  destruct (files w !! p); intros [= _ <-]. reflexivity.
Qed.

Ltac restores_step special :=
  first
    [ special
    | apply ret_restores
    | apply lift_restores
    | apply raise_restores
    | apply check_started_restores
    | apply send_restores
    | apply write_restores
    | apply read_file_restores
    | apply get_buffer_restores
    | apply py_assert_restores
    | apply key_restores
    | apply with_open_file_restores
    | apply gets_restores
    | apply modify_restores; reflexivity
    | apply bind_restores
    | lazymatch goal with
      | |- restores_open_files (match ?x with _ => _ end) => destruct x
      | |- restores_open_files _ => fail
      | |- ∀ _, _ => intro
      end ].

Ltac restores_using special := repeat (restores_step special).
Ltac restores := restores_using fail.

Section Restores.
Context `{PathOps} `{SetOrder} `{DefinitionHandler}.

Lemma completion_loop_restores fuel u pos : ∀ resp num,
  restores_open_files (completion_loop fuel u pos resp num).
Proof.
  induction fuel as [| fuel IH]; intros resp num; cbn [completion_loop];
    destruct (keep_asking resp num).
  - intros w r w' [=].
  - apply ret_restores.
  - restores_using ltac:(apply IH).
  - apply ret_restores.
Qed.

Lemma request_completions_restores fuel path l c allow :
  restores_open_files (request_completions fuel path l c allow).
Proof.
  unfold request_completions. restores_using ltac:(apply completion_loop_restores).
Qed.

Lemma request_document_symbols_restores path :
  restores_open_files (request_document_symbols path).
Proof. unfold request_document_symbols. restores. Qed.

Lemma request_references_restores path l c :
  restores_open_files (request_references path l c).
Proof. unfold request_references. restores. Qed.

Lemma request_definition_restores path l c :
  restores_open_files (request_definition path l c).
Proof. unfold request_definition. restores. Qed.

Lemma request_containing_symbol_restores path l column strict :
  restores_open_files (request_containing_symbol path l column strict).
Proof.
  unfold request_containing_symbol.
  restores_using ltac:(apply request_document_symbols_restores).
Qed.

Lemma containing_symbol_of_reference_restores ref_path ref u :
  restores_open_files (containing_symbol_of_reference ref_path ref u).
Proof.
  unfold containing_symbol_of_reference, variable_fallback.
  restores_using ltac:(first [ apply request_containing_symbol_restores
                             | apply request_document_symbols_restores ]).
Qed.

Lemma referencing_loop_restores path imports self refs : ∀ acc,
  restores_open_files (referencing_loop path imports self refs acc).
Proof.
  induction refs as [| ref rest IH]; intros acc; cbn [referencing_loop].
  - apply ret_restores.
  - restores_using ltac:(first [ apply IH
                               | apply containing_symbol_of_reference_restores ]).
Qed.

Lemma request_referencing_symbols_restores path l c imports self :
  restores_open_files (request_referencing_symbols path l c imports self).
Proof.
  unfold request_referencing_symbols.
  restores_using ltac:(first [ apply referencing_loop_restores
                             | apply request_references_restores ]).
Qed.

Lemma request_container_of_symbol_restores symbol :
  restores_open_files (request_container_of_symbol symbol).
Proof.
  unfold request_container_of_symbol.
  restores_using ltac:(apply request_containing_symbol_restores).
Qed.

Lemma request_defining_symbol_restores path l c :
  restores_open_files (request_defining_symbol path l c).
Proof.
  unfold request_defining_symbol.
  restores_using ltac:(first [ apply request_containing_symbol_restores
                             | apply request_definition_restores ]).
Qed.

End Restores.

Section DocSyms.
Context `{PathOps}.

Lemma entered_sent_local w path :
  buffer_ok w path → openable w path →
  sent (entered w path) = sent w ++ open_messages w path.
Proof.
  intros Hok Hop. unfold entered, opened_buffer, open_messages.
  destruct (open_file_buffers w !! path_uri w path) as [b |] eqn:Hb; [reflexivity |].
  destruct Hop as [[b Hb'] | [contents Hf]].
  { unfold path_uri in Hb. rewrite Hb in Hb'. discriminate. }
  rewrite Hf. reflexivity.
Qed.

(** Entering a scope and going back to the table as it was leaves only
    what was written. *)
Lemma entered_left w path l :
  buffer_ok w path → openable w path →
  with_sent (sent (entered w path) ++ l)
    (with_buffers (open_file_buffers w) (entered w path))
  = with_sent (sent w ++ open_messages w path ++ l) w.
Proof.
  intros Hok Hop. rewrite (entered_sent_local w path Hok Hop), <- app_assoc.
  unfold entered. destruct (opened_buffer w path); reflexivity.
Qed.

Lemma get_buffer_entered w path b0 :
  open_file_buffers (entered w path) !! path_uri w path = Some b0 →
  get_buffer (path_uri w path) (entered w path) = (Ok b0, entered w path).
Proof. intros Hb. unfold get_buffer, bind, gets, key. rewrite Hb. reflexivity. Qed.

Lemma symbols_block_run path w h :
  buffer_ok w path → openable w path → current_hash w path = Some h →
  symbols_block path (path_uri w path) (entered w path) =
    match document_symbols_cache w !! path with
    | Some (fh, result) =>
        if bool_decide (fh = h) then (Ok (inl result), entered w path)
        else (Ok (inr (h, on_document_symbol (server w)
                            (sent w ++ open_messages w path
                             ++ [ReqDocumentSymbol (path_uri w path)]))),
              with_sent (sent w ++ open_messages w path
                         ++ [ReqDocumentSymbol (path_uri w path)]) (entered w path))
    | None =>
        (Ok (inr (h, on_document_symbol (server w)
                       (sent w ++ open_messages w path
                        ++ [ReqDocumentSymbol (path_uri w path)]))),
         with_sent (sent w ++ open_messages w path
                    ++ [ReqDocumentSymbol (path_uri w path)]) (entered w path))
    end.
Proof.
  intros Hok Hop Hh.
  destruct (entered_lookup w path Hok Hop) as (b0 & _ & Hlook & Hh' & _).
  rewrite Hh in Hh'. injection Hh' as ->.
  destruct (entered_fields w path) as (Hsrv & Hcache & _).
  pose proof (entered_sent_local w path Hok Hop) as Hsent.
  unfold symbols_block.
  rewrite (bind_ok _ _ _ _ _ (get_buffer_entered w path b0 Hlook)).
  unfold bind at 1. unfold gets at 1. rewrite Hcache.
  assert (send (ReqDocumentSymbol (path_uri w path)) on_document_symbol (entered w path)
          = (Ok (on_document_symbol (server w)
                   (sent w ++ open_messages w path
                    ++ [ReqDocumentSymbol (path_uri w path)])),
             with_sent (sent w ++ open_messages w path
                        ++ [ReqDocumentSymbol (path_uri w path)]) (entered w path)))
    as Hsend.
  { unfold send, write, modify, bind, gets, ret. simpl.
    rewrite Hsrv, Hsent, <- app_assoc. reflexivity. }
  destruct (document_symbols_cache w !! path) as [[fh res] |].
  - destruct (bool_decide (fh = content_hash b0)); [reflexivity |].
    rewrite (bind_ok _ _ _ _ _ Hsend). reflexivity.
  - rewrite (bind_ok _ _ _ _ _ Hsend). reflexivity.
Qed.

Lemma symbols_block_keeps_buffers path u w0 a wb :
  symbols_block path u w0 = (Ok a, wb) →
  open_file_buffers wb = open_file_buffers w0.
Proof.
  revert w0 a wb. change (restores_open_files (symbols_block path u)).
  unfold symbols_block. restores.
Qed.

(** A cached result under the current hash is returned as it is, and
    the server is not asked. *)
Lemma request_document_symbols_hit path w h result :
  server_started w = true → buffer_ok w path → openable w path →
  current_hash w path = Some h →
  document_symbols_cache w !! path = Some (h, result) →
  request_document_symbols path w =
    (Ok result,
     with_sent (sent w ++ open_messages w path ++ close_messages w path) w).
Proof.
  intros Hs Hok Hop Hh Hc.
  unfold request_document_symbols. fold (symbols_block path).
  erewrite bind_ok; cycle 1.
  { apply (with_open_file_local path _ w (inl result) (entered w path) Hs Hok Hop);
      [| reflexivity].
    rewrite (symbols_block_run path w h Hok Hop Hh), Hc.
    rewrite bool_decide_true by reflexivity. reflexivity. }
  cbv beta iota. unfold ret. rewrite entered_left by assumption. reflexivity.
Qed.

(** What a call of [request_document_symbols] that returned has done. *)
Lemma request_document_symbols_inv path w r w' :
  request_document_symbols path w = (Ok r, w') →
  ∃ h, server_started w = true ∧ buffer_ok w path ∧ openable w path
       ∧ current_hash w path = Some h
       ∧ ((document_symbols_cache w !! path = Some (h, r)
           ∧ w' = with_sent (sent w ++ open_messages w path ++ close_messages w path) w)
          ∨ (cache_miss w path
             ∧ ∃ items,
                 on_document_symbol (server w)
                   (sent w ++ open_messages w path
                    ++ [ReqDocumentSymbol (path_uri w path)]) = Some items
                 ∧ collect_symbols items [] = Ok r.1 ∧ r.2 = None
                 ∧ w' = with_flag (PyBool true)
                          (with_cache (<[path := (h, r)]> (document_symbols_cache w))
                             (with_sent
                                (sent w ++ open_messages w path
                                 ++ [ReqDocumentSymbol (path_uri w path)]
                                 ++ close_messages w path) w)))).
Proof.
  unfold request_document_symbols. fold (symbols_block path). intros Hrun.
  apply bind_inv_ok in Hrun as (a & w1 & Hscope & Hrest).
  apply with_open_file_inv_state in Hscope
    as (wb & Hs & Hok & Hop & Hbody & ->);
    [| apply symbols_block_keeps_buffers].
  destruct (entered_lookup w path Hok Hop) as (b0 & _ & _ & Hh & _).
  exists (content_hash b0). split; [exact Hs |]. split; [exact Hok |].
  split; [exact Hop |]. split; [exact Hh |].
  rewrite (symbols_block_run path w _ Hok Hop Hh) in Hbody.
  assert (∀ fh' res', document_symbols_cache w !! path = Some (fh', res') →
            fh' ≠ content_hash b0 → cache_miss w path) as Hmiss.
  { intros fh' res' Hc Hne h0 r0 Hc0 Hh0. rewrite Hc in Hc0. injection Hc0 as <- <-.
    rewrite Hh in Hh0. injection Hh0 as Hh0. congruence. }
  assert (∀ resp wq,
            (Ok (inr (content_hash b0, resp)),
             with_sent (sent w ++ open_messages w path
                        ++ [ReqDocumentSymbol (path_uri w path)]) (entered w path))
            = (Ok a, wb) →
            resp = on_document_symbol (server w)
                     (sent w ++ open_messages w path
                      ++ [ReqDocumentSymbol (path_uri w path)]) →
            cache_miss w path →
            wq = with_sent (sent wb ++ close_messages w path)
                   (with_buffers (open_file_buffers w) wb) →
            match a with
            | inl result => ret result
            | inr (file_hash, response) =>
                match response with
                | None => raise AssertionError
                | Some response =>
                    let* ret_ := lift (collect_symbols response []) in
                    let result := (ret_, None) in
                    let* _ := modify (λ w, with_cache
                                (<[path := (file_hash, result)]>
                                   (document_symbols_cache w)) w) in
                    let* _ := modify (with_flag (PyBool true)) in
                    ret result
                end
            end wq = (Ok r, w') →
            cache_miss w path
            ∧ ∃ items, resp = Some items
                ∧ collect_symbols items [] = Ok r.1 ∧ r.2 = None
                ∧ w' = with_flag (PyBool true)
                         (with_cache (<[path := (content_hash b0, r)]>
                                        (document_symbols_cache w))
                            (with_sent
                               (sent w ++ open_messages w path
                                ++ [ReqDocumentSymbol (path_uri w path)]
                                ++ close_messages w path) w))) as Hask.
  { intros resp wq Heq Hresp Hm Hwq Hfin. injection Heq as <- <-.
    split; [exact Hm |].
    destruct resp as [items |]; [| discriminate Hfin].
    exists items. split; [reflexivity |].
    apply lift_bind_inv in Hfin as (ret_ & Hcol & Hfin).
    unfold bind, modify, ret in Hfin. injection Hfin as <- <-.
    split; [exact Hcol |]. split; [reflexivity |].
    subst wq. unfold with_flag, with_cache, with_sent, with_buffers. simpl.
    rewrite <- !app_assoc.
    destruct (entered_fields w path) as (E1 & E2 & E3 & E4 & E5 & E6 & E7 & E8).
    rewrite ?E1, ?E2, ?E3, ?E4, ?E5, ?E6, ?E7, ?E8. reflexivity. }
  destruct (document_symbols_cache w !! path) as [[fh res] |] eqn:Hc.
  - destruct (bool_decide (fh = content_hash b0)) eqn:Hd.
    + left. apply bool_decide_eq_true in Hd. subst fh.
      injection Hbody as <- <-. unfold ret in Hrest. injection Hrest as <- <-.
      split; [reflexivity |]. apply entered_left; assumption.
    + right. apply bool_decide_eq_false in Hd.
      destruct (Hask _ _ Hbody eq_refl (Hmiss _ _ eq_refl Hd) eq_refl Hrest)
        as (Hm & items & Hi & Hrest').
      split; [exact Hm |]. exists items. split; [exact Hi | exact Hrest'].
  - right.
    assert (cache_miss w path) as Hm
      by (intros h0 r0 Hc0; rewrite Hc in Hc0; discriminate Hc0).
    destruct (Hask _ _ Hbody eq_refl Hm eq_refl Hrest)
      as (_ & items & Hi & Hrest').
    split; [exact Hm |]. exists items. split; [exact Hi | exact Hrest'].
Qed.

End DocSyms.

Section Always.
Context `{PathOps}.

Lemma always_bind {A B} (R : World → World → Prop) (c : M A) (f : A → M B) :
  (∀ w1 w2 w3, R w1 w2 → R w2 w3 → R w1 w3) →
  always R c → (∀ a, always R (f a)) → always R (bind c f).
Proof.
  intros Htrans Hc Hf w r w' Hrun.
  apply bind_inv in Hrun as [(a & w1 & Ha & Hb) | [(e & Ha & _) | (Ha & _)]].
  - eapply Htrans; [exact (Hc _ _ _ Ha) | exact (Hf _ _ _ _ Hb)].
  - exact (Hc _ _ _ Ha).
  - exact (Hc _ _ _ Ha).
Qed.

Lemma same_cache_trans w1 w2 w3 : same_cache w1 w2 → same_cache w2 w3 → same_cache w1 w3.
Proof. unfold same_cache. intros [-> ->] [-> ->]. split; reflexivity. Qed.

Lemma same_buffers_trans w1 w2 w3 :
  same_buffers w1 w2 → same_buffers w2 w3 → same_buffers w1 w3.
Proof. unfold same_buffers. congruence. Qed.

Lemma always_ret {A} R (a : A) : (∀ w, R w w) → always R (ret a).
Proof. intros Hr w r w' [= _ <-]. apply Hr. Qed.

Lemma always_lift {A} R (r : Res A) : (∀ w, R w w) → always R (lift r).
Proof. intros Hr w a w' [= _ <-]. apply Hr. Qed.

Lemma always_gets {A} R (f : World → A) : (∀ w, R w w) → always R (gets f).
Proof. intros Hr w a w' [= _ <-]. apply Hr. Qed.

Lemma always_raise {A} R e : (∀ w, R w w) → always R (@raise A e).
Proof. intros Hr w a w' [= _ <-]. apply Hr. Qed.

Lemma always_modify R (f : World → World) : (∀ w, R w (f w)) → always R (modify f).
Proof. intros Hf w r w' [= _ <-]. apply Hf. Qed.

Lemma always_out_of_fuel {A} R : (∀ w, R w w) → always R (λ w, (@OutOfFuel A, w)).
Proof. intros Hr w a w' [= _ <-]. apply Hr. Qed.

Lemma same_cache_refl w : same_cache w w.
Proof. split; reflexivity. Qed.

Lemma same_buffers_refl w : same_buffers w w.
Proof. reflexivity. Qed.

End Always.

(** Goals [always same_cache m] and [always same_buffers m], for [m]
    built from calls that do not store into the field. *)
Ltac always_step special :=
  first
    [ special
    | apply always_ret; first [apply same_cache_refl | apply same_buffers_refl]
    | apply always_lift; first [apply same_cache_refl | apply same_buffers_refl]
    | apply always_gets; first [apply same_cache_refl | apply same_buffers_refl]
    | apply always_raise; first [apply same_cache_refl | apply same_buffers_refl]
    | apply always_out_of_fuel; first [apply same_cache_refl | apply same_buffers_refl]
    | apply always_modify; intro; first [split; reflexivity | reflexivity]
    | apply always_bind; [first [apply same_cache_trans | apply same_buffers_trans] | |]
    | lazymatch goal with
      | |- always _ (match ?x with _ => _ end) => destruct x
      | |- always _ _ => fail
      | |- ∀ _, _ => intro
      end ].

Ltac always_using special := repeat (always_step special).
Ltac always_same := always_using fail.

Section KeepsCache.
Context `{PathOps} `{SetOrder} `{DefinitionHandler}.

Lemma open_file_enter_cache path : always same_cache (open_file_enter path).
Proof.
  unfold open_file_enter, check_started, FileUtils.read_file, put_buffer, write,
    py_assert, key.
  always_same.
Qed.

Lemma open_file_exit_cache u : always same_cache (open_file_exit u).
Proof. unfold open_file_exit, get_buffer, put_buffer, write, key. always_same. Qed.

Lemma with_open_file_cache {A} path (body : string → M A) :
  (∀ u, always same_cache (body u)) → always same_cache (with_open_file path body).
Proof.
  intros Hbody. unfold with_open_file.
  always_using ltac:(first [ apply open_file_enter_cache | apply open_file_exit_cache
                           | apply Hbody ]).
Qed.

Lemma completion_loop_cache fuel u pos : ∀ resp num,
  always same_cache (completion_loop fuel u pos resp num).
Proof.
  induction fuel as [| fuel IH]; intros resp num; cbn [completion_loop];
    destruct (keep_asking resp num).
  - always_same.
  - always_same.
  - unfold send, write. always_using ltac:(apply IH).
  - always_same.
Qed.

Lemma completion_loop_buffers fuel u pos : ∀ resp num,
  always same_buffers (completion_loop fuel u pos resp num).
Proof.
  induction fuel as [| fuel IH]; intros resp num; cbn [completion_loop];
    destruct (keep_asking resp num).
  - always_same.
  - always_same.
  - unfold send, write. always_using ltac:(apply IH).
  - always_same.
Qed.

Lemma symbols_block_cache path u : always same_cache (symbols_block path u).
Proof. unfold symbols_block, get_buffer, send, write, key. always_same. Qed.

End KeepsCache.

Section Cache.
Context `{PathOps} `{SetOrder} `{DefinitionHandler}.

(** What opening a file looks at is the same in two states with the
    same table, files and settings. *)
Lemma same_view w w' path :
  open_file_buffers w' = open_file_buffers w → files w' = files w →
  repository_root_path w' = repository_root_path w →
  ls_language_id w' = ls_language_id w →
  path_uri w' path = path_uri w path
  ∧ (buffer_ok w path → buffer_ok w' path)
  ∧ (openable w path → openable w' path)
  ∧ current_hash w' path = current_hash w path
  ∧ open_messages w' path = open_messages w path
  ∧ close_messages w' path = close_messages w path.
Proof.
  intros Hb Hf Hr Hl.
  unfold buffer_ok, openable, current_hash, open_messages, close_messages, path_uri.
  rewrite Hb, Hf, Hr, Hl.
  split; [reflexivity |]. split; [exact (λ x, x) |]. split; [exact (λ x, x) |].
  split; [reflexivity |]. split; reflexivity.
Qed.

Lemma scope_messages_do_not_ask w path :
  Forall (λ m, ¬ asks_for_symbols m) (open_messages w path ++ close_messages w path).
Proof.
  apply Forall_app. unfold open_messages, close_messages. split.
  - destruct (open_file_buffers w !! path_uri w path); [constructor |].
    destruct (files w !! _); constructor; [simpl; tauto | constructor].
  - destruct (open_file_buffers w !! path_uri w path); constructor;
      [simpl; tauto | constructor].
Qed.

(** X1.  Once [request_document_symbols] has returned for a file, asking
    again in the state it left returns the same result and writes
    nothing but what opening and closing the file write: the server is
    not asked for the symbols a second time. *)
Theorem document_symbols_served_from_cache path w r w1 :
  request_document_symbols path w = (Ok r, w1) →
  request_document_symbols path w1 =
    (Ok r, with_sent (sent w1 ++ open_messages w1 path ++ close_messages w1 path) w1)
  ∧ Forall (λ m, ¬ asks_for_symbols m)
      (open_messages w1 path ++ close_messages w1 path).
Proof.
  intros Hrun. split; [| apply scope_messages_do_not_ask].
  apply request_document_symbols_inv in Hrun
    as (h & Hs & Hok & Hop & Hh & [[Hc ->] | (_ & items & _ & _ & _ & ->)]).
  - destruct (same_view w (with_sent (sent w ++ open_messages w path
                                      ++ close_messages w path) w) path)
      as (_ & Hok' & Hop' & Hh' & _); try reflexivity.
    apply (request_document_symbols_hit path _ h r);
      [exact Hs | exact (Hok' Hok) | exact (Hop' Hop) | | exact Hc].
    rewrite Hh'. exact Hh.
  - match goal with |- request_document_symbols path ?w1 = _ =>
      destruct (same_view w w1 path) as (_ & Hok' & Hop' & Hh' & _);
        try reflexivity;
      apply (request_document_symbols_hit path w1 h r);
        [exact Hs | exact (Hok' Hok) | exact (Hop' Hop) | |]
    end.
    + rewrite Hh'. exact Hh.
    + simpl. apply lookup_insert_eq.
Qed.

Lemma get_open_file_text_ok w path b :
  server_started w = true →
  open_file_buffers w !! path_uri w path = Some b →
  get_open_file_text path w = (Ok (contents b), w).
Proof.
  intros Hs Hb.
  unfold get_open_file_text, check_started, file_uri, get_buffer, bind, gets,
    path_uri in *.
  rewrite Hs. simpl. rewrite Hb. simpl. rewrite Hb. reflexivity.
Qed.

(** X2.  The cache is checked against the hash the buffer got when it was
    made, and no edit computes that hash anew.  So when the cache holds
    the symbols of an open file under that hash, then after any edits
    of the buffer that succeed [get_open_file_text] returns the edited
    text, while [request_document_symbols] still returns the cached
    symbols, writing nothing to the server and changing nothing. *)
Theorem cached_symbols_outlive_edits path w b es T' result :
  server_started w = true →
  open_file_buffers w !! path_uri w path = Some b →
  uri b = path_uri w path → 1 ≤ ref_count b →
  document_symbols_cache w !! path = Some (content_hash b, result) →
  edit_strings es (contents b) = Some T' →
  ∃ w1, run_edits path es w = (Ok tt, w1)
        ∧ get_open_file_text path w1 = (Ok T', w1)
        ∧ request_document_symbols path w1 = (Ok result, w1).
Proof.
  intros Hs Hb Hu Hr Hc He.
  eexists. split; [apply (run_edits_ok path es w b T' Hs Hb He) |].
  set (w1 := with_sent _ _).
  assert (path_uri w1 path = path_uri w path) as Hpu by reflexivity.
  assert (open_file_buffers w1 !! path_uri w1 path
          = Some (edited b T' (Z.of_nat (length es)))) as Hb1
    by (rewrite Hpu; unfold w1; simpl; apply lookup_insert_eq).
  split.
  - apply (get_open_file_text_ok w1 path _ Hs Hb1).
  - rewrite (request_document_symbols_hit path w1 (content_hash b) result).
    + unfold open_messages, close_messages. rewrite Hb1. cbn [app].
      rewrite with_sent_id. reflexivity.
    + exact Hs.
    + intros b' Hb'. rewrite Hb1 in Hb'. injection Hb' as <-. simpl.
      rewrite Hpu. split; [exact Hu | exact Hr].
    + left. fold (path_uri w1 path). rewrite Hb1. eauto.
    + unfold current_hash. rewrite Hb1. reflexivity.
    + exact Hc.
Qed.

(** X3.  The symbols are kept from one session to the next: when a request
    for the symbols of a file that is not open has returned, with the
    flag of the cache truthy, then after [stop] a new instance made
    over the same files and the cache file left behind returns, once
    started, the same symbols for that file, and its server is never
    asked for them. *)
Theorem cached_symbols_survive_restart path w r w1 srv :
  open_file_buffers w !! path_uri w path = None →
  truthy (cache_has_changed w) = true →
  request_document_symbols path w = (Ok r, w1) →
  ∃ w3, request_document_symbols path (restarted (stop w1).2 srv) = (Ok r, w3)
        ∧ Forall (λ m, ¬ asks_for_symbols m) (sent w3).
Proof.
  intros Hclosed Hflag Hrun.
  apply request_document_symbols_inv in Hrun
    as (h & Hs & Hok & Hop & Hh & Hcases).
  assert (∃ contents,
            files w !! pure_path (repository_root_path w) path = Some contents
            ∧ h = MD5.hexdigest contents) as (contents & Hf & ->).
  { unfold current_hash in Hh. rewrite Hclosed in Hh.
    destruct (files w !! _) as [contents |]; [| discriminate].
    injection Hh as <-. eauto. }
  set (w2 := restarted (stop w1).2 srv).
  assert (repository_root_path w2 = repository_root_path w
          ∧ files w2 = files w ∧ open_file_buffers w2 = ∅
          ∧ server_started w2 = true ∧ sent w2 = []
          ∧ document_symbols_cache w2 !! path = Some (MD5.hexdigest contents, r))
    as (Hroot & Hfiles & Hbufs & Hs2 & Hsent & Hc2).
  { unfold w2, restarted, stop, start_server_exit, save_cache, init, load_cache,
      bind, gets, modify.
    destruct Hcases as [[Hc ->] | (_ & items & _ & _ & _ & ->)]; simpl.
    - rewrite Hflag. simpl. repeat split. exact Hc.
    - repeat split. apply lookup_insert_eq. }
  assert (path_uri w2 path = path_uri w path) as Hu
    by (unfold path_uri; rewrite Hroot; reflexivity).
  assert (open_file_buffers w2 !! path_uri w2 path = None) as Hnone
    by (rewrite Hbufs; apply lookup_empty).
  eexists. split.
  - apply (request_document_symbols_hit path w2 (MD5.hexdigest contents) r).
    + exact Hs2.
    + intros b Hb. rewrite Hnone in Hb. discriminate Hb.
    + right. rewrite Hroot, Hfiles. eauto.
    + unfold current_hash. rewrite Hnone, Hroot, Hfiles, Hf. reflexivity.
    + exact Hc2.
  - change (sent (with_sent ?l ?w)) with l. rewrite Hsent.
    apply scope_messages_do_not_ask.
Qed.

(** X4.  [request_document_symbols] touches the cache entry of the file it
    is asked about and no other, however it ends; when it returns, that
    entry holds the hash of the buffer it worked on together with the
    result returned; when it does not return, the cache and its flag
    are as they were. *)
Theorem symbols_cache_written_on_success_only path w res w' :
  request_document_symbols path w = (res, w') →
  (∀ p, p ≠ path →
        document_symbols_cache w' !! p = document_symbols_cache w !! p)
  ∧ match res with
    | Ok result =>
        ∃ h, current_hash w path = Some h
             ∧ document_symbols_cache w' !! path = Some (h, result)
    | _ => same_cache w w'
    end.
Proof.
  intros Hrun.
  destruct res as [result | e |].
  - apply request_document_symbols_inv in Hrun
      as (h & _ & _ & _ & Hh & [[Hc ->] | (_ & items & _ & _ & _ & ->)]).
    + split; [reflexivity |]. exists h. split; [exact Hh | exact Hc].
    + split; [intros p Hp; simpl; apply lookup_insert_ne; congruence |].
      exists h. split; [exact Hh | simpl; apply lookup_insert_eq].
  - assert (same_cache w w') as Hsame; [| split; [| exact Hsame]].
    2: { intros p _. destruct Hsame as [-> _]. reflexivity. }
    unfold request_document_symbols in Hrun. fold (symbols_block path) in Hrun.
    apply bind_inv in Hrun as [(a & w1 & Ha & Hb) | [(e' & Ha & _) | (_ & [=])]].
    + pose proof (with_open_file_cache path _ (symbols_block_cache path) _ _ _ Ha)
        as Hscope.
      destruct a as [result | [fh [items |]]].
      * discriminate Hb.
      * unfold bind, lift in Hb.
        destruct (collect_symbols items []); try discriminate Hb.
        injection Hb as _ <-. exact Hscope.
      * injection Hb as _ <-. exact Hscope.
    + exact (with_open_file_cache path _ (symbols_block_cache path) _ _ _ Ha).
  - assert (same_cache w w') as Hsame; [| split; [| exact Hsame]].
    2: { intros p _. destruct Hsame as [-> _]. reflexivity. }
    unfold request_document_symbols in Hrun. fold (symbols_block path) in Hrun.
    apply bind_inv in Hrun as [(a & w1 & Ha & Hb) | [(e' & _ & [=]) | (Ha & _)]].
    + pose proof (with_open_file_cache path _ (symbols_block_cache path) _ _ _ Ha)
        as Hscope.
      destruct a as [result | [fh [items |]]].
      * discriminate Hb.
      * unfold bind, lift in Hb.
        destruct (collect_symbols items []); try discriminate Hb.
        injection Hb as <-. exact Hscope.
      * discriminate Hb.
    + exact (with_open_file_cache path _ (symbols_block_cache path) _ _ _ Ha).
Qed.

End Cache.

Section Guards.
Context `{PathOps} `{SetOrder} `{DefinitionHandler}.

Lemma check_started_refused w : server_started w = false → refused check_started w.
Proof. intros Hs. unfold refused, check_started, bind, gets. rewrite Hs. reflexivity. Qed.

Lemma bind_refused {A B} (c : M A) (f : A → M B) w :
  refused c w → refused (bind c f) w.
Proof. intros Hc. unfold refused in *. apply bind_raise. exact Hc. Qed.

Lemma open_file_enter_refused path w :
  server_started w = false → refused (open_file_enter path) w.
Proof. intros Hs. apply bind_refused, check_started_refused, Hs. Qed.

Lemma with_open_file_refused {A} path (body : string → M A) w :
  server_started w = false → refused (with_open_file path body) w.
Proof. intros Hs. apply bind_refused, open_file_enter_refused, Hs. Qed.

(** X5.  While the server is not started, entering [open_file] (and so any
    [with] block over it), [insert_text_at_position],
    [delete_text_between_positions] and [get_open_file_text] raise
    [MultilspyException] with the text [Language Server not started]
    and leave the state as it was. *)
Theorem buffer_methods_refused_before_start {A} path (body : string → M A)
    l c x st en w :
  server_started w = false →
  refused (open_file_enter path) w
  ∧ refused (with_open_file path body) w
  ∧ refused (insert_text_at_position path l c x) w
  ∧ refused (delete_text_between_positions path st en) w
  ∧ refused (get_open_file_text path) w.
Proof.
  intros Hs.
  split; [apply open_file_enter_refused, Hs |].
  split; [apply with_open_file_refused, Hs |].
  repeat split; apply bind_refused, check_started_refused, Hs.
Qed.

(** X6.  While the server is not started, [request_definition],
    [request_references], [request_completions],
    [request_document_symbols], [request_containing_symbol],
    [request_referencing_symbols] and [request_defining_symbol] raise
    [MultilspyException] with the text [Language Server not started],
    and leave the state as it was: nothing is written to the server.
    So does [request_container_of_symbol] on a symbol that carries a
    location with a [relativePath], which the method reads first. *)
Theorem requests_refused_before_start fuel path l c allow column strict
    include_imports include_self w :
  server_started w = false →
  refused (request_definition path l c) w
  ∧ refused (request_references path l c) w
  ∧ refused (request_completions fuel path l c allow) w
  ∧ refused (request_document_symbols path) w
  ∧ refused (request_containing_symbol path l column strict) w
  ∧ refused (request_referencing_symbols path l c include_imports include_self) w
  ∧ refused (request_defining_symbol path l c) w
  ∧ (∀ symbol location rel,
       s_location symbol = Some location → l_relativePath location = Some rel →
       refused (request_container_of_symbol symbol) w).
Proof.
  intros Hs.
  assert (∀ p l0 col s, refused (request_containing_symbol p l0 col s) w) as Hcont.
  { intros p l0 col s. unfold request_containing_symbol.
    unfold refused, bind at 1, gets at 1.
    apply bind_refused. unfold line_is_blank.
    unfold refused, bind at 1, gets at 1.
    apply with_open_file_refused, Hs. }
  split; [apply bind_refused, check_started_refused, Hs |].
  split; [apply bind_refused, check_started_refused, Hs |].
  split; [apply with_open_file_refused, Hs |].
  split; [apply bind_refused, with_open_file_refused, Hs |].
  split; [apply Hcont |].
  split; [apply bind_refused, check_started_refused, Hs |].
  split; [apply bind_refused, check_started_refused, Hs |].
  intros symbol location rel Hloc Hrel.
  unfold request_container_of_symbol, refused, bind, py_assert, key.
  rewrite Hloc. rewrite bool_decide_true by eauto. simpl. rewrite Hrel. simpl.
  apply Hcont.
Qed.

(** X7.  On a started server, [insert_text_at_position],
    [delete_text_between_positions] and [get_open_file_text] on a file
    that is not in the table of open files fail their assertion and
    leave the state as it was. *)
Theorem edit_of_unopened_file_fails path l c x st en w :
  server_started w = true →
  open_file_buffers w !! path_uri w path = None →
  insert_text_at_position path l c x w = (Raise AssertionError, w)
  ∧ delete_text_between_positions path st en w = (Raise AssertionError, w)
  ∧ get_open_file_text path w = (Raise AssertionError, w).
Proof.
  intros Hs Hb.
  unfold insert_text_at_position, delete_text_between_positions, get_open_file_text,
    check_started, file_uri, bind, gets, path_uri in *.
  rewrite Hs. simpl. rewrite Hb. simpl. repeat split.
Qed.

(** X8.  An edit raises the version of the buffer before it looks up
    its positions.  When a position is one the text does not have, the
    edit raises with the version already raised by one, the contents as
    they were and no [didChange] written; the next insert that succeeds
    then announces the version after that one, so the server never
    sees the version in between. *)
Theorem failed_edit_bumps_version path l c x st en w b :
  server_started w = true →
  open_file_buffers w !! path_uri w path = Some b →
  let w' :=
    with_buffers
      (<[path_uri w path := set_version (version b + 1) b]> (open_file_buffers w))
      w in
  (TextUtils.get_index_from_line_col (contents b) l c = None →
   insert_text_at_position path l c x w = (Raise AssertionError, w'))
  ∧ (TextUtils.get_index_from_line_col (contents b) (line st) (character st) = None
     ∨ TextUtils.get_index_from_line_col (contents b) (line en) (character en) = None →
     delete_text_between_positions path st en w = (Raise AssertionError, w'))
  ∧ (∀ l' c' x' i,
       TextUtils.get_index_from_line_col (contents b) l' c' = Some i →
       ∃ w'', insert_text_at_position path l' c' x' w'
                = (Ok (updated_position l' c' x'), w'')
              ∧ sent w'' = sent w ++ [DidChange (version b + 2) (uri b)
                                        (mkRange (mkPosition l' c') (mkPosition l' c'))
                                        x']).
Proof.
  intros Hs Hb w'. split; [| split]; cycle 2.
  - intros l' c' x' i Hi. eexists. split.
    + apply (insert_text_at_position_ok w' path l' c' x'
               (set_version (version b + 1) b) i).
      * exact Hs.
      * unfold w', path_uri. simpl. apply lookup_insert_eq.
      * exact Hi.
    + simpl. replace (version b + 1 + 1) with (version b + 2) by lia. reflexivity.
  - intros Hi.
    unfold insert_text_at_position, check_started, file_uri, get_buffer, put_buffer,
      bind, gets, modify, py_assert, key, path_uri in *.
    rewrite Hs. simpl. rewrite Hb. simpl. rewrite Hb. simpl. rewrite Hi. reflexivity.
  - intros Hi.
    unfold delete_text_between_positions, check_started, file_uri, get_buffer,
      put_buffer, bind, gets, modify, py_assert, key, path_uri in *.
    rewrite Hs. simpl. rewrite Hb. simpl. rewrite Hb. simpl.
    destruct Hi as [Hi | Hi].
    + rewrite Hi. reflexivity.
    + rewrite Hi.
      destruct (TextUtils.get_index_from_line_col (contents b) (line st) (character st));
        reflexivity.
Qed.

(** X9.  After edits of an open file that succeed, [get_open_file_text]
    returns the edited text; the files on disk are not written. *)
Theorem open_file_text_follows_edits path w b es T' :
  server_started w = true →
  open_file_buffers w !! path_uri w path = Some b →
  edit_strings es (contents b) = Some T' →
  (let* _ := run_edits path es in get_open_file_text path) w
    = (Ok T', (run_edits path es w).2)
  ∧ files (run_edits path es w).2 = files w.
Proof.
  intros Hs Hb He.
  pose proof (run_edits_ok path es w b T' Hs Hb He) as Hrun.
  rewrite (bind_ok _ _ _ _ _ Hrun), Hrun. cbn [snd]. split; [| reflexivity].
  apply (get_open_file_text_ok _ path (edited b T' (Z.of_nat (length es)))).
  - exact Hs.
  - unfold path_uri. simpl. apply lookup_insert_eq.
Qed.

(** X10.  Every request that returns leaves the table of open files exactly
    as it found it: the files it opened are closed again, and the
    buffers that were open before have the reference counts they
    had. *)
Theorem requests_restore_open_files :
  (∀ path, restores_open_files (request_document_symbols path))
  ∧ (∀ path l c, restores_open_files (request_references path l c))
  ∧ (∀ path l c, restores_open_files (request_definition path l c))
  ∧ (∀ fuel path l c allow,
       restores_open_files (request_completions fuel path l c allow))
  ∧ (∀ path l column strict,
       restores_open_files (request_containing_symbol path l column strict))
  ∧ (∀ path l c include_imports include_self,
       restores_open_files
         (request_referencing_symbols path l c include_imports include_self))
  ∧ (∀ symbol, restores_open_files (request_container_of_symbol symbol))
  ∧ (∀ path l c, restores_open_files (request_defining_symbol path l c)).
Proof.
  split; [exact request_document_symbols_restores |].
  split; [exact request_references_restores |].
  split; [exact request_definition_restores |].
  split; [exact request_completions_restores |].
  split; [exact request_containing_symbol_restores |].
  split; [exact request_referencing_symbols_restores |].
  split; [exact request_container_of_symbol_restores |].
  exact request_defining_symbol_restores.
Qed.

(** The retry loop on a server that has no answer. *)
Lemma completion_loop_none fuel u pos : ∀ num w,
  (∀ h, on_completion (server w) h = CompletionNone) →
  ∃ w', completion_loop fuel u pos None num w = (OutOfFuel, w')
        ∧ sent w' = sent w ++ replicate fuel (ReqCompletion u pos)
        ∧ open_file_buffers w' = open_file_buffers w.
Proof.
  induction fuel as [| fuel IH]; intros num w Hnone.
  - exists w. simpl. rewrite app_nil_r. auto.
  - rewrite completion_loop_step by reflexivity. rewrite Hnone.
    destruct (IH (num + 1) (with_sent (sent w ++ [ReqCompletion u pos]) w) Hnone)
      as (w' & Hrun & Hsent & Hbufs).
    exists w'. split; [exact Hrun |]. split; [| exact Hbufs].
    rewrite Hsent. simpl. rewrite <- app_assoc. reflexivity.
Qed.

(** X11.  A [None] answer to a completion request is retried without a
    bound: with a server that answers [None] to every completion
    request, [request_completions] does not return whatever number of
    rounds it is given, and every round writes one more request. *)
Theorem completions_never_return_on_none path l c allow w :
  server_started w = true → buffer_ok w path → openable w path →
  (∀ h, on_completion (server w) h = CompletionNone) →
  ∀ fuel, ∃ w',
    request_completions fuel path l c allow w = (OutOfFuel, w')
    ∧ sent w' = sent w ++ open_messages w path
                ++ replicate fuel (ReqCompletion (path_uri w path) (mkPosition l c)).
Proof.
  intros Hs Hok Hop Hnone fuel.
  destruct (entered_lookup w path Hok Hop) as (b0 & _ & Hlook & _ & Hu & _).
  destruct (entered_fields w path) as (Hsrv & _).
  destruct (completion_loop_none fuel (path_uri w path) (mkPosition l c) 0
              (entered w path)) as (w' & Hrun & Hsent & _).
  { intros h. rewrite Hsrv. apply Hnone. }
  exists w'. split.
  - unfold request_completions, with_open_file.
    rewrite (bind_ok _ _ _ _ _ (open_file_enter_local w path Hs Hok Hop)).
    unfold bind at 1.
    rewrite (bind_ok _ _ _ _ _ (get_buffer_entered w path b0 Hlook)).
    rewrite Hu. unfold bind at 1. rewrite Hrun. reflexivity.
  - rewrite Hsent, (entered_sent_local w path Hok Hop), <- app_assoc. reflexivity.
Qed.

End Guards.

(** ** List comprehensions and [max] *)

Lemma filterE_spec {A} (f : A → Res bool) l l' :
  filterE f l = Ok l' →
  (∀ x, x ∈ l → ∃ b, f x = Ok b)
  ∧ (∀ x, x ∈ l' ↔ x ∈ l ∧ f x = Ok true).
Proof.
  revert l'. induction l as [| y l IH]; intros l' Hf; simpl in Hf.
  - injection Hf as <-. split; [intros x Hx; inversion Hx |].
    intros x. split; [intros Hx; inversion Hx | intros [Hx _]; inversion Hx].
  - destruct (f y) as [keep | |] eqn:Hy; simpl in Hf; try discriminate.
    destruct (filterE f l) as [rest | |]; simpl in Hf; try discriminate.
    injection Hf as <-. destruct (IH rest eq_refl) as [Htot Hin]. split.
    + intros x Hx. apply elem_of_cons in Hx as [-> | Hx]; [eauto | apply Htot, Hx].
    + intros x. destruct keep.
      * rewrite !elem_of_cons, Hin. split.
        -- intros [-> | [Hx Hfx]]; auto.
        -- intros [[-> | Hx] Hfx]; auto.
      * rewrite elem_of_cons, Hin. split.
        -- intros [Hx Hfx]; auto.
        -- intros [[-> | Hx] Hfx]; [congruence | auto].
Qed.

Lemma py_max_spec {A} (key : A → Z) (x : A) (l : list A) :
  py_max key x l ∈ x :: l ∧ ∀ y, y ∈ x :: l → key y ≤ key (py_max key x l).
Proof.
  destruct (py_max_first key l x) as (pre & post & Heq & Hpre & Hpost).
  rewrite Heq. split.
  - apply elem_of_app. right. left.
  - intros y Hy. apply elem_of_app in Hy as [Hy | Hy].
    + rewrite Forall_forall in Hpre. specialize (Hpre y Hy). lia.
    + apply elem_of_cons in Hy as [-> | Hy]; [lia |].
      rewrite Forall_forall in Hpost. exact (Hpost y Hy).
Qed.

(** ** The symbol [request_containing_symbol] picks *)

Lemma location_range_ok s r :
  location_range s = Ok r ↔ ∃ location, s_location s = Some location ∧ l_range location = r.
Proof.
  unfold location_range, Pure.key. destruct (s_location s) as [loc |]; simpl.
  - split; [intros [= <-]; eauto | intros (? & [= <-] & <-); reflexivity].
  - split; [discriminate | intros (? & [=] & _)].
Qed.

Lemma innermost_container_spec column strict l symbols res :
  innermost_container column strict l symbols = Ok res →
  match res with
  | Some s =>
      s ∈ symbols
      ∧ candidate_container s = true
      ∧ contains_position column strict l s = true
      ∧ ∀ s', s' ∈ symbols → candidate_container s' = true →
              contains_position column strict l s' = true →
              start_line s' ≤ start_line s
  | None =>
      ∀ s', s' ∈ symbols → candidate_container s' = true →
            contains_position column strict l s' = false
  end.
Proof.
  unfold innermost_container.
  match goal with |- context [filterE ?f symbols] =>
    destruct (filterE f symbols) as [cands | |] eqn:Hcands
  end; simpl; try discriminate.
  match goal with |- context [filterE ?f symbols] =>
    destruct (filterE f symbols) as [vars | |] eqn:Hvars
  end; simpl; try discriminate.
  apply filterE_spec in Hcands as [_ Hcands].
  apply filterE_spec in Hvars as [_ Hvars].
  assert (∀ s, s ∈ cands ++ vars ↔ s ∈ symbols ∧ candidate_container s = true)
    as Hcand.
  { intros s. rewrite elem_of_app, Hcands, Hvars. unfold candidate_container, Pure.key.
    destruct (s_kind s) as [k |]; simpl.
    - unfold location_range, Pure.key.
      destruct (bool_decide (k = SymbolKind.Variable_)) eqn:Hv; simpl.
      + split; [intros [[Hs _] | [Hs _]]; auto | intros [Hs _]; right; auto].
      + destruct (bool_decide (k = SymbolKind.Method_)
                  || bool_decide (k = SymbolKind.Function_)
                  || bool_decide (k = SymbolKind.Class_)); simpl.
        * destruct (s_location s) as [loc |]; simpl.
          -- split.
             ++ intros [[Hs [= Hl]] | [_ [=]]]. auto.
             ++ intros [Hs Hl]. left. rewrite Hl. auto.
          -- split; [intros [[_ [=]] | [_ [=]]] | intros [_ [=]]].
        * split; [intros [[_ [=]] | [_ [=]]] | intros [_ [=]]].
    - split; [intros [[_ [=]] | [_ [=]]] | intros [_ [=]]]. }
  destruct (cands ++ vars) as [| c0 cs] eqn:Hall.
  - intros [= <-]. intros s' Hs' Hc'.
    assert (s' ∈ @nil Symbol) as Hin by (apply Hcand; auto). inversion Hin.
  - destruct (filterE _ (c0 :: cs)) as [containing | |] eqn:Hcont;
      simpl; try discriminate.
    apply filterE_spec in Hcont as [Htot Hcont].
    assert (∀ s, s ∈ c0 :: cs →
              ∃ b, contains_position column strict l s = b
                   ∧ (s ∈ containing ↔ b = true)) as Hpos.
    { intros s Hs. destruct (Htot s Hs) as [b Hb].
      destruct (location_range s) as [r | |] eqn:Hr; simpl in Hb; try discriminate.
      apply location_range_ok in Hr as (loc & Hloc & <-).
      exists (is_position_in_range column strict l (l_range loc)).
      unfold contains_position. rewrite Hloc. split; [reflexivity |].
      rewrite Hcont. unfold location_range, Pure.key. rewrite Hloc. simpl.
      split; [intros [_ [= ->]]; reflexivity | intros ->; auto]. }
    destruct containing as [| x rest].
    + intros [= <-]. intros s' Hs' Hc'.
      assert (s' ∈ c0 :: cs) as Hin by (apply Hcand; auto).
      destruct (Hpos s' Hin) as (b & Hb & Hiff). rewrite Hb.
      destruct b; [| reflexivity].
      assert (s' ∈ @nil Symbol) as Hnil by (apply Hiff; reflexivity). inversion Hnil.
    + intros [= <-].
      destruct (py_max_spec start_line x rest) as [Hin Hmax].
      set (m := py_max start_line x rest) in *.
      assert (m ∈ c0 :: cs) as Hmc by (apply Hcont in Hin as [Hin _]; exact Hin).
      apply Hcand in Hmc as Hm. destruct Hm as [Hms Hmk].
      split; [exact Hms |]. split; [exact Hmk |]. split.
      * destruct (Hpos m Hmc) as (b & Hb & Hiff). rewrite Hb. apply Hiff. exact Hin.
      * intros s' Hs' Hc' Hp'. apply Hmax.
        assert (s' ∈ c0 :: cs) as Hin' by (apply Hcand; auto).
        destruct (Hpos s' Hin') as (b & Hb & Hiff). apply Hiff. congruence.
Qed.

(** ** The locations [request_containing_symbol] adds *)

Lemma add_location_spec abs rel s s' :
  add_location abs rel s = Some s' →
  located_at abs rel s'
  ∧ s_name s' = s_name s ∧ s_kind s' = s_kind s ∧ s_range s' = s_range s
  ∧ s_selectionRange s' = s_selectionRange s ∧ s_children s' = s_children s.
Proof.
  unfold add_location, located_at.
  destruct (s_location s) as [loc |]; simpl.
  - intros [= <-]. simpl. split; [eexists; repeat split |]. repeat split.
  - destruct (s_range s) as [r |]; simpl; [| discriminate].
    intros [= <-]. simpl. split; [eexists; repeat split |]. repeat split.
Qed.

Lemma add_locations_spec abs rel symbols : ∀ symbols',
  add_locations abs rel symbols = (symbols', true) →
  Forall (located_at abs rel) symbols'
  ∧ s_name <$> symbols' = s_name <$> symbols
  ∧ s_kind <$> symbols' = s_kind <$> symbols.
Proof.
  induction symbols as [| s rest IH]; intros symbols' Hrun; simpl in Hrun.
  - injection Hrun as <-. repeat split. constructor.
  - destruct (add_location abs rel s) as [s' |] eqn:Hs; [| discriminate].
    destruct (add_locations abs rel rest) as [rest' ok] eqn:Hrest.
    injection Hrun as <- ->.
    destruct (IH rest' eq_refl) as (Hall & Hn & Hk).
    apply add_location_spec in Hs as (Hloc & Hn' & Hk' & _).
    split; [constructor; assumption |].
    rewrite !fmap_cons. split; congruence.
Qed.

Section Containing.
Context `{PathOps} `{SetOrder} `{DefinitionHandler}.

Lemma blank_block_keeps_buffers abs l w0 a wb :
  (let* content := FileUtils.read_file abs in
   let* text := lift (Pure.item (Py.split Py.NL content) l) in
   ret (bool_decide (Py.strip text = ""))) w0 = (Ok a, wb) →
  open_file_buffers wb = open_file_buffers w0.
Proof.
  revert w0 a wb.
  change (restores_open_files
            (let* content := FileUtils.read_file abs in
             let* text := lift (Pure.item (Py.split Py.NL content) l) in
             ret (bool_decide (Py.strip text = "")))).
  restores.
Qed.

(** The check for an empty line, when it returns. *)
Lemma line_is_blank_inv path l w blank wa :
  line_is_blank path l w = (Ok blank, wa) →
  server_started w = true ∧ buffer_ok w path ∧ openable w path
  ∧ wa = with_sent (sent w ++ open_messages w path ++ close_messages w path) w
  ∧ ∃ content text,
      files w !! pure_path (repository_root_path w) path = Some content
      ∧ Py.index (Py.split Py.NL content) l = Some text
      ∧ blank = bool_decide (Py.strip text = "").
Proof.
  unfold line_is_blank. unfold bind at 1, gets at 1. intros Hrun.
  apply with_open_file_inv_state in Hrun as (wb & Hs & Hok & Hop & Hbody & ->);
    [| intros u w0 a wb; apply (blank_block_keeps_buffers _ l)].
  split; [exact Hs |]. split; [exact Hok |]. split; [exact Hop |].
  destruct (entered_fields w path) as (_ & _ & _ & Hfiles & _).
  unfold FileUtils.read_file, bind, gets, lift, Pure.item, ret in Hbody.
  rewrite Hfiles in Hbody.
  destruct (files w !! pure_path (repository_root_path w) path) as [content |] eqn:Hf;
    [| discriminate].
  destruct (Py.index (Py.split Py.NL content) l) as [text |] eqn:Hi; [| discriminate].
  injection Hbody as <- <-.
  split; [apply entered_left; assumption |].
  exists content, text. auto.
Qed.

(** A call of [request_containing_symbol] that found a symbol. *)
Lemma request_containing_symbol_inv path l column strict w s w' :
  request_containing_symbol path l column strict w = (Ok (Some s), w') →
  ∃ wa raw tree wb symbols,
    line_is_blank path l w = (Ok false, wa)
    ∧ request_document_symbols path wa = (Ok (raw, tree), wb)
    ∧ add_locations (pure_path (repository_root_path w) path) path raw
      = (symbols, true)
    ∧ innermost_container column strict l symbols = Ok (Some s)
    ∧ w' = with_cache
             (alter (λ e, (e.1, (symbols, e.2.2))) path (document_symbols_cache wb))
             wb.
Proof.
  unfold request_containing_symbol. unfold bind at 1, gets at 1. intros Hrun.
  apply bind_inv_ok in Hrun as (blank & wa & Hblank & Hrun).
  destruct blank; [discriminate Hrun |].
  apply bind_inv_ok in Hrun as ([raw tree] & wb & Hsyms & Hrun).
  destruct (add_locations _ path raw) as [symbols ok] eqn:Hadd.
  unfold bind at 1, modify at 1 in Hrun.
  destruct ok; simpl in Hrun; [| discriminate Hrun].
  unfold lift in Hrun. injection Hrun as Hinner <-.
  exists wa, raw, tree, wb, symbols. auto.
Qed.

(** X12.  A symbol [request_containing_symbol] returns carries a location
    that names the file asked about ([uri] is [file:/] followed by the
    absolute path, [absolutePath] and [relativePath] are set), is a
    candidate container (a variable, or a class, function or method
    spanning more than one line), and the range of its location holds
    the position asked about, strictly or not as asked. *)
Theorem containing_symbol_contains_position path l column strict w s w' :
  request_containing_symbol path l column strict w = (Ok (Some s), w') →
  located_at (pure_path (repository_root_path w) path) path s
  ∧ candidate_container s = true
  ∧ contains_position column strict l s = true.
Proof.
  intros Hrun.
  apply request_containing_symbol_inv in Hrun
    as (wa & raw & tree & wb & symbols & _ & _ & Hadd & Hinner & _).
  apply add_locations_spec in Hadd as (Hall & _).
  apply innermost_container_spec in Hinner as (Hin & Hc & Hp & _).
  rewrite Forall_forall in Hall. auto.
Qed.

(** X13.  The choice [request_containing_symbol] makes among the symbols of
    the file: a symbol returned is one of them, a candidate whose range
    holds the position, and no candidate holding the position starts on
    a later line; [None] is returned only when no candidate holds the
    position. *)
Theorem innermost_container_is_greatest column strict l symbols :
  match innermost_container column strict l symbols with
  | Ok (Some s) =>
      s ∈ symbols
      ∧ candidate_container s = true
      ∧ contains_position column strict l s = true
      ∧ ∀ s', s' ∈ symbols → candidate_container s' = true →
              contains_position column strict l s' = true →
              start_line s' ≤ start_line s
  | Ok None =>
      ∀ s', s' ∈ symbols → candidate_container s' = true →
            contains_position column strict l s' = false
  | _ => True
  end.
Proof.
  destruct (innermost_container column strict l symbols) as [res | |] eqn:Hrun;
    [| exact I | exact I].
  apply innermost_container_spec in Hrun. destruct res; exact Hrun.
Qed.

(** X14.  The container [request_container_of_symbol] returns for a symbol
    lies in the same file ([relativePath]), starts on an earlier line
    and at a smaller column than the symbol, ends on or after the line
    the symbol starts on, and is never the symbol itself. *)
Theorem container_of_symbol_starts_before symbol w s w' :
  request_container_of_symbol symbol w = (Ok (Some s), w') →
  ∃ location location',
    s_location symbol = Some location
    ∧ s_location s = Some location'
    ∧ l_relativePath location' = l_relativePath location
    ∧ line (r_start (l_range location')) < line (r_start (l_range location))
      ≤ line (r_end (l_range location'))
    ∧ character (r_start (l_range location'))
      < character (r_start (l_range location))
    ∧ s ≠ symbol.
Proof.
  unfold request_container_of_symbol. intros Hrun.
  apply bind_inv_ok in Hrun as ([] & w0 & Hassert & Hrun).
  destruct (s_location symbol) as [location |] eqn:Hloc; [| discriminate Hassert].
  unfold py_assert in Hassert. rewrite bool_decide_true in Hassert by eauto.
  injection Hassert as <-.
  unfold bind at 1, key at 1, ret at 1 in Hrun.
  apply bind_inv_ok in Hrun as (rel & w1 & Hrel & Hrun).
  destruct (l_relativePath location) as [rel' |] eqn:Hrel'; [| discriminate Hrel].
  injection Hrel as <- <-.
  apply request_containing_symbol_inv in Hrun
    as (wa & raw & tree & wb & symbols & _ & _ & Hadd & Hinner & _).
  apply add_locations_spec in Hadd as (Hall & _).
  apply innermost_container_spec in Hinner as (Hin & _ & Hp & _).
  rewrite Forall_forall in Hall.
  destruct (Hall s Hin) as (location' & Hloc' & _ & _ & Hrel'').
  exists location, location'. split; [reflexivity |]. split; [exact Hloc' |].
  split; [congruence |].
  unfold contains_position in Hp. rewrite Hloc' in Hp.
  unfold is_position_in_range in Hp.
  apply andb_true_iff in Hp as [Hp Hcol]. apply andb_true_iff in Hp as [Hend Hstart].
  apply Z.leb_le in Hend. apply Z.ltb_lt in Hstart. apply Z.ltb_lt in Hcol.
  split; [lia |]. split; [exact Hcol |].
  intros ->. rewrite Hloc in Hloc'. injection Hloc' as <-. lia.
Qed.

(** X15.  [request_containing_symbol] adds the locations to the very symbols
    the cache holds.  After it has returned a symbol,
    [request_document_symbols] for the same file returns, with no
    request for symbols written to the server, symbols that all carry a
    location naming the file, the symbol returned among them. *)
Theorem containing_symbol_leaves_locations_in_cache path l column strict w s w1 :
  request_containing_symbol path l column strict w = (Ok (Some s), w1) →
  ∃ symbols tree w2 written,
    request_document_symbols path w1 = (Ok (symbols, tree), w2)
    ∧ Forall (located_at (pure_path (repository_root_path w) path) path) symbols
    ∧ s ∈ symbols
    ∧ sent w2 = sent w1 ++ written
    ∧ Forall (λ m, ¬ asks_for_symbols m) written.
Proof.
  intros Hrun.
  apply request_containing_symbol_inv in Hrun
    as (wa & raw & tree & wb & symbols & Hblank & Hsyms & Hadd & Hinner & ->).
  apply line_is_blank_inv in Hblank as (Hs & Hok & Hop & -> & _).
  set (wa := with_sent _ w) in *.
  apply request_document_symbols_inv in Hsyms as (h & _ & _ & _ & Hh & Hcases).
  destruct (same_view w wa path) as (_ & Hoka & Hopa & Hha & _); try reflexivity.
  assert (open_file_buffers wb = open_file_buffers w ∧ files wb = files w
          ∧ repository_root_path wb = repository_root_path w
          ∧ ls_language_id wb = ls_language_id w
          ∧ server_started wb = server_started w
          ∧ document_symbols_cache wb !! path = Some (h, (raw, tree)))
    as (Eb & Ef & Er & El & Es & Hc).
  { destruct Hcases as [[Hc ->] | (_ & items & _ & _ & _ & ->)].
    - repeat split. exact Hc.
    - repeat split. simpl. apply lookup_insert_eq. }
  set (w1 := with_cache _ wb).
  destruct (same_view w w1 path) as (_ & Hok1 & Hop1 & Hh1 & _); try assumption.
  exists symbols, tree. eexists. eexists. split; [| split; [| split; [| split]]].
  - apply (request_document_symbols_hit path w1 h (symbols, tree)).
    + unfold w1. simpl. rewrite Es. exact Hs.
    + apply Hok1, Hok.
    + apply Hop1, Hop.
    + rewrite Hh1, <- Hha. exact Hh.
    + unfold w1. change (document_symbols_cache (with_cache ?c _)) with c.
      rewrite lookup_alter_eq. unfold CacheEntry in *. rewrite Hc. reflexivity.
  - apply add_locations_spec in Hadd as (Hall & _). exact Hall.
  - apply innermost_container_spec in Hinner as (Hin & _). exact Hin.
  - reflexivity.
  - apply scope_messages_do_not_ask.
Qed.

End Containing.

Section Locations.
Context `{PathOps} `{SetOrder} `{DefinitionHandler}.

(** A request sent inside a scope of its own. *)
Lemma send_in_scope {A} path (mk : string → Msg) (answer : Server → list Msg → A) w :
  server_started w = true → buffer_ok w path → openable w path →
  let m := mk (path_uri w path) in
  with_open_file path (λ u, send (mk u) answer) w =
    (Ok (answer (server w) (asked_in_scope w path m)), after_scope w path m).
Proof.
  intros Hs Hok Hop m.
  destruct (entered_fields w path) as (Hsrv & _).
  rewrite (with_open_file_local path _ w
             (answer (server w) (asked_in_scope w path m))
             (with_sent (sent (entered w path) ++ [m]) (entered w path)) Hs Hok Hop).
  - f_equal. unfold after_scope, asked_in_scope. rewrite <- !app_assoc.
    etrans; [| apply (entered_left w path ([m] ++ close_messages w path) Hok Hop)].
    unfold with_sent, with_buffers. simpl. rewrite <- app_assoc. reflexivity.
  - unfold send, write, modify, bind, gets, ret. simpl.
    rewrite Hsrv, (entered_sent_local w path Hok Hop).
    unfold asked_in_scope. rewrite <- !app_assoc. reflexivity.
  - reflexivity.
Qed.




Lemma mapE_length {A B} (f : A → Res B) l : ∀ l',
  mapE f l = Ok l' → length l' = length l.
Proof.
  induction l as [| x l IH]; intros l' Hf; simpl in Hf.
  - injection Hf as <-. reflexivity.
  - destruct (f x) as [y | |]; simpl in Hf; try discriminate.
    destruct (mapE f l) as [rest | |]; simpl in Hf; try discriminate.
    injection Hf as <-. simpl. rewrite (IH rest eq_refl). reflexivity.
Qed.


(** X17.  On a started server and a file that can be opened,
    [request_references] writes its request between what opening and
    closing the file write and returns one location per item of the
    answer, in the order of the answer, with the paths of its uri
    added; a [None] answer fails the assertion.  The file is closed
    again in both cases. *)
Theorem references_answer path l c w :
  server_started w = true → buffer_ok w path → openable w path →
  let m := ReqReferences (path_uri w path) (mkPosition l c) in
  let root := repository_root_path w in
  request_references path l c w =
    (match on_references (server w) (asked_in_scope w path m) with
     | Some response =>
         Ok ((λ item, definition_location root (l_uri item) (l_range item))
             <$> response)
     | None => Raise AssertionError
     end,
     after_scope w path m).
Proof.
  intros Hs Hok Hop. cbv zeta. unfold request_references.
  rewrite (bind_ok _ _ _ tt w) by (unfold check_started, bind, gets; rewrite Hs; reflexivity).
  rewrite (bind_ok _ _ _ _ _
             (send_in_scope path (λ u, ReqReferences u (mkPosition l c)) _ w Hs Hok Hop)).
  unfold bind at 1, gets at 1.
  change (repository_root_path (after_scope w path ?m)) with (repository_root_path w).
  destruct (on_references (server w) _); reflexivity.
Qed.


(** X19.  A symbol [request_defining_symbol] returns belongs to the file of
    the first location [request_definition] returns for the position,
    is a candidate container, and the range of its location holds the
    start of that first location (line and column, not strictly). *)
Theorem defining_symbol_contains_definition path l c w s w' :
  request_defining_symbol path l c w = (Ok (Some s), w') →
  ∃ definition rest w1 def_path,
    request_definition path l c w = (Ok (definition :: rest), w1)
    ∧ l_relativePath definition = Some def_path
    ∧ located_at (pure_path (repository_root_path w) def_path) def_path s
    ∧ candidate_container s = true
    ∧ contains_position (Some (character (r_start (l_range definition)))) false
        (line (r_start (l_range definition))) s = true.
Proof.
  unfold request_defining_symbol. intros Hrun.
  apply bind_inv_ok in Hrun as ([] & w0 & Hcheck & Hrun).
  apply check_started_inv in Hcheck as [-> _].
  apply bind_inv_ok in Hrun as (definitions & w1 & Hdef & Hrun).
  destruct definitions as [| definition rest]; [discriminate Hrun |].
  apply bind_inv_ok in Hrun as (def_path & w2 & Hkey & Hrun).
  destruct (l_relativePath definition) as [p |] eqn:Hp; [| discriminate Hkey].
  injection Hkey as <- <-.
  assert (repository_root_path w1 = repository_root_path w) as Hroot.
  { unfold request_definition in Hdef.
    apply bind_inv_ok in Hdef as ([] & w0 & Hcheck & Hdef).
    apply check_started_inv in Hcheck as [-> _].
    apply bind_inv_ok in Hdef as (response & w3 & Hscope & Hdef).
    apply with_open_file_inv_state in Hscope as (wb & _ & _ & _ & Hsend & ->);
      [| intros u w0 a wb0; apply send_restores].
    injection Hsend as _ <-.
    destruct (entered_fields w path) as (_ & _ & Hroot & _).
    unfold bind at 1, gets at 1 in Hdef.
    destruct response as [| item | items |].
    - inversion Hdef; subst; exact Hroot.
    - unfold bind, py_assert, key, ret, raise in Hdef.
      destruct (d_uri item), (d_range item); simpl in Hdef; try discriminate.
      inversion Hdef; subst; exact Hroot.
    - unfold lift in Hdef. inversion Hdef; subst; exact Hroot.
    - discriminate Hdef. }
  apply request_containing_symbol_inv in Hrun
    as (wa & raw & tree & wb & symbols & _ & _ & Hadd & Hinner & _).
  apply add_locations_spec in Hadd as (Hall & _).
  apply innermost_container_spec in Hinner as (Hin & Hc & Hpos & _).
  rewrite Forall_forall in Hall. specialize (Hall s Hin). rewrite Hroot in Hall.
  exists definition, rest, w1, p. auto.
Qed.

(** X20.  When the server answers the definition request with [None] or
    with the empty list, [request_definition] returns the empty list
    and [request_defining_symbol] returns [None]; both write the one
    request and close the file again. *)
Theorem defining_symbol_without_definition path l c w :
  server_started w = true → buffer_ok w path → openable w path →
  let m := ReqDefinition (path_uri w path) (mkPosition l c) in
  on_definition_response (asked_in_scope w path m) = DefinitionNone
  ∨ on_definition_response (asked_in_scope w path m) = DefinitionList [] →
  request_definition path l c w = (Ok [], after_scope w path m)
  ∧ request_defining_symbol path l c w = (Ok None, after_scope w path m).
Proof.
  intros Hs Hok Hop m Hresp.
  assert (request_definition path l c w = (Ok [], after_scope w path m)) as Hdef.
  { unfold request_definition.
    rewrite (bind_ok _ _ _ tt w)
      by (unfold check_started, bind, gets; rewrite Hs; reflexivity).
    rewrite (bind_ok _ _ _ _ _
               (send_in_scope path (λ u, ReqDefinition u (mkPosition l c)) _ w
                  Hs Hok Hop)).
    fold m. destruct Hresp as [-> | ->]; reflexivity. }
  split; [exact Hdef |]. unfold request_defining_symbol.
  rewrite (bind_ok _ _ _ tt w) by (unfold check_started, bind, gets; rewrite Hs; reflexivity).
  rewrite (bind_ok _ _ _ _ _ Hdef). reflexivity.
Qed.

End Locations.

(** ** The variable a reference is attributed to *)

Lemma find_variable_spec name ref symbols : ∀ s,
  find_variable name ref symbols = Ok (Some s) →
  ∃ original,
    original ∈ symbols
    ∧ s_name original = Some name
    ∧ s_kind original = Some SymbolKind.Variable_
    ∧ s = mkSymbol (s_name original) (s_kind original) (Some (l_range ref))
            (s_selectionRange original) (Some ref) (s_children original).
Proof.
  induction symbols as [| symbol rest IH]; intros s Hrun; simpl in Hrun;
    [discriminate |].
  assert (find_variable name ref rest = Ok (Some s) →
          ∃ original, original ∈ symbol :: rest
            ∧ s_name original = Some name
            ∧ s_kind original = Some SymbolKind.Variable_
            ∧ s = mkSymbol (s_name original) (s_kind original) (Some (l_range ref))
                    (s_selectionRange original) (Some ref) (s_children original))
    as Hrest.
  { intros Hr. destruct (IH s Hr) as (o & Hin & Ho). exists o. split; [right |]; assumption. }
  unfold Pure.key in Hrun.
  destruct (s_name symbol) as [n |] eqn:Hn; simpl in Hrun; [| discriminate].
  destruct (bool_decide (n = name)) eqn:Hd; [| auto].
  apply bool_decide_eq_true in Hd. subst n.
  destruct (s_kind symbol) as [k |] eqn:Hk; simpl in Hrun; [| discriminate].
  destruct (bool_decide (k = SymbolKind.Variable_)) eqn:Hv; [| auto].
  apply bool_decide_eq_true in Hv. subst k.
  injection Hrun as <-. exists symbol. rewrite Hn, Hk. repeat split. left.
Qed.

(** The first piece of [s.split(c)] is what stands before the first
    [c] of [s]. *)
Lemma split_head c s :
  ∃ h t, Py.split c s = h :: t
         ∧ Py.contains c h = false
         ∧ (Py.contains c s = false → s = h)
         ∧ (Py.contains c s = true → ∃ rest, s = h +:+ String c rest).
Proof.
  induction s as [| d s (h & t & Hs & Hh & Hno & Hyes)]; simpl.
  - exists "", []. repeat split; discriminate.
  - destruct (decide (d = c)) as [-> | Hne].
    + exists "", (h :: t). rewrite Hs. repeat split; [discriminate |].
      intros _. exists s. reflexivity.
    + rewrite Hs. exists (String d h), t. simpl.
      destruct (decide (d = c)); [contradiction |].
      split; [reflexivity |]. split; [exact Hh |]. split.
      * intros Hc. rewrite (Hno Hc) at 1. reflexivity.
      * intros Hc. destruct (Hyes Hc) as [rest Hr]. exists rest.
        rewrite Hr at 1. reflexivity.
Qed.

Section Fallback.
Context `{PathOps} `{SetOrder} `{DefinitionHandler}.

(** A fallback that found a variable. *)
Lemma variable_fallback_inv ref_path ref u w s w' :
  variable_fallback ref_path ref u w = (Ok (Some s), w') →
  ∃ file_data ref_text name all_symbols,
    open_file_buffers w !! u = Some file_data
    ∧ Py.index (Py.split Py.NL (contents file_data)) (line (r_start (l_range ref)))
      = Some ref_text
    ∧ Py.contains Py.DOT ref_text = true
    ∧ Py.index (Py.split Py.DOT ref_text) 0 = Some name
    ∧ find_variable name ref all_symbols = Ok (Some s).
Proof.
  unfold variable_fallback. intros Hrun.
  apply bind_inv_ok in Hrun as (file_data & w0 & Hget & Hrun).
  assert (open_file_buffers w !! u = Some file_data ∧ w0 = w) as [Hb ->].
  { unfold get_buffer, bind, gets, key in Hget.
    destruct (open_file_buffers w !! u); [| discriminate Hget].
    injection Hget as <- <-. auto. }
  apply lift_bind_inv in Hrun as (ref_text & Htext & Hrun).
  unfold Pure.item in Htext.
  destruct (Py.index _ _) as [text |] eqn:Hidx; [| discriminate Htext].
  injection Htext as ->.
  destruct (Py.contains Py.DOT ref_text) eqn:Hdot; [| discriminate Hrun].
  apply lift_bind_inv in Hrun as (name & Hname & Hrun).
  apply bind_inv_ok in Hrun as ([all_symbols tree] & w1 & _ & Hrun).
  unfold lift in Hrun. injection Hrun as Hfind _.
  unfold Pure.item in Hname.
  destruct (Py.index (Py.split Py.DOT ref_text) 0) as [n |] eqn:Hn;
    [| discriminate Hname].
  injection Hname as ->.
  exists file_data, ref_text, name, all_symbols. auto.
Qed.

(** X21.  The symbol the fallback of [request_referencing_symbols] makes
    for a reference without a containing symbol: the line of the
    reference in the open buffer has a dot, and the symbol is a
    variable whose name is the text of that line before its first dot,
    with the reference as its location and the range of the reference
    as its range. *)
Theorem variable_fallback_names_the_line_head ref_path ref u w s w' :
  variable_fallback ref_path ref u w = (Ok (Some s), w') →
  ∃ file_data ref_text name rest,
    open_file_buffers w !! u = Some file_data
    ∧ Py.index (Py.split Py.NL (contents file_data)) (line (r_start (l_range ref)))
      = Some ref_text
    ∧ ref_text = name +:+ String Py.DOT rest
    ∧ Py.contains Py.DOT name = false
    ∧ s_name s = Some name
    ∧ s_kind s = Some SymbolKind.Variable_
    ∧ s_location s = Some ref
    ∧ s_range s = Some (l_range ref).
Proof.
  intros Hrun.
  apply variable_fallback_inv in Hrun
    as (file_data & ref_text & name & all_symbols & Hb & Hidx & Hdot & Hname & Hfind).
  apply find_variable_spec in Hfind as (original & _ & Hn & Hk & ->).
  destruct (split_head Py.DOT ref_text) as (h & t & Hsplit & Hh & _ & Hyes).
  destruct (Hyes Hdot) as [rest Hrest].
  rewrite Hsplit in Hname. injection Hname as <-.
  exists file_data, ref_text, h, rest. simpl. auto 10.
Qed.

End Fallback.

(** ** Failures inside a scope *)

Section Leaks.
Context `{PathOps} `{SetOrder} `{DefinitionHandler}.

Lemma line_is_blank_run path l w content text :
  server_started w = true → buffer_ok w path → openable w path →
  files w !! pure_path (repository_root_path w) path = Some content →
  Py.index (Py.split Py.NL content) l = Some text →
  line_is_blank path l w =
    (Ok (bool_decide (Py.strip text = "")),
     with_sent (sent w ++ open_messages w path ++ close_messages w path) w).
Proof.
  intros Hs Hok Hop Hf Hl. unfold line_is_blank. unfold bind at 1, gets at 1.
  rewrite (with_open_file_local path _ w (bool_decide (Py.strip text = ""))
             (entered w path) Hs Hok Hop).
  - rewrite entered_left by assumption. reflexivity.
  - destruct (entered_fields w path) as (_ & _ & _ & Hfiles & _).
    unfold FileUtils.read_file, bind, gets, lift, Pure.item, ret.
    rewrite Hfiles, Hf, Hl. reflexivity.
  - reflexivity.
Qed.

(** X22.  When the line asked about holds nothing but white space in the
    file on disk, [request_containing_symbol] returns [None] after
    opening and closing the file: the server is not asked for the
    symbols. *)
Theorem blank_line_is_answered_without_asking path l column strict w content text :
  server_started w = true → buffer_ok w path → openable w path →
  files w !! pure_path (repository_root_path w) path = Some content →
  Py.index (Py.split Py.NL content) l = Some text →
  Py.all_space text = true →
  request_containing_symbol path l column strict w =
    (Ok None,
     with_sent (sent w ++ open_messages w path ++ close_messages w path) w)
  ∧ Forall (λ m, ¬ asks_for_symbols m)
      (open_messages w path ++ close_messages w path).
Proof.
  intros Hs Hok Hop Hf Hl Hsp. split; [| apply scope_messages_do_not_ask].
  unfold request_containing_symbol. unfold bind at 1, gets at 1.
  rewrite (bind_ok _ _ _ _ _ (line_is_blank_run path l w content text Hs Hok Hop Hf Hl)).
  rewrite bool_decide_true by (apply strip_empty; exact Hsp). reflexivity.
Qed.

(** X23.  [request_containing_symbol] for a line the file on disk does not
    have, on a file that was not open, raises [IndexError] out of its
    [with] block and leaves the file open: the table holds its buffer
    with reference count 1, the [didOpen] is written and no [didClose].
    A later [with self.open_file] over the file that does nothing
    writes nothing and leaves the file in the table. *)
Theorem line_out_of_range_leaves_file_open path l column strict w content :
  server_started w = true →
  open_file_buffers w !! path_uri w path = None →
  files w !! pure_path (repository_root_path w) path = Some content →
  Py.index (Py.split Py.NL content) l = None →
  let u := path_uri w path in
  let w' :=
    with_sent (sent w ++ [DidOpen u (ls_language_id w) 0 content])
      (with_buffers
         (<[u := new_LSPFileBuffer u content 0 (ls_language_id w) 1]>
            (open_file_buffers w)) w) in
  request_containing_symbol path l column strict w = (Raise IndexError, w')
  ∧ ∀ body : string → M unit,
      (∀ v w0, body v w0 = (Ok tt, w0)) →
      ∃ w'', with_open_file path body w' = (Ok tt, w'')
             ∧ sent w'' = sent w' ∧ is_Some (open_file_buffers w'' !! u).
Proof.
  intros Hs Hb Hf Hl u w'.
  assert (open_file_enter path w = (Ok u, w')) as Henter
    by (apply open_file_enter_first; assumption).
  split.
  - unfold request_containing_symbol. unfold bind at 1, gets at 1.
    apply bind_raise. unfold line_is_blank. unfold bind at 1, gets at 1.
    apply (with_open_file_raises path _ w u w' IndexError w' Henter).
    unfold FileUtils.read_file, bind, gets, lift, Pure.item, ret.
    change (files w') with (files w). rewrite Hf, Hl. reflexivity.
  - intros body Hbody.
    set (b := new_LSPFileBuffer u content 0 (ls_language_id w) 1).
    assert (open_file_buffers w' !! path_uri w' path = Some b) as Hb'
      by apply lookup_insert_eq.
    assert (open_file_enter path w' =
              (Ok u, with_buffers (<[u := set_ref_count 2 b]> (open_file_buffers w')) w'))
      as Henter'.
    { apply (open_file_enter_nested w' path b Hs Hb'); [reflexivity | simpl; lia]. }
    eexists. split.
    + unfold with_open_file.
      rewrite (bind_ok _ _ _ _ _ Henter'), (bind_ok _ _ _ _ _ (Hbody _ _)).
      erewrite bind_ok; [reflexivity |].
      apply (open_file_exit_inner _ u (set_ref_count 2 b)).
      * apply lookup_insert_eq.
      * simpl. lia.
    + split; [reflexivity |]. simpl. rewrite lookup_insert_eq. eauto.
Qed.

(** The wire and the table after the retry loop, however it ends. *)
Lemma completion_loop_wire fuel u pos : ∀ resp num w r w',
  completion_loop fuel u pos resp num w = (r, w') →
  ∃ n, w' = with_sent (sent w ++ replicate n (ReqCompletion u pos)) w.
Proof.
  induction fuel as [| fuel IH]; intros resp num w r w' Hrun;
    cbn [completion_loop] in Hrun; destruct (keep_asking resp num) eqn:Hk.
  - injection Hrun as _ <-. exists 0%nat. rewrite with_sent_id. reflexivity.
  - injection Hrun as _ <-. exists 0%nat. rewrite with_sent_id. reflexivity.
  - unfold bind at 1, send, write, modify, bind, gets, ret in Hrun. simpl in Hrun.
    apply IH in Hrun as [n ->]. exists (S n). simpl.
    unfold with_sent. simpl. rewrite <- app_assoc. reflexivity.
  - injection Hrun as _ <-. exists 0%nat. rewrite with_sent_id. reflexivity.
Qed.

(** X24.  When [request_completions] raises, on a started server and a file
    that can be opened, the state is the one entering the file left,
    with some completion requests written: the reference taken on
    entering is not given back and no [didClose] is written. *)
Theorem failed_completions_leave_file_open fuel path l c allow w e w' :
  request_completions fuel path l c allow w = (Raise e, w') →
  server_started w = true → buffer_ok w path → openable w path →
  ∃ n,
    w' = with_sent
           (sent w ++ open_messages w path
            ++ replicate n (ReqCompletion (path_uri w path) (mkPosition l c)))
           (entered w path)
    ∧ open_file_buffers w' !! path_uri w path = opened_buffer w path
    ∧ is_Some (opened_buffer w path).
Proof.
  intros Hrun Hs Hok Hop.
  destruct (entered_lookup w path Hok Hop) as (b0 & Hb0 & Hlook & _ & Hu & _).
  unfold request_completions, with_open_file in Hrun.
  rewrite (bind_ok _ _ _ _ _ (open_file_enter_local w path Hs Hok Hop)) in Hrun.
  assert (∀ wb n,
            wb = with_sent
                   (sent (entered w path)
                    ++ replicate n (ReqCompletion (path_uri w path) (mkPosition l c)))
                   (entered w path) →
            wb = with_sent
                   (sent w ++ open_messages w path
                    ++ replicate n (ReqCompletion (path_uri w path) (mkPosition l c)))
                   (entered w path)
            ∧ open_file_buffers wb !! path_uri w path = Some b0) as Hstate.
  { intros wb n ->. split; [| exact Hlook].
    rewrite (entered_sent_local w path Hok Hop), <- app_assoc. reflexivity. }
  apply bind_inv in Hrun as [(r & wb & Hbody & Hexit) | [(e' & Hbody & _) | (_ & [=])]].
  - exfalso.
    assert (open_file_buffers wb !! path_uri w path = Some b0) as Hwb.
    { unfold bind at 1 in Hbody.
      rewrite (get_buffer_entered w path b0 Hlook) in Hbody.
      apply bind_inv_ok in Hbody as (resp & wl & Hloop & Hfin).
      apply completion_loop_wire in Hloop as [n ->].
      assert (wb = with_sent
                     (sent (entered w path)
                      ++ replicate n (ReqCompletion (uri b0) (mkPosition l c)))
                     (entered w path)) as ->; [| exact Hlook].
      destruct resp as [[inc items] |]; [| injection Hfin as _ <-; reflexivity].
      destruct (inc && negb allow); [injection Hfin as _ <-; reflexivity |].
      apply lift_bind_inv in Hfin as (its & _ & Hfin).
      apply lift_bind_inv in Hfin as (cl & _ & Hfin).
      injection Hfin as _ <-. reflexivity. }
    destruct (open_file_exit_total wb _ b0 Hwb) as [wx Hx].
    rewrite (bind_ok _ _ _ _ _ Hx) in Hexit. discriminate Hexit.
  - unfold bind at 1 in Hbody.
    rewrite (get_buffer_entered w path b0 Hlook) in Hbody. rewrite Hu in Hbody.
    apply bind_inv in Hbody as [(resp & wl & Hloop & Hfin) | [(e2 & Hloop & _) | (_ & [=])]].
    + apply completion_loop_wire in Hloop as [n ->].
      assert (w' = with_sent
                     (sent (entered w path)
                      ++ replicate n (ReqCompletion (path_uri w path) (mkPosition l c)))
                     (entered w path)) as Hw'.
      { destruct resp as [[inc items] |]; [| discriminate Hfin].
        destruct (inc && negb allow); [discriminate Hfin |].
        unfold bind, lift, ret in Hfin.
        destruct (without_keywords items); try discriminate Hfin.
        - destruct (mapE _ _); try discriminate Hfin.
          injection Hfin as _ <-. reflexivity.
        - injection Hfin as _ <-. reflexivity. }
      exists n. destruct (Hstate w' n Hw') as [-> Hl]. rewrite Hb0.
      split; [reflexivity |]. split; [exact Hlook | eauto].
    + apply completion_loop_wire in Hloop as [n Hw'].
      exists n. destruct (Hstate w' n Hw') as [-> Hl]. rewrite Hb0.
      split; [reflexivity |]. split; [exact Hlook | eauto].
Qed.

End Leaks.

Section Referencing.
Context `{PathOps} `{SetOrder} `{DefinitionHandler}.

Lemma containing_symbol_of_reference_holds ref_path ref u w cs w' :
  l_relativePath ref = Some ref_path →
  containing_symbol_of_reference ref_path ref u w = (Ok (Some cs), w') →
  holds_reference ref cs.
Proof.
  intros Hpath Hrun. unfold containing_symbol_of_reference in Hrun.
  apply bind_inv_ok in Hrun as (found & w1 & Hfind & Hrun).
  destruct found as [cs' |].
  - injection Hrun as -> ->.
    apply request_containing_symbol_inv in Hfind
      as (wa & raw & tree & wb & symbols & _ & _ & Hadd & Hinner & _).
    apply add_locations_spec in Hadd as (Hall & _).
    apply innermost_container_spec in Hinner as (Hin & _ & Hpos & _).
    rewrite Forall_forall in Hall.
    destruct (Hall cs Hin) as (location & Hloc & _ & _ & Hrel).
    exists location. rewrite Hpath. auto.
  - apply variable_fallback_inv in Hrun
      as (_ & _ & name & all_symbols & _ & _ & _ & _ & Hvar).
    apply find_variable_spec in Hvar as (original & _ & _ & Hk & ->).
    exists ref. simpl. auto.
Qed.

Lemma containers_of_hold refs : ∀ w entries w',
  containers_of refs w = (Ok entries, w') →
  Forall (λ e, e.1 ∈ refs ∧ holds_reference e.1 e.2) entries.
Proof.
  induction refs as [| ref rest IH]; intros w entries w' Hrun;
    cbn [containers_of] in Hrun.
  - injection Hrun as <- _. constructor.
  - apply lift_bind_inv in Hrun as (ref_path & Hpath & Hrun).
    unfold Pure.key in Hpath.
    destruct (l_relativePath ref) as [p |] eqn:Hp; [| discriminate Hpath].
    injection Hpath as ->.
    apply bind_inv_ok in Hrun as (cs & w1 & Hscope & Hrun).
    apply bind_inv_ok in Hrun as (more & w2 & Hmore & Hret).
    injection Hret as <- _.
    apply IH in Hmore.
    assert (Forall (λ e, e.1 ∈ ref :: rest ∧ holds_reference e.1 e.2) more) as Hmore'.
    { eapply Forall_impl; [exact Hmore |]. intros e [Hin Hh]. split; [right |]; assumption. }
    destruct cs as [s |]; [| exact Hmore'].
    constructor; [| exact Hmore']. split; [left |]. simpl.
    apply with_open_file_inv in Hscope as (wb & _ & _ & _ & Hbody & _).
    exact (containing_symbol_of_reference_holds _ _ _ _ _ _ Hp Hbody).
Qed.

(** X25.  Every symbol [request_referencing_symbols] returns is accounted
    for by one of the references [request_references] returns for the
    position: it lies in the file of that reference, and either the
    range of its location holds the start of the reference, or it is
    the variable the fallback has placed at the reference. *)
Theorem referencing_symbols_hold_a_reference path l c include_imports include_self
    w result w' :
  request_referencing_symbols path l c include_imports include_self w
    = (Ok result, w') →
  ∃ refs w1,
    request_references path l c w = (Ok refs, w1)
    ∧ Forall (λ s, ∃ ref, ref ∈ refs ∧ holds_reference ref s) result.
Proof.
  intros Hrun. unfold request_referencing_symbols in Hrun.
  apply bind_inv_ok in Hrun as ([] & wa & Hcheck & Hrun).
  apply check_started_inv in Hcheck as [-> _].
  apply bind_inv_ok in Hrun as (refs & w1 & Hrefs & Hrun).
  exists refs, w1. split; [exact Hrefs |].
  destruct refs as [| ref rest].
  - injection Hrun as <- _. constructor.
  - apply (referencing_loop_select path include_imports include_self (ref :: rest)
             [] [] w1 result w') in Hrun as (entries & Hcont & ->).
    apply containers_of_hold in Hcont.
    pose proof (select_sublist path include_imports include_self entries [])
      as Hsub.
    apply Forall_forall. intros s Hs.
    assert (s ∈ snd <$> entries) as Hin
      by (eapply elem_of_sublist; [exact Hs | exact Hsub]).
    apply list_elem_of_fmap_1 in Hin as ([ref' cs] & -> & Hin).
    rewrite Forall_forall in Hcont. destruct (Hcont _ Hin) as [Href Hh].
    exists ref'. auto.
Qed.

(** X26.  Entering and leaving [open_file], [insert_text_at_position],
    [delete_text_between_positions], [request_references],
    [request_definition] and [request_completions] never change the
    symbol cache or its flag, however they end. *)
Theorem other_calls_keep_the_cache :
  (∀ path, always same_cache (open_file_enter path))
  ∧ (∀ u, always same_cache (open_file_exit u))
  ∧ (∀ path l c x, always same_cache (insert_text_at_position path l c x))
  ∧ (∀ path st en, always same_cache (delete_text_between_positions path st en))
  ∧ (∀ path l c, always same_cache (request_references path l c))
  ∧ (∀ path l c, always same_cache (request_definition path l c))
  ∧ (∀ fuel path l c allow,
       always same_cache (request_completions fuel path l c allow)).
Proof.
  split; [exact open_file_enter_cache |].
  split; [exact open_file_exit_cache |].
  split.
  { intros path l c x.
    unfold insert_text_at_position, check_started, file_uri, get_buffer, put_buffer,
      write, py_assert, key.
    always_same. }
  split.
  { intros path st en.
    unfold delete_text_between_positions, check_started, file_uri, get_buffer,
      put_buffer, write, py_assert, key.
    always_same. }
  split.
  { intros path l c. unfold request_references, check_started.
    always_using ltac:(apply with_open_file_cache; intro; unfold send, write).
  }
  split.
  { intros path l c. unfold request_definition, check_started, py_assert, key.
    always_using ltac:(apply with_open_file_cache; intro; unfold send, write).
  }
  intros fuel path l c allow. unfold request_completions.
  apply with_open_file_cache. intros u. unfold get_buffer, key.
  always_using ltac:(apply completion_loop_cache).
Qed.

End Referencing.

(* ===================================================================== *)
(** * The further properties on the scenarios *)
(* ===================================================================== *)

Lemma buffer_ok_closed `{PathOps} w path :
  open_file_buffers w !! path_uri w path = None → buffer_ok w path.
Proof. intros Hb b Hb'. rewrite Hb in Hb'. discriminate Hb'. Qed.

Lemma buffer_methods_refused_before_start_witness :
  server_started Scenario.w_stopped = false
  ∧ @open_file_enter Posix.ops "a.py" Scenario.w_stopped
    = (Raise (MultilspyException "Language Server not started"), Scenario.w_stopped)
  ∧ @get_open_file_text Posix.ops "a.py" Scenario.w_stopped
    = (Raise (MultilspyException "Language Server not started"), Scenario.w_stopped).
Proof.
  split; [reflexivity |].
  destruct (@buffer_methods_refused_before_start Posix.ops unit "a.py" (λ _, ret tt)
              0 0 "X" (mkPosition 0 0) (mkPosition 0 1) Scenario.w_stopped eq_refl)
    as (Hopen & _ & _ & _ & Hget).
  split; [exact Hopen | exact Hget].
Defined.

Lemma requests_refused_before_start_witness :
  server_started Scenario.w_stopped = false
  ∧ @request_document_symbols Posix.ops "a.py" Scenario.w_stopped
    = (Raise (MultilspyException "Language Server not started"), Scenario.w_stopped)
  ∧ @request_defining_symbol Posix.ops Scenario.no_definition "a.py" 0 0
      Scenario.w_stopped
    = (Raise (MultilspyException "Language Server not started"), Scenario.w_stopped).
Proof.
  split; [reflexivity |].
  destruct (@requests_refused_before_start Posix.ops Scenario.first_occurrence
              Scenario.no_definition 30 "a.py" 0 0 false (Some 0) false true false
              Scenario.w_stopped eq_refl)
    as (_ & _ & _ & Hsyms & _ & _ & Hdef & _).
  split; [exact Hsyms | exact Hdef].
Defined.

Lemma edit_of_unopened_file_fails_witness :
  server_started Scenario.w_hello = true
  ∧ open_file_buffers Scenario.w_hello !! Scenario.a_py = None
  ∧ @insert_text_at_position Posix.ops "a.py" 1 0 "X" Scenario.w_hello
    = (Raise AssertionError, Scenario.w_hello).
Proof.
  split; [reflexivity |]. split; [reflexivity |].
  destruct (@edit_of_unopened_file_fails Posix.ops "a.py" 1 0 "X" (mkPosition 0 0)
              (mkPosition 0 1) Scenario.w_hello eq_refl eq_refl) as (Hins & _).
  exact Hins.
Defined.

Lemma failed_edit_bumps_version_witness :
  (@insert_text_at_position Posix.ops "a.py" 5 0 "X" Scenario.w_open).1
    = Raise AssertionError
  ∧ version <$> (open_file_buffers
                   (@insert_text_at_position Posix.ops "a.py" 5 0 "X"
                      Scenario.w_open).2 !! Scenario.a_py)
    = Some 1
  ∧ sent (@insert_text_at_position Posix.ops "a.py" 5 0 "X" Scenario.w_open).2
    = sent Scenario.w_open.
Proof.
  destruct (@failed_edit_bumps_version Posix.ops "a.py" 5 0 "X"
              (mkPosition 0 0) (mkPosition 0 0) Scenario.w_open Scenario.b_hello
              eq_refl ltac:(vm_compute; reflexivity)) as (Hins & _ & _).
  rewrite (Hins ltac:(vm_compute; reflexivity)).
  split; [reflexivity |]. split; [| reflexivity].
  cbn [snd]. unfold with_buffers. cbn [open_file_buffers].
  change Scenario.a_py with (@path_uri Posix.ops Scenario.w_open "a.py").
  rewrite lookup_insert_eq. reflexivity.
Defined.

Lemma open_file_text_follows_edits_witness :
  edit_strings [InsertText 1 0 "X"] Scenario.hello
    = Some ("hello" +:+ Py.nl +:+ "Xworld")
  ∧ ((let* _ := @run_edits Posix.ops "a.py" [InsertText 1 0 "X"] in
      @get_open_file_text Posix.ops "a.py") Scenario.w_open).1
    = Ok ("hello" +:+ Py.nl +:+ "Xworld")
  ∧ files (@run_edits Posix.ops "a.py" [InsertText 1 0 "X"] Scenario.w_open).2
      !! "/r/a.py" = Some Scenario.hello.
Proof.
  assert (edit_strings [InsertText 1 0 "X"] (contents Scenario.b_hello)
          = Some ("hello" +:+ Py.nl +:+ "Xworld")) as He by (vm_compute; reflexivity).
  split; [exact He |].
  destruct (@open_file_text_follows_edits Posix.ops "a.py" Scenario.w_open
              Scenario.b_hello [InsertText 1 0 "X"] _ eq_refl
              ltac:(vm_compute; reflexivity) He) as [Htext Hfiles].
  split; [rewrite Htext; reflexivity |]. rewrite Hfiles. vm_compute. reflexivity.
Defined.

Lemma completions_never_return_on_none_witness :
  (∀ h, on_completion (server Scenario.w_hello) h = CompletionNone)
  ∧ ∃ w',
      @request_completions Posix.ops Scenario.first_occurrence 5 "a.py" 0 0 false
        Scenario.w_hello = (OutOfFuel, w')
      ∧ length (sent w') = 6%nat.
Proof.
  split; [intros h; reflexivity |].
  destruct (@completions_never_return_on_none Posix.ops Scenario.first_occurrence
              "a.py" 0 0 false Scenario.w_hello eq_refl) with (fuel := 5%nat)
    as (w' & Hrun & Hsent).
  - apply buffer_ok_closed. reflexivity.
  - right. eexists. vm_compute. reflexivity.
  - intros h. reflexivity.
  - exists w'. split; [exact Hrun |]. rewrite Hsent. vm_compute. reflexivity.
Defined.

Lemma document_symbols_served_from_cache_witness :
  ∃ w1,
    @request_document_symbols Posix.ops "c.py" Scenario.w_c
      = (Ok (Scenario.c_flat, None), w1)
    ∧ (@request_document_symbols Posix.ops "c.py" w1).1
      = Ok (Scenario.c_flat, None)
    ∧ sent (@request_document_symbols Posix.ops "c.py" w1).2
      = sent w1 ++ [DidOpen Scenario.c_uri "python" 0 Scenario.c_py;
                    DidClose Scenario.c_uri].
Proof.
  exists (@request_document_symbols Posix.ops "c.py" Scenario.w_c).2.
  assert (@request_document_symbols Posix.ops "c.py" Scenario.w_c
          = (Ok (Scenario.c_flat, None),
             (@request_document_symbols Posix.ops "c.py" Scenario.w_c).2)) as Hrun
    by (vm_compute; reflexivity).
  split; [exact Hrun |].
  destruct (@document_symbols_served_from_cache Posix.ops "c.py" Scenario.w_c _ _ Hrun)
    as [Hagain _].
  rewrite Hagain. split; [reflexivity |]. vm_compute. reflexivity.
Defined.

Lemma cached_symbols_outlive_edits_witness :
  open_file_buffers Scenario.w_c_cached !! Scenario.c_uri = Some Scenario.b_c
  ∧ document_symbols_cache Scenario.w_c_cached !! "c.py"
    = Some (content_hash Scenario.b_c, (Scenario.c_flat, None))
  ∧ ∃ w1,
      @run_edits Posix.ops "c.py" [InsertText 0 0 "#"] Scenario.w_c_cached = (Ok tt, w1)
      ∧ @get_open_file_text Posix.ops "c.py" w1 = (Ok ("#" +:+ Scenario.c_py), w1)
      ∧ @request_document_symbols Posix.ops "c.py" w1
        = (Ok (Scenario.c_flat, None), w1).
Proof.
  assert (open_file_buffers Scenario.w_c_cached
            !! @path_uri Posix.ops Scenario.w_c_cached "c.py" = Some Scenario.b_c)
    as Hb by (vm_compute; reflexivity).
  assert (document_symbols_cache Scenario.w_c_cached !! "c.py"
          = Some (content_hash Scenario.b_c, (Scenario.c_flat, None))) as Hc
    by (vm_compute; reflexivity).
  split; [exact Hb |]. split; [exact Hc |].
  apply (@cached_symbols_outlive_edits Posix.ops "c.py" Scenario.w_c_cached
           Scenario.b_c [InsertText 0 0 "#"] ("#" +:+ Scenario.c_py)
           (Scenario.c_flat, None)).
  - reflexivity.
  - exact Hb.
  - reflexivity.
  - simpl. lia.
  - exact Hc.
  - vm_compute. reflexivity.
Defined.

Lemma cached_symbols_survive_restart_witness :
  ∃ w1 w3,
    @request_document_symbols Posix.ops "c.py" Scenario.w_c
      = (Ok (Scenario.c_flat, None), w1)
    ∧ @request_document_symbols Posix.ops "c.py" (restarted (stop w1).2 Scenario.silent)
      = (Ok (Scenario.c_flat, None), w3)
    ∧ Forall (λ m, ¬ asks_for_symbols m) (sent w3).
Proof.
  exists (@request_document_symbols Posix.ops "c.py" Scenario.w_c).2.
  assert (@request_document_symbols Posix.ops "c.py" Scenario.w_c
          = (Ok (Scenario.c_flat, None),
             (@request_document_symbols Posix.ops "c.py" Scenario.w_c).2)) as Hrun
    by (vm_compute; reflexivity).
  destruct (@cached_symbols_survive_restart Posix.ops "c.py" Scenario.w_c _ _
              Scenario.silent eq_refl eq_refl Hrun) as (w3 & Hagain & Hsent).
  exists w3. split; [exact Hrun |]. split; [exact Hagain | exact Hsent].
Defined.

Lemma symbols_cache_written_on_success_only_witness :
  ∃ w1 h,
    @request_document_symbols Posix.ops "c.py" Scenario.w_c
      = (Ok (Scenario.c_flat, None), w1)
    ∧ document_symbols_cache w1 !! "c.py" = Some (h, (Scenario.c_flat, None))
    ∧ document_symbols_cache w1 !! "a.py" = None.
Proof.
  exists (@request_document_symbols Posix.ops "c.py" Scenario.w_c).2.
  assert (@request_document_symbols Posix.ops "c.py" Scenario.w_c
          = (Ok (Scenario.c_flat, None),
             (@request_document_symbols Posix.ops "c.py" Scenario.w_c).2)) as Hrun
    by (vm_compute; reflexivity).
  destruct (@symbols_cache_written_on_success_only Posix.ops "c.py" Scenario.w_c _ _ Hrun)
    as (Hother & h & _ & Hc).
  exists h. split; [exact Hrun |]. split; [exact Hc |].
  rewrite (Hother "a.py") by discriminate. reflexivity.
Defined.

Lemma containing_symbol_contains_position_witness :
  (@request_containing_symbol Posix.ops "c.py" 2 (Some 4) false Scenario.w_c).1
    = Ok (Some (Scenario.located "c.py" Scenario.sym_c_x))
  ∧ located_at "/r/c.py" "c.py" (Scenario.located "c.py" Scenario.sym_c_x)
  ∧ contains_position (Some 4) false 2 (Scenario.located "c.py" Scenario.sym_c_x)
    = true.
Proof.
  assert (@request_containing_symbol Posix.ops "c.py" 2 (Some 4) false Scenario.w_c
          = (Ok (Some (Scenario.located "c.py" Scenario.sym_c_x)),
             (@request_containing_symbol Posix.ops "c.py" 2 (Some 4) false
                Scenario.w_c).2)) as Hrun by (vm_compute; reflexivity).
  split; [rewrite Hrun; reflexivity |].
  destruct (@containing_symbol_contains_position Posix.ops "c.py" 2 (Some 4) false
              Scenario.w_c _ _ Hrun) as (Hloc & _ & Hpos).
  split; [exact Hloc | exact Hpos].
Defined.

Lemma container_of_symbol_starts_before_witness :
  (@request_container_of_symbol Posix.ops (Scenario.located "c.py" Scenario.sym_c_x)
     Scenario.w_c).1
    = Ok (Some (Scenario.located "c.py" Scenario.sym_c_m))
  ∧ Scenario.located "c.py" Scenario.sym_c_m
    ≠ Scenario.located "c.py" Scenario.sym_c_x.
Proof.
  assert (@request_container_of_symbol Posix.ops
            (Scenario.located "c.py" Scenario.sym_c_x) Scenario.w_c
          = (Ok (Some (Scenario.located "c.py" Scenario.sym_c_m)),
             (@request_container_of_symbol Posix.ops
                (Scenario.located "c.py" Scenario.sym_c_x) Scenario.w_c).2)) as Hrun
    by (vm_compute; reflexivity).
  split; [rewrite Hrun; reflexivity |].
  destruct (@container_of_symbol_starts_before Posix.ops _ Scenario.w_c _ _ Hrun)
    as (location & location' & _ & _ & _ & _ & _ & Hne).
  exact Hne.
Defined.

Lemma containing_symbol_leaves_locations_in_cache_witness :
  ∃ w1 symbols,
    @request_containing_symbol Posix.ops "c.py" 2 (Some 4) false Scenario.w_c
      = (Ok (Some (Scenario.located "c.py" Scenario.sym_c_x)), w1)
    ∧ (@request_document_symbols Posix.ops "c.py" w1).1 = Ok (symbols, None)
    ∧ Forall (located_at "/r/c.py" "c.py") symbols
    ∧ (@request_document_symbols Posix.ops "c.py" Scenario.w_c).1
      = Ok (Scenario.c_flat, None)
    ∧ Forall (λ s, s_location s = None) Scenario.c_flat.
Proof.
  exists (@request_containing_symbol Posix.ops "c.py" 2 (Some 4) false Scenario.w_c).2.
  assert (@request_containing_symbol Posix.ops "c.py" 2 (Some 4) false Scenario.w_c
          = (Ok (Some (Scenario.located "c.py" Scenario.sym_c_x)),
             (@request_containing_symbol Posix.ops "c.py" 2 (Some 4) false
                Scenario.w_c).2)) as Hrun by (vm_compute; reflexivity).
  destruct (@containing_symbol_leaves_locations_in_cache Posix.ops "c.py" 2 (Some 4)
              false Scenario.w_c _ _ Hrun)
    as (symbols & tree & w2 & written & Hagain & Hall & _ & _ & _).
  assert (tree = None) as ->.
  { assert ((@request_document_symbols Posix.ops "c.py"
               (@request_containing_symbol Posix.ops "c.py" 2 (Some 4) false
                  Scenario.w_c).2).1
            = Ok (symbols, tree)) as E by (rewrite Hagain; reflexivity).
    vm_compute in E. injection E as _ <-. reflexivity. }
  exists symbols. split; [exact Hrun |]. split; [rewrite Hagain; reflexivity |].
  split; [exact Hall |]. split; [vm_compute; reflexivity |].
  repeat constructor.
Defined.


Lemma references_answer_witness :
  (@request_references Posix.ops "a.py" 2 4 Scenario.w_foo).1
    = Ok [Scenario.ref_decl; Scenario.ref_use]
  ∧ sent (@request_references Posix.ops "a.py" 2 4 Scenario.w_foo).2
    = [DidOpen Scenario.a_py "python" 0 Scenario.foo_py;
       ReqReferences Scenario.a_py (mkPosition 2 4);
       DidClose Scenario.a_py]
  ∧ (@request_references Posix.ops "a.py" 0 0 Scenario.w_hello).1
    = Raise AssertionError.
Proof.
  rewrite (@references_answer Posix.ops "a.py" 2 4 Scenario.w_foo eq_refl).
  - split; [vm_compute; reflexivity |]. split; vm_compute; reflexivity.
  - apply buffer_ok_closed. reflexivity.
  - right. eexists. vm_compute. reflexivity.
Defined.


Lemma defining_symbol_contains_definition_witness :
  (@request_defining_symbol Posix.ops Scenario.foo_definition "a.py" 2 4
     Scenario.w_foo).1
    = Ok (Some (Scenario.located "a.py" Scenario.sym_foo))
  ∧ contains_position (Some 4) false 0 (Scenario.located "a.py" Scenario.sym_foo)
    = true.
Proof.
  assert (@request_defining_symbol Posix.ops Scenario.foo_definition "a.py" 2 4
            Scenario.w_foo
          = (Ok (Some (Scenario.located "a.py" Scenario.sym_foo)),
             (@request_defining_symbol Posix.ops Scenario.foo_definition "a.py" 2 4
                Scenario.w_foo).2)) as Hrun by (vm_compute; reflexivity).
  split; [rewrite Hrun; reflexivity |].
  destruct (@defining_symbol_contains_definition Posix.ops Scenario.foo_definition
              "a.py" 2 4 Scenario.w_foo _ _ Hrun)
    as (definition & rest & w1 & def_path & Hdef & _ & _ & _ & Hpos).
  assert (definition = Scenario.ref_decl) as ->.
  { assert ((@request_definition Posix.ops Scenario.foo_definition "a.py" 2 4
               Scenario.w_foo).1 = Ok (definition :: rest)) as E
      by (rewrite Hdef; reflexivity).
    vm_compute in E. injection E as <- _. reflexivity. }
  exact Hpos.
Defined.

Lemma defining_symbol_without_definition_witness :
  (@request_defining_symbol Posix.ops Scenario.no_definition "a.py" 2 4
     Scenario.w_foo).1 = Ok None
  ∧ sent (@request_defining_symbol Posix.ops Scenario.no_definition "a.py" 2 4
            Scenario.w_foo).2
    = [DidOpen Scenario.a_py "python" 0 Scenario.foo_py;
       ReqDefinition Scenario.a_py (mkPosition 2 4);
       DidClose Scenario.a_py].
Proof.
  destruct (@defining_symbol_without_definition Posix.ops Scenario.no_definition
              "a.py" 2 4 Scenario.w_foo eq_refl) as [_ Hrun].
  - apply buffer_ok_closed. reflexivity.
  - right. eexists. vm_compute. reflexivity.
  - left. reflexivity.
  - rewrite Hrun. split; vm_compute; reflexivity.
Defined.

Lemma variable_fallback_names_the_line_head_witness :
  ∃ s, (@variable_fallback Posix.ops "i.py" Scenario.ref_status Scenario.i_uri
          Scenario.w_i_open).1 = Ok (Some s)
       ∧ s_name s = Some "inst"
       ∧ s_kind s = Some SymbolKind.Variable_
       ∧ s_location s = Some Scenario.ref_status.
Proof.
  eexists. split; [vm_compute; reflexivity |]. split; [reflexivity |].
  match goal with |- s_kind ?s = _ ∧ _ =>
    destruct (@variable_fallback_names_the_line_head Posix.ops "i.py"
                Scenario.ref_status Scenario.i_uri Scenario.w_i_open s
                (@variable_fallback Posix.ops "i.py" Scenario.ref_status
                   Scenario.i_uri Scenario.w_i_open).2
                ltac:(vm_compute; reflexivity))
      as (_ & _ & _ & _ & _ & _ & _ & _ & _ & Hk & Hloc & _)
  end.
  split; [exact Hk | exact Hloc].
Defined.

Lemma blank_line_is_answered_without_asking_witness :
  Py.index (Py.split Py.NL Scenario.c_py) 3 = Some ""
  ∧ @request_containing_symbol Posix.ops "c.py" 3 (Some 0) false Scenario.w_c
    = (Ok None,
       with_sent [DidOpen Scenario.c_uri "python" 0 Scenario.c_py;
                  DidClose Scenario.c_uri] Scenario.w_c).
Proof.
  assert (Py.index (Py.split Py.NL Scenario.c_py) 3 = Some "") as Hl
    by (vm_compute; reflexivity).
  split; [exact Hl |].
  destruct (@blank_line_is_answered_without_asking Posix.ops "c.py" 3 (Some 0) false
              Scenario.w_c Scenario.c_py "" eq_refl) as [Hrun _].
  - apply buffer_ok_closed. reflexivity.
  - right. eexists. vm_compute. reflexivity.
  - vm_compute. reflexivity.
  - exact Hl.
  - reflexivity.
  - rewrite Hrun. f_equal.
Defined.

Lemma line_out_of_range_leaves_file_open_witness :
  Py.index (Py.split Py.NL Scenario.f_py) 3 = None
  ∧ (@request_containing_symbol Posix.ops "f.py" 3 None false Scenario.w_f).1
    = Raise IndexError
  ∧ is_Some (open_file_buffers
               (@request_containing_symbol Posix.ops "f.py" 3 None false
                  Scenario.w_f).2 !! "file:///r/f.py").
Proof.
  assert (Py.index (Py.split Py.NL Scenario.f_py) 3 = None) as Hl
    by (vm_compute; reflexivity).
  split; [exact Hl |].
  destruct (@line_out_of_range_leaves_file_open Posix.ops "f.py" 3 None false
              Scenario.w_f Scenario.f_py eq_refl eq_refl
              ltac:(vm_compute; reflexivity) Hl) as [Hrun _].
  rewrite Hrun. split; [reflexivity |]. simpl. rewrite lookup_insert_eq. eauto.
Defined.

Lemma failed_completions_leave_file_open_witness :
  (@request_completions Posix.ops Scenario.first_occurrence 30 "a.py" 0 0 false
     Scenario.w_kindless).1 = Raise KeyError
  ∧ is_Some (open_file_buffers
               (@request_completions Posix.ops Scenario.first_occurrence 30 "a.py"
                  0 0 false Scenario.w_kindless).2 !! Scenario.a_py).
Proof.
  set (r := @request_completions Posix.ops Scenario.first_occurrence 30 "a.py" 0 0
              false Scenario.w_kindless).
  assert (r = (Raise KeyError, r.2)) as Hrun by (vm_compute; reflexivity).
  split; [rewrite Hrun; reflexivity |].
  destruct (@failed_completions_leave_file_open Posix.ops Scenario.first_occurrence
              30 "a.py" 0 0 false Scenario.w_kindless KeyError r.2 Hrun eq_refl)
    as (n & _ & Hlook & Hsome).
  - apply buffer_ok_closed. reflexivity.
  - right. eexists. vm_compute. reflexivity.
  - change Scenario.a_py with (@path_uri Posix.ops Scenario.w_kindless "a.py").
    rewrite Hlook. exact Hsome.
Defined.

Lemma referencing_symbols_hold_a_reference_witness :
  (@request_referencing_symbols Posix.ops "a.py" 2 4 true false Scenario.w_foo).1
    = Ok [Scenario.located "a.py" Scenario.sym_x]
  ∧ ∃ ref, holds_reference ref (Scenario.located "a.py" Scenario.sym_x).
Proof.
  set (r := @request_referencing_symbols Posix.ops "a.py" 2 4 true false Scenario.w_foo).
  assert (r = (Ok [Scenario.located "a.py" Scenario.sym_x], r.2)) as Hrun
    by (vm_compute; reflexivity).
  split; [rewrite Hrun; reflexivity |].
  destruct (@referencing_symbols_hold_a_reference Posix.ops "a.py" 2 4 true false
              Scenario.w_foo _ _ Hrun) as (refs & w1 & _ & Hall).
  inversion Hall as [| s rest (ref & _ & Hh) _]. exists ref. exact Hh.
Defined.
